(** * libo: a shallow embedding of the spreadsheet document model

  The development follows [src/libo.c] and [include/libo.h]:
  machine integers and the few libc routines the code calls, the address
  codec, the heap of C strings, the document model with its accessors and
  mutators, the deep-copy and add operations, the shared-string
  renumbering pass, the worksheet reader's grid materialisation, the
  frozen-pane writer, the operations that grow a sheet, the string value
  of a cell, and the writer of the dimension and of the sheet data. *)

From Stdlib Require Import ZArith Lia Ascii String List Bool.
From Stdlib Require Import DecimalString DecimalPos.
From stdpp Require Import base option list gmap.

Local Open Scope Z_scope.

(** ** Machine integers *)

Module Int.

(** [int] is 32 bits wide, two's complement; [unsigned int] is 32 bits. *)
Definition two31 : Z := 2147483648.
Definition two32 : Z := 4294967296.
Definition two63 : Z := 9223372036854775808.

(** The value an [int] holds after a wrapping operation on [x]. *)
Definition sint32 (x : Z) : Z := (x + two31) mod two32 - two31.

(** The value an [unsigned int] holds after a wrapping operation on [x]. *)
Definition uint32 (x : Z) : Z := x mod two32.

Definition in_int (x : Z) : Prop := - two31 <= x < two31.

End Int.

(** ** The libc routines used by the codec *)

Module Libc.

Definition code (ch : ascii) : Z := Z.of_N (N_of_ascii ch).

Definition between (lo hi x : Z) : bool := (lo <=? x) && (x <=? hi).

(** [isalpha] in the C locale. *)
Definition isalpha (ch : ascii) : bool :=
  between 65 90 (code ch) || between 97 122 (code ch).

Definition isdigit (ch : ascii) : bool := between 48 57 (code ch).

(** [isspace] in the C locale: space, and the controls 9..13. *)
Definition isspace (ch : ascii) : bool :=
  (code ch =? 32) || between 9 13 (code ch).

(** The digits read by [strtol] in base 10, accumulated without bound. *)
Fixpoint digits_value (s : string) (acc : Z) : Z :=
  match s with
  | String ch rest =>
      if isdigit ch then digits_value rest (acc * 10 + (code ch - 48))
      else acc
  | EmptyString => acc
  end.

Fixpoint skip_space (s : string) : string :=
  match s with
  | String ch rest => if isspace ch then skip_space rest else s
  | EmptyString => s
  end.

(** [strtol (s, NULL, 10)]: leading white space, an optional sign, then
    digits; the result saturates at the bounds of [long] (64 bits). *)
Definition strtol (s : string) : Z :=
  let clamp v := Z.max (- Int.two63) (Z.min (Int.two63 - 1) v) in
  match skip_space s with
  | String "-"%char rest => clamp (- digits_value rest 0)
  | String "+"%char rest => clamp (digits_value rest 0)
  | t => clamp (digits_value t 0)
  end.

(** [atoi (s)] is [(int) strtol (s, NULL, 10)]. *)
Definition atoi (s : string) : Z := Int.sint32 (strtol s).

(** [sprintf (buf, "%d", v)] for an [int] [v]. *)
Definition sprintf_d (v : Z) : string := NilZero.string_of_int (Z.to_int v).

End Libc.

(** ** Address codec *)

Module Codec.
Import Int Libc.

(** [reverse]: a string shorter than two characters is returned as it is,
    a longer one is rewritten back to front. *)
Definition reverse (s : string) : string :=
  if (Z.of_nat (String.length s) <? 2) then s
  else string_of_list_ascii (rev (list_ascii_of_string s)).

(** The [do ... while (n)] loop of [column_number_to_reference]; [i] letters
    have been stored so far, and at most [fuel] more fit in [ref]. The
    letters come least significant first. *)
Fixpoint letters_loop (fuel : nat) (n : Z) : option (list ascii) :=
  match fuel with
  | O => None
  | S fuel' =>
      let r := uint32 (n - 1) mod 26 in
      let n' := uint32 (n - 1) / 26 in
      let ch := ascii_of_N (Z.to_N (65 + r)) in
      if n' =? 0 then Some [ch]
      else option_map (cons ch) (letters_loop fuel' n')
  end.

(** [ref] has ten bytes, the last of which must stay the terminator. *)
Definition ref_capacity : nat := 9.

(** [column_number_to_reference (n)]; [None] would be an overrun of the
    static buffer [ref]. *)
Definition column_number_to_reference (n : Z) : option string :=
  match letters_loop ref_capacity (uint32 (uint32 n + 1)) with
  | Some ls => Some (reverse (string_of_list_ascii ls))
  | None => None
  end.

(** The leading alphabetic run skipped by the first [while] loop, and what
    follows it. *)
Fixpoint alpha_run (s : string) : list ascii * string :=
  match s with
  | String ch rest =>
      if isalpha ch then
        let '(run, tl) := alpha_run rest in (ch :: run, tl)
      else ([], s)
  | EmptyString => ([], s)
  end.

(** [for (prod = 1, i = 0; i < mag; i++) prod *= 26;] *)
Fixpoint pow26 (mag : nat) : Z :=
  match mag with
  | O => 1
  | S m => sint32 (pow26 m * 26)
  end.

(** The loop [while (p >= ref)], walking the alphabetic run from its last
    letter back to [ref]. *)
Fixpoint col_loop (letters_backwards : list ascii) (mag : nat) (col : Z) : Z :=
  match letters_backwards with
  | [] => col
  | ch :: rest =>
      let c := code ch - 65 + 1 in
      col_loop rest (S mag) (sint32 (col + sint32 (c * pow26 mag)))
  end.

(** [cell_ref_to_row_col (ref, &row, &col)]: the pair stored through [row]
    and [col] when the function returns. The function returns [void]. *)
Definition cell_ref_to_row_col (ref : option string) : Z * Z :=
  match ref with
  | None => (0, 0)
  | Some s =>
      let '(run, tl) := alpha_run s in
      let row := sint32 (atoi tl - 1) in
      let col := col_loop (rev run) 0 0 in
      (row, sint32 (col - 1))
  end.

End Codec.

(** ** The heap of C strings *)

Module Heap.

(** A pointer to a [char] buffer; [0] is [NULL]. *)
Definition ptr : Type := Z.
Definition NULL : ptr := 0.

(** The live buffers, each holding a terminated string, and the address
    the allocator hands out next. [malloc] never fails here and never
    hands out an address twice. *)
Record heap : Type := mkHeap { blocks : gmap Z string; next : Z }.

Definition empty_heap : heap := mkHeap ∅ 1.

(** Heap computations; [None] is a memory error (use after free, invalid
    [free], access out of bounds), on which the C program has no defined
    behaviour. *)
Definition M (A : Type) : Type := heap -> option (A * heap).

Definition ret {A : Type} (a : A) : M A := fun h => Some (a, h).

Definition bind {A B : Type} (m : M A) (k : A -> M B) : M B :=
  fun h => match m h with
           | Some (a, h') => k a h'
           | None => None
           end.

Definition fail {A : Type} : M A := fun _ => None.

(** Reading the string a pointer points to. *)
Definition load (p : ptr) : M string :=
  fun h => match blocks h !! p with
           | Some s => Some (s, h)
           | None => None
           end.

(** A fresh buffer holding [s]. *)
Definition alloc (s : string) : M ptr :=
  fun h => Some (next h, mkHeap (<[next h := s]> (blocks h)) (next h + 1)).

(** [strdup (p)]. *)
Definition strdup (p : ptr) : M ptr := bind (load p) alloc.

(** [free (p)] for a non-null [p]. *)
Definition free (p : ptr) : M unit :=
  fun h => match blocks h !! p with
           | Some _ => Some (tt, mkHeap (delete p (blocks h)) (next h))
           | None => None
           end.

(** [if (p) free (p);] *)
Definition free_if (p : ptr) : M unit := if p =? NULL then ret tt else free p.

End Heap.

Notation "x <- m ;; k" := (Heap.bind m (fun x => k))
  (at level 100, m at next level, right associativity, only parsing).
Notation "m ;;; k" := (Heap.bind m (fun _ => k))
  (at level 100, right associativity, only parsing).

(** ** The document model ([include/libo.h]) *)

Module Model.
Import Int Libc Heap.

Inductive libo_type : Type :=
| libo_type_none
| libo_type_xl
| libo_type_doc
| libo_type_pp.

Inductive libo_xl_cell_type : Type :=
| libo_xl_cell_type_none
| libo_xl_cell_type_reference
| libo_xl_cell_type_expression
| libo_xl_cell_type_number.

Inductive libo_xl_freeze_type : Type :=
| libo_xl_freeze_type_none
| libo_xl_freeze_type_top
| libo_xl_freeze_type_left.

#[global] Instance libo_type_eq_dec : EqDecision libo_type.
Proof. solve_decision. Defined.
#[global] Instance libo_xl_cell_type_eq_dec : EqDecision libo_xl_cell_type.
Proof. solve_decision. Defined.
#[global] Instance libo_xl_freeze_type_eq_dec : EqDecision libo_xl_freeze_type.
Proof. solve_decision. Defined.

(** A [double] is kept as its IEEE 754 binary64 bit pattern, a [float] as
    its binary32 bit pattern; the code only stores and copies them. *)
Definition double : Type := Z.
Definition double_zero : double := 0.
(** 14.4, the default row height of [libo_xl_sheet_new]: the bits
    [0x402CCCCCCCCCCCCD]. *)
Definition double_14_4 : double := 4624296097384025293.

(** [struct libo_xl_cell_expression]. *)
Record libo_xl_cell_expression : Type := mkExpression {
  formula : ptr;
  value : ptr
}.

(** [struct libo_xl_cell]: the tag and the storage of the anonymous union.
    The union is sixteen bytes wide, the size of its largest member
    [expression]; it is kept as two 64-bit words, [word0] for bytes 0..7
    and [word1] for bytes 8..15 (LP64, little endian). The members overlay
    it: [reference] is the low half of [word0], [number] is [word0],
    [expression.formula] is [word0] and [expression.value] is [word1]. *)
Record libo_xl_cell : Type := mkCell {
  cell_type : libo_xl_cell_type;
  word0 : Z;
  word1 : Z
}.

(** Reading and writing the members of the union. *)
Definition reference (c : libo_xl_cell) : Z := sint32 (word0 c).

Definition with_reference (c : libo_xl_cell) (v : Z) : libo_xl_cell :=
  mkCell (cell_type c) (word0 c - uint32 (word0 c) + uint32 v) (word1 c).

Definition number (c : libo_xl_cell) : double := word0 c.

Definition with_number (c : libo_xl_cell) (x : double) : libo_xl_cell :=
  mkCell (cell_type c) x (word1 c).

Definition expression (c : libo_xl_cell) : libo_xl_cell_expression :=
  mkExpression (word0 c) (word1 c).

Definition with_expression (c : libo_xl_cell) (e : libo_xl_cell_expression)
  : libo_xl_cell :=
  mkCell (cell_type c) (formula e) (value e).

Definition with_type (c : libo_xl_cell) (t : libo_xl_cell_type) : libo_xl_cell :=
  mkCell t (word0 c) (word1 c).

(** [memset (&c->expression, 0, sizeof (libo_xl_cell_expression))] clears
    the whole union. *)
Definition zeroed (c : libo_xl_cell) : libo_xl_cell := mkCell (cell_type c) 0 0.

(** [struct libo_xl_row]. The array [cell] and its count [n_cells] are kept
    as one list: every operation below leaves [n_cells] equal to the
    number of elements, and the elements non-null. *)
Record libo_xl_row : Type := mkRow { row_cell : list libo_xl_cell }.

Definition n_cells (r : libo_xl_row) : Z := Z.of_nat (length (row_cell r)).

Record libo_xl_freeze : Type := mkFreeze {
  freeze_type : libo_xl_freeze_type;
  freeze_n : Z
}.

Record libo_xl_column : Type := mkColumn { width : Z; autowidth : Z }.

Record libo_xl_filter : Type := mkFilter { first_column : Z; last_column : Z }.

(** [struct libo_xl_sheet]. [row] and [n_rows] are one list, as for rows;
    [n_cols] is a field of its own. The strings [name] and [rID] are
    owned copies and are kept by value, [None] for [NULL]. *)
Record libo_xl_sheet : Type := mkSheet {
  n_cols : Z;
  sheet_name : option string;
  ID : Z;
  rID : option string;
  default_row_height : double;
  sheet_freeze : libo_xl_freeze;
  sheet_row : list libo_xl_row;
  sheet_column : option (list libo_xl_column);
  sheet_filter : option libo_xl_filter
}.

Definition n_rows (s : libo_xl_sheet) : Z := Z.of_nat (length (sheet_row s)).

(** [struct libo_xl_book]. *)
Record libo_xl_book : Type := mkBook { book_sheet : list libo_xl_sheet }.

Definition n_sheets (b : libo_xl_book) : Z := Z.of_nat (length (book_sheet b)).

(** The arrays [row->cell], [sheet->row] and [book->sheet] hold pointers.
    The records above keep each as the list of the structs pointed to,
    which stands for an array without a null pointer, the form the
    constructors and the add operations of the library build. Where a
    function tests the elements of an array, or reads through them without
    a test, the array is walked as the list of its elements, [None] for a
    null pointer: *)
Definition pointers {A : Type} (l : list A) : list (option A) := map Some l.

(** and back, the structs that the non-null elements point to. *)
Definition pointees {A : Type} (ps : list (option A)) : list A :=
  omap (fun p => p) ps.

(** *** Accessors

    A pointer argument that may be [NULL] is an [option]. *)

Definition libo_xl_book_get_sheet_count (xlb : option libo_xl_book) : Z :=
  match xlb with
  | None => 0
  | Some b => n_sheets b
  end.

Definition libo_xl_book_get_sheet (xlb : option libo_xl_book) (n : Z)
  : option libo_xl_sheet :=
  match xlb with
  | None => None
  | Some b =>
      if n <? 0 then None
      else if n >=? n_sheets b then None
      else book_sheet b !! Z.to_nat n
  end.

Definition libo_xl_sheet_get_row (xls : option libo_xl_sheet) (n : Z)
  : option libo_xl_row :=
  match xls with
  | None => None
  | Some s =>
      if n <? 0 then None
      else if n >=? n_rows s then None
      else sheet_row s !! Z.to_nat n
  end.

Definition libo_xl_row_get_cell_count (xlr : option libo_xl_row) : Z :=
  match xlr with
  | None => 0
  | Some r => n_cells r
  end.

Definition libo_xl_row_get_cell (xlr : option libo_xl_row) (n : Z)
  : option libo_xl_cell :=
  match xlr with
  | None => None
  | Some r =>
      if n <? 0 then None
      else if n >=? n_cells r then None
      else row_cell r !! Z.to_nat n
  end.

Definition libo_xl_cell_get_type (xlc : option libo_xl_cell) : libo_xl_cell_type :=
  match xlc with
  | None => libo_xl_cell_type_none
  | Some c => cell_type c
  end.

Definition libo_xl_cell_get_reference (xlc : option libo_xl_cell) : Z :=
  match xlc with
  | None => 0
  | Some c =>
      if decide (cell_type c = libo_xl_cell_type_reference) then reference c
      else 0
  end.

Definition libo_xl_cell_get_number (xlc : option libo_xl_cell) : double :=
  match xlc with
  | None => double_zero
  | Some c =>
      if decide (cell_type c = libo_xl_cell_type_number) then number c
      else double_zero
  end.

Definition libo_xl_cell_get_expression (xlc : option libo_xl_cell)
  : option libo_xl_cell_expression :=
  match xlc with
  | None => None
  | Some c =>
      if decide (cell_type c = libo_xl_cell_type_expression)
      then Some (expression c)
      else None
  end.

(** *** Constructors *)

Definition libo_xl_cell_new : libo_xl_cell :=
  mkCell libo_xl_cell_type_none 0 0.

Definition libo_xl_row_new : libo_xl_row := mkRow [].

Definition libo_xl_sheet_new : libo_xl_sheet :=
  mkSheet 0 None 0 None double_14_4
          (mkFreeze libo_xl_freeze_type_none 0) [] None None.

Definition libo_xl_book_new : libo_xl_book := mkBook [].

(** *** Mutators of a cell

    The mutators return at once on a null cell; the cell below is the one
    a non-null pointer points to, and the result is that cell after the
    call. *)

Definition libo_xl_cell_set_type (xlc : libo_xl_cell) (type : libo_xl_cell_type)
  : M libo_xl_cell :=
  (if decide (cell_type xlc = libo_xl_cell_type_expression)
   then free_if (formula (expression xlc)) ;;;
        free_if (value (expression xlc))
   else ret tt) ;;;
  ret (with_type (zeroed xlc) type).

Definition libo_xl_cell_set_reference (xlc : libo_xl_cell) (v : Z)
  : libo_xl_cell :=
  if decide (cell_type xlc = libo_xl_cell_type_reference)
  then with_reference xlc v
  else xlc.

Definition libo_xl_cell_clear (cell : libo_xl_cell) : M libo_xl_cell :=
  c <- match cell_type cell with
       | libo_xl_cell_type_reference => ret (with_reference cell 0)
       | libo_xl_cell_type_expression =>
           free_if (value (expression cell)) ;;;
           free_if (formula (expression cell)) ;;;
           ret (zeroed cell)
       | libo_xl_cell_type_number => ret (with_reference cell 0)
       | libo_xl_cell_type_none => ret cell
       end ;;
  libo_xl_cell_set_type c libo_xl_cell_type_none.

(** [xlce] is the expression struct the pointer points to; the argument
    [p] is the string to copy. *)
Definition libo_xl_cell_expression_set_formula
    (xlce : libo_xl_cell_expression) (p : ptr) : M libo_xl_cell_expression :=
  if p =? NULL then ret xlce
  else
    let old_formula := formula xlce in
    q <- strdup p ;;
    free_if old_formula ;;;
    ret (mkExpression q (value xlce)).

Definition libo_xl_cell_expression_set_value
    (xlce : libo_xl_cell_expression) (p : ptr) : M libo_xl_cell_expression :=
  if p =? NULL then ret xlce
  else
    let old_value := value xlce in
    q <- strdup p ;;
    free_if old_value ;;;
    ret (mkExpression (formula xlce) q).

Definition libo_xl_cell_set_number (xlc : libo_xl_cell) (x : double)
  : M libo_xl_cell :=
  c <- libo_xl_cell_clear xlc ;;
  c <- libo_xl_cell_set_type c libo_xl_cell_type_number ;;
  ret (with_number c x).

(** [xlce] is a struct of the caller's, apart from the cell's own. *)
Definition libo_xl_cell_set_expression
    (xlc : libo_xl_cell) (xlce : libo_xl_cell_expression) : M libo_xl_cell :=
  c <- libo_xl_cell_clear xlc ;;
  c <- libo_xl_cell_set_type c libo_xl_cell_type_expression ;;
  e <- (if formula xlce =? NULL then ret (expression c)
        else libo_xl_cell_expression_set_formula (expression c) (formula xlce)) ;;
  e <- (if value xlce =? NULL then ret e
        else libo_xl_cell_expression_set_value e (value xlce)) ;;
  ret (with_expression c e).

Definition libo_xl_sheet_set_freeze
    (sheet : libo_xl_sheet) (type : libo_xl_freeze_type) (n : Z)
  : libo_xl_sheet :=
  mkSheet (n_cols sheet) (sheet_name sheet) (ID sheet) (rID sheet)
          (default_row_height sheet) (mkFreeze type n)
          (sheet_row sheet) (sheet_column sheet) (sheet_filter sheet).

End Model.

(** ** Duplication and the add operations *)

Module Copy.
Import Int Libc Heap Model.

(** [libo_xl_cell_dup (cell)]. The callee writes through [cell], so the
    result is the pair of the argument cell after the call and the new
    cell [ncell]. [memcpy] copies tag and union; the two calls that follow
    are made on [&cell->expression], the argument's own struct. *)
Definition libo_xl_cell_dup (cell : libo_xl_cell)
  : M (libo_xl_cell * libo_xl_cell) :=
  let ncell := cell in
  if decide (cell_type cell = libo_xl_cell_type_expression) then
    e <- (if formula (expression cell) =? NULL then ret (expression cell)
          else libo_xl_cell_expression_set_formula
                 (expression cell) (formula (expression cell))) ;;
    e <- (if value e =? NULL then ret e
          else libo_xl_cell_expression_set_value e (value e)) ;;
    ret (with_expression cell e, ncell)
  else ret (cell, ncell).

(** [libo_xl_row_add (xlr, xlc)]: the row and the argument cell after the
    call. *)
Definition libo_xl_row_add (xlr : libo_xl_row) (xlc : libo_xl_cell)
  : M (libo_xl_row * libo_xl_cell) :=
  p <- libo_xl_cell_dup xlc ;;
  ret (mkRow (row_cell xlr ++ [snd p]), fst p).

(** The loop of [libo_xl_row_dup] over the cells of its argument; the
    cells after the call, and the new row. *)
Fixpoint row_dup_loop (cells : list libo_xl_cell) (nrow : libo_xl_row)
  : M (list libo_xl_cell * libo_xl_row) :=
  match cells with
  | [] => ret ([], nrow)
  | c :: cs =>
      p <- libo_xl_row_add nrow c ;;
      q <- row_dup_loop cs (fst p) ;;
      ret (snd p :: fst q, snd q)
  end.

(** [libo_xl_row_dup (row)]: the argument row after the call, and [nrow]. *)
Definition libo_xl_row_dup (row : libo_xl_row) : M (libo_xl_row * libo_xl_row) :=
  q <- row_dup_loop (row_cell row) libo_xl_row_new ;;
  ret (mkRow (fst q), snd q).

Definition with_rows (s : libo_xl_sheet) (rows : list libo_xl_row)
  : libo_xl_sheet :=
  mkSheet (n_cols s) (sheet_name s) (ID s) (rID s) (default_row_height s)
          (sheet_freeze s) rows (sheet_column s) (sheet_filter s).

(** [libo_xl_sheet_add (xls, xlr)]: the sheet and the argument row after the
    call. *)
Definition libo_xl_sheet_add (xls : libo_xl_sheet) (xlr : libo_xl_row)
  : M (libo_xl_sheet * libo_xl_row) :=
  p <- libo_xl_row_dup xlr ;;
  ret (with_rows xls (sheet_row xls ++ [snd p]), fst p).

(** The loop of [libo_xl_sheet_dup] over the rows of its argument. *)
Fixpoint sheet_dup_loop (rows : list libo_xl_row) (nsheet : libo_xl_sheet)
  : M (list libo_xl_row * libo_xl_sheet) :=
  match rows with
  | [] => ret ([], nsheet)
  | r :: rs =>
      p <- libo_xl_sheet_add nsheet r ;;
      q <- sheet_dup_loop rs (fst p) ;;
      ret (snd p :: fst q, snd q)
  end.

(** [libo_xl_sheet_dup (sheet)]: the argument sheet after the call, and
    [nsheet]. *)
Definition libo_xl_sheet_dup (sheet : libo_xl_sheet)
  : M (libo_xl_sheet * libo_xl_sheet) :=
  let nsheet :=
    mkSheet (n_cols sheet) (sheet_name sheet)
            (ID libo_xl_sheet_new) (rID libo_xl_sheet_new)
            (default_row_height sheet)
            (sheet_freeze libo_xl_sheet_new) (sheet_row libo_xl_sheet_new)
            (sheet_column libo_xl_sheet_new) (sheet_filter libo_xl_sheet_new) in
  q <- sheet_dup_loop (sheet_row sheet) nsheet ;;
  ret (with_rows sheet (fst q), snd q).

(** [libo_xl_book_add (xlb, xls)]: the book and the argument sheet after the
    call. *)
Definition libo_xl_book_add (xlb : libo_xl_book) (xls : libo_xl_sheet)
  : M (libo_xl_book * libo_xl_sheet) :=
  p <- libo_xl_sheet_dup xls ;;
  let d := snd p in
  let rid_str := ("rId" ++ sprintf_d (sint32 (n_sheets xlb + 4)))%string in
  let d' :=
    mkSheet (n_cols d) (sheet_name d) (sint32 (n_sheets xlb + 1)) (Some rid_str)
            (default_row_height d) (sheet_freeze d) (sheet_row d)
            (sheet_column d) (sheet_filter d) in
  ret (mkBook (book_sheet xlb ++ [d']), fst p).

End Copy.

(** ** The string table *)

Module Strings.

(** Modelled from the spec: the string-interning dictionary of
    [libstrings.h], an external collaborator whose source is not part of
    the repository. An entry pairs a text with an integer id; the table
    keeps its entries in insertion order and the id it assigns next.
    Inserting a text that is absent appends it under the next id (ids are
    assigned in first-seen order from 0, whatever id the argument carries);
    inserting a text that is present changes nothing. *)
Record string_entry : Type := mkString { text : string; id : Z }.

Record strings : Type := mkStrings {
  last_id : Z;
  entries : list string_entry
}.

Definition strings_new : strings := mkStrings 0 [].

Definition string_new_with_values (t : string) (i : Z) : string_entry :=
  mkString t i.

Definition string_dup (s : string_entry) : string_entry := s.

Definition strings_find_by_id (strs : strings) (i : Z) : option string_entry :=
  find (fun e => id e =? i) (entries strs).

Definition strings_find_by_text (strs : strings) (t : string)
  : option string_entry :=
  find (fun e => String.eqb (text e) t) (entries strs).

Definition strings_add (strs : strings) (s : string_entry) : strings :=
  match strings_find_by_text strs (text s) with
  | Some _ => strs
  | None =>
      mkStrings (last_id strs + 1)
                (entries strs ++ [mkString (text s) (last_id strs)])
  end.

End Strings.

(** ** Text cells *)

Module Text.
Import Int Libc Heap Model Strings.

(** [libo_xl_cell_get_text (xl, xlc)]; [strs] is the table [xl->strings]. *)
Definition libo_xl_cell_get_text (strs : strings) (xlc : option libo_xl_cell)
  : option string :=
  match xlc with
  | None => None
  | Some c =>
      if decide (cell_type c = libo_xl_cell_type_reference) then
        match strings_find_by_id strs (reference c) with
        | Some str => Some (text str)
        | None => None
        end
      else None
  end.

(** [libo_xl_cell_set_text (xl, xlc, text)]: the table [xl->strings] and the
    cell after the call. *)
Definition libo_xl_cell_set_text
    (strs : strings) (xlc : libo_xl_cell) (t : string)
  : M (strings * libo_xl_cell) :=
  c <- libo_xl_cell_clear xlc ;;
  c <- libo_xl_cell_set_type c libo_xl_cell_type_reference ;;
  match strings_find_by_text strs t with
  | Some str => ret (strs, libo_xl_cell_set_reference c (id str))
  | None =>
      let strs' := strings_add strs (string_new_with_values t 0) in
      match strings_find_by_text strs' t with
      | Some str => ret (strs', libo_xl_cell_set_reference c (id str))
      | None => ret (strs', c)
      end
  end.

End Text.

(** ** The shared-string renumbering pass *)

Module Renumber.
Import Int Libc Heap Model Strings.

(** [struct libo_xl] and [struct libo]; only the spreadsheet body of the
    union is modelled. *)
Record libo_xl : Type := mkXl {
  book : option libo_xl_book;
  xl_strings : option strings
}.

Record libo : Type := mkLibo {
  path : option string;
  type : libo_type;
  xl : option libo_xl
}.

(** The state of the pass: the counter [new_id] and the table being
    built. *)
Record pass : Type := mkPass { new_id : Z; fresh : strings }.

(** The body of the innermost loop, on the cell [row->cell[k]]; [old] is
    the table of the document. *)
Definition renumber_cell (old : strings) (st : pass) (cell : libo_xl_cell)
  : pass * libo_xl_cell :=
  match cell_type cell with
  | libo_xl_cell_type_none
  | libo_xl_cell_type_expression
  | libo_xl_cell_type_number => (st, cell)
  | libo_xl_cell_type_reference =>
      let found :=
        match strings_find_by_id old (reference cell) with
        | Some f => strings_find_by_text (fresh st) (text f)
        | None => None
        end in
      match found with
      | Some f =>
          (mkPass (new_id st) (strings_add (fresh st) (string_dup f)),
           with_reference cell (id f))
      | None =>
          let strs :=
            match strings_find_by_id old (reference cell) with
            | Some f => strings_add (fresh st) (string_dup f)
            | None => fresh st
            end in
          (mkPass (uint32 (new_id st + 1)) strs,
           with_reference cell (new_id st))
      end
  end.

Fixpoint renumber_cells (old : strings) (st : pass) (cells : list libo_xl_cell)
  : pass * list libo_xl_cell :=
  match cells with
  | [] => (st, [])
  | c :: cs =>
      let '(st1, c') := renumber_cell old st c in
      let '(st2, cs') := renumber_cells old st1 cs in
      (st2, c' :: cs')
  end.

(** The pass tests each pointer it loads from [book->sheet] and
    [sheet->row], so it is followed on the two arrays as they lie in
    memory: a row array is the list of the elements of [sheet->row], [None]
    for a null one, and a sheet array has for each element of [book->sheet]
    [None] if it is null and else the row array of the sheet, the only
    field of a sheet the pass uses. *)
Definition row_array : Type := list (option libo_xl_row).
Definition sheet_array : Type := list (option row_array).

(** The loop over [j], on the elements of [sheet->row] from [row[j]] on.
    The result tells whether the loop ran to its end, and gives the state
    of the pass and the array after it. At a null element the function
    returns ([if (!row) return;]): the walk is not finished, and the cells
    of the rows before stay as rewritten. *)
Fixpoint renumber_rows (old : strings) (st : pass) (rows : row_array)
  : bool * pass * row_array :=
  match rows with
  | [] => (true, st, [])
  | None :: _ => (false, st, rows)
  | Some r :: rs =>
      let '(st1, cells) := renumber_cells old st (row_cell r) in
      let '(finished, st2, rs') := renumber_rows old st1 rs in
      (finished, st2, Some (mkRow cells) :: rs')
  end.

(** The loop over [i], on the elements of [book->sheet] from [sheet[i]] on;
    [if (!sheet) return;] at a null element. After a [return] inside the
    rows of a sheet the sheets that follow are not looked at. *)
Fixpoint renumber_sheets (old : strings) (st : pass) (sheets : sheet_array)
  : bool * pass * sheet_array :=
  match sheets with
  | [] => (true, st, [])
  | None :: _ => (false, st, sheets)
  | Some rows :: ss =>
      let '(finished, st1, rows') := renumber_rows old st rows in
      if finished then
        let '(finished', st2, ss') := renumber_sheets old st1 ss in
        (finished', st2, Some rows' :: ss')
      else (false, st1, Some rows' :: ss)
  end.

(** The function once its tests of [l] have passed, on the arrays of the
    workbook and the table [old] of the document: the arrays and the table
    [l->xl->strings] after the call. The new table replaces the old one
    only when the walk ran to its end; the statements
    [strings_free (l->xl->strings); l->xl->strings = strings;] come after
    the loops, and a [return] inside them leaves the old table in place
    next to the ids already rewritten. *)
Definition renumber_arrays (old : strings) (sheets : sheet_array)
  : sheet_array * strings :=
  let '(finished, st, sheets') :=
    renumber_sheets old (mkPass 0 strings_new) sheets in
  (sheets', if finished then fresh st else old).

(** The arrays of a workbook of the model, none of whose pointers is null,
    and the workbook with the rows of given arrays in the place of its
    own. *)
Definition arrays_of (b : libo_xl_book) : sheet_array :=
  pointers (map (fun s => pointers (sheet_row s)) (book_sheet b)).

Definition with_arrays (b : libo_xl_book) (arrays : sheet_array)
  : libo_xl_book :=
  mkBook (zip_with (fun s rows => Copy.with_rows s (pointees rows))
                   (book_sheet b) (pointees arrays)).

(** [libo_xl_renumber_strings (l)]: the document after the call. *)
Definition libo_xl_renumber_strings (l : libo) : libo :=
  match type l, xl l with
  | libo_type_xl, Some x =>
      match xl_strings x, book x with
      | Some old, Some b =>
          let '(arrays, strs) := renumber_arrays old (arrays_of b) in
          mkLibo (path l) (type l)
                 (Some (mkXl (Some (with_arrays b arrays)) (Some strs)))
      | _, _ => l
      end
  | _, _ => l
  end.

End Renumber.

(** ** The worksheet reader: materialising the grid *)

Module Reader.
Import Int Libc Heap Model Codec.

(** What the reader sees of the parsed worksheet part. A child of a [c]
    element, with its text content: *)
Record xml_child : Type := mkChild {
  child_is_element : bool;
  child_name : string;
  child_content : string
}.

(** a child of a [row] element, with its attributes [r] and [t]: *)
Record xml_cell : Type := mkXmlCell {
  node_name : string;
  attr_r : option string;
  attr_t : option string;
  node_children : list xml_child
}.

(** and a child element of [sheetData], with its attribute [spans]. *)
Record xml_row : Type := mkXmlRow {
  element_name : string;
  attr_spans : option string;
  row_children : list xml_cell
}.

(** The child elements of [sheetData]; [None] when the part has no such
    element. *)
Definition worksheet : Type := option (list xml_row).

Definition string_to_libo_xl_cell_type (s : option string) : libo_xl_cell_type :=
  match s with
  | None => libo_xl_cell_type_none
  | Some t =>
      if String.eqb t "s" then libo_xl_cell_type_reference
      else if String.eqb t "e" then libo_xl_cell_type_expression
      else libo_xl_cell_type_none
  end.

(** [count_sheet_rows_in_xml]: [xmlChildElementCount] of [sheetData]. *)
Definition count_sheet_rows_in_xml (doc : worksheet) : Z :=
  match doc with
  | None => 0
  | Some els => Z.of_nat (length els)
  end.

(** The node set of the query for the [row] elements of [sheetData]. *)
Definition row_nodes (doc : worksheet) : list xml_row :=
  match doc with
  | None => []
  | Some els => List.filter (fun e => String.eqb (element_name e) "row") els
  end.

(** [strchr (s, ':')], then one character further. *)
Fixpoint after_colon (s : string) : option string :=
  match s with
  | EmptyString => None
  | String ch rest => if Ascii.eqb ch ":" then Some rest else after_colon rest
  end.

(** [count_sheet_columns_in_xml]: the upper bound of the span of the first
    row. *)
Definition count_sheet_columns_in_xml (doc : worksheet) : Z :=
  match row_nodes doc with
  | [] => 0
  | first :: _ =>
      match attr_spans first with
      | None => 0
      | Some spans =>
          match after_colon spans with
          | None => 0
          | Some p => atoi p
          end
      end
  end.

(** [row->cell[j]], an access to an array of [length cells] elements. *)
Definition cell_at (cells : list libo_xl_cell) (j : Z) : M libo_xl_cell :=
  if j <? 0 then fail
  else match cells !! Z.to_nat j with
       | Some c => ret c
       | None => fail
       end.

Definition store_cell (cells : list libo_xl_cell) (j : Z) (c : libo_xl_cell)
  : list libo_xl_cell :=
  <[Z.to_nat j := c]> cells.

(** The two filling loops, [while (j < c)] and [while (j < sheet->n_cols)],
    run [count] times from the column [j]:
    [cell->type = libo_xl_cell_type_expression;
     cell->expression.value = strdup ("");] *)
Fixpoint fill_loop (count : nat) (j : Z) (cells : list libo_xl_cell)
  : M (list libo_xl_cell) :=
  match count with
  | O => ret cells
  | S k =>
      cell <- cell_at cells j ;;
      p <- alloc EmptyString ;;
      let cell1 := with_type cell libo_xl_cell_type_expression in
      let cell2 :=
        with_expression cell1 (mkExpression (formula (expression cell1)) p) in
      fill_loop k (j + 1) (store_cell cells j cell2)
  end.

Section Payload.

(** [atof], from the text of a [v] element to the bits of a [double]. *)
Variable atof : string -> double.

Definition read_reference (cell : libo_xl_cell) (n : xml_child) : libo_xl_cell :=
  if child_is_element n && String.eqb (child_name n) "v"
  then with_reference cell (atoi (child_content n))
  else cell.

Definition read_number (cell : libo_xl_cell) (n : xml_child) : libo_xl_cell :=
  if child_is_element n && String.eqb (child_name n) "v"
  then with_number cell (atof (child_content n))
  else cell.

Fixpoint read_expression (cell : libo_xl_cell) (ns : list xml_child)
  : M libo_xl_cell :=
  match ns with
  | [] => ret cell
  | n :: rest =>
      if child_is_element n then
        if String.eqb (child_name n) "f" then
          p <- alloc (child_content n) ;;
          read_expression
            (with_expression cell (mkExpression p (value (expression cell))))
            rest
        else if String.eqb (child_name n) "v" then
          p <- alloc (child_content n) ;;
          read_expression
            (with_expression cell (mkExpression (formula (expression cell)) p))
            rest
        else read_expression cell rest
      else read_expression cell rest
  end.

(** The declared cell: its kind from the attribute [t], then its payload
    from the children. *)
Definition read_cell (node2 : xml_cell) (cell : libo_xl_cell) : M libo_xl_cell :=
  let type :=
    match attr_t node2 with
    | Some t => string_to_libo_xl_cell_type (Some t)
    | None => libo_xl_cell_type_number
    end in
  let cell := with_type cell type in
  match type with
  | libo_xl_cell_type_none => ret cell
  | libo_xl_cell_type_reference =>
      ret (fold_left read_reference (node_children node2) cell)
  | libo_xl_cell_type_expression => read_expression cell (node_children node2)
  | libo_xl_cell_type_number =>
      ret (fold_left read_number (node_children node2) cell)
  end.

(** The loop [for (j = 0; node2 && (j < sheet->n_cols);)] over the children
    of a [row] element; the cursor [j] and the cells when it ends. *)
Fixpoint row_loop (n_cols : Z) (children : list xml_cell) (j : Z)
    (cells : list libo_xl_cell) : M (Z * list libo_xl_cell) :=
  match children with
  | [] => ret (j, cells)
  | node2 :: rest =>
      if j <? n_cols then
        p <- (if String.eqb (node_name node2) "c" then
                let c := snd (cell_ref_to_row_col (attr_r node2)) in
                cells1 <- fill_loop (Z.to_nat (c - j)) j cells ;;
                let j1 := Z.max j c in
                cell <- cell_at cells1 j1 ;;
                cell' <- read_cell node2 cell ;;
                ret (j1, store_cell cells1 j1 cell')
              else ret (j, cells)) ;;
        row_loop n_cols rest (fst p + 1) (snd p)
      else ret (j, cells)
  end.

(** One pass of the loop over the rows: the children of the [row] element,
    then the trailing columns. *)
Definition read_row (n_cols : Z) (node : xml_row) (row : libo_xl_row)
  : M libo_xl_row :=
  p <- row_loop n_cols (row_children node) 0 (row_cell row) ;;
  cells <- fill_loop (Z.to_nat (n_cols - fst p)) (fst p) (snd p) ;;
  ret (mkRow cells).

Fixpoint rows_loop (n_cols : Z) (rows : list libo_xl_row) (nodes : list xml_row)
  : M (list libo_xl_row) :=
  match rows, nodes with
  | row :: rows', node :: nodes' =>
      r <- read_row n_cols node row ;;
      rs <- rows_loop n_cols rows' nodes' ;;
      ret (r :: rs)
  | _, _ => ret rows
  end.

(** The grid allocated first: [n_rows] rows of [n_cols] new cells, for
    [0 <= n_cols]. With a negative [n_cols] the request for the cells of
    the first row cannot be served, the loop stops there and the elements
    of [rows] after the first stay null: an array that the lists of this
    model do not hold, so the reader is followed on column counts from 0
    up only. *)
Definition new_grid (n_rows n_cols : Z) : list libo_xl_row :=
  replicate (Z.to_nat n_rows) (mkRow (replicate (Z.to_nat n_cols) libo_xl_cell_new)).

(** [libo_xl_sheet_rows_read (sheet, doc)]; [n_rows] and [n_cols] are the
    fields of [sheet] that [libo_xl_sheet_read] has just set, [nodes] the
    [row] elements the query returns. *)
Definition libo_xl_sheet_rows_read (n_rows n_cols : Z) (nodes : list xml_row)
  : M (list libo_xl_row) :=
  let rows := new_grid n_rows n_cols in
  if Z.of_nat (length nodes) =? n_rows
  then rows_loop n_cols rows nodes
  else ret rows.

(** The part of [libo_xl_sheet_read] that follows the parsing of the
    worksheet. *)
Definition libo_xl_sheet_read (sheet : libo_xl_sheet) (doc : worksheet)
  : M libo_xl_sheet :=
  let nr := count_sheet_rows_in_xml doc in
  let nc := count_sheet_columns_in_xml doc in
  rows <- libo_xl_sheet_rows_read nr nc (row_nodes doc) ;;
  ret (mkSheet nc (sheet_name sheet) (ID sheet) (rID sheet)
               (default_row_height sheet) (sheet_freeze sheet) rows
               (sheet_column sheet) (sheet_filter sheet)).

End Payload.

End Reader.

(** ** The frozen-pane block of the worksheet writer *)

Module Writer.
Import Int Libc Heap Model Renumber.
Local Open Scope string_scope.

(** The characters the C literals escape. *)
Definition dq : string := String (ascii_of_nat 34) EmptyString.
Definition nl : string := String (ascii_of_nat 10) EmptyString.

(** [strapp (s1, s2)] for a non-null [s2]; [None] is a null [s1]. *)
Definition strapp (s1 : option string) (s2 : string) : option string :=
  match s1 with
  | None => Some s2
  | Some s => Some (s ++ s2)
  end.

(** [libo_xl_sheet_sheetviews_add (l, sheet, buf)]: the string [buf] points
    to after the call; the outer [None] is a null or out-of-bounds
    dereference. In each [switch], the statements written after
    [case libo_xl_freeze_type_left: break;] are never reached. *)
Definition libo_xl_sheet_sheetviews_add
    (l : option libo) (sheet : Z) (buf : option string)
  : option (option string) :=
  match l with
  | None => Some buf
  | Some d =>
      if decide (type d = libo_type_xl) then
        x ← xl d;
        b ← book x;
        if (sheet >=? n_sheets b)%Z then Some buf
        else if (sheet <? 0)%Z then None
        else
          sht ← book_sheet b !! Z.to_nat sheet;
          let fz := sheet_freeze sht in
          if decide (freeze_type fz = libo_xl_freeze_type_none) then Some buf
          else
            let buf := strapp buf ("<sheetViews>" ++ nl) in
            let buf :=
              strapp buf ("<sheetView tabSelected=" ++ dq ++ "1" ++ dq
                          ++ " topLeftCell=" ++ dq ++ "A1" ++ dq
                          ++ " workbookViewId=" ++ dq ++ "0" ++ dq ++ ">" ++ nl) in
            let buf := strapp buf "<pane " in
            let buf :=
              match freeze_type fz with
              | libo_xl_freeze_type_none => buf
              | libo_xl_freeze_type_top => strapp buf "ySplit"
              | libo_xl_freeze_type_left => buf
              end in
            let buf := strapp buf ("=" ++ dq ++ "1" ++ dq ++ " topLeftCell=" ++ dq) in
            let buf :=
              match freeze_type fz with
              | libo_xl_freeze_type_none => buf
              | libo_xl_freeze_type_top =>
                  strapp (strapp buf "A") (sprintf_d (sint32 (freeze_n fz + 1)))
              | libo_xl_freeze_type_left => buf
              end in
            let buf := strapp buf (dq ++ " activePane=" ++ dq) in
            let buf :=
              match freeze_type fz with
              | libo_xl_freeze_type_none => buf
              | libo_xl_freeze_type_top => strapp buf "bottomLeft"
              | libo_xl_freeze_type_left => buf
              end in
            let buf := strapp buf (dq ++ " state=" ++ dq ++ "frozen" ++ dq ++ "/>") in
            let buf := strapp buf ("<selection pane=" ++ dq) in
            let buf :=
              match freeze_type fz with
              | libo_xl_freeze_type_none => buf
              | libo_xl_freeze_type_top => strapp buf "bottomLeft"
              | libo_xl_freeze_type_left => buf
              end in
            let buf := strapp buf (dq ++ "/>") in
            let buf := strapp buf ("</sheetView>" ++ nl) in
            let buf := strapp buf ("</sheetViews>" ++ nl) in
            Some buf
      else Some buf
  end.

End Writer.

(** ** Growing a sheet, and its column count *)

Module Grid.
Import Int Heap Model Copy.

Definition with_n_cols (s : libo_xl_sheet) (n : Z) : libo_xl_sheet :=
  mkSheet n (sheet_name s) (ID s) (rID s) (default_row_height s)
          (sheet_freeze s) (sheet_row s) (sheet_column s) (sheet_filter s).

(** The loop of [libo_xl_sheet_count_columns] over the elements of
    [xls->row]; [n_cols] is the field as the rows before have left it. The
    loop reads [row->n_cells] without a test of [row]: [None] is the
    dereference of a null element. *)
Fixpoint count_loop (rows : list (option libo_xl_row)) (n_cols : Z) : option Z :=
  match rows with
  | [] => Some n_cols
  | None :: _ => None
  | Some row :: rest =>
      count_loop rest (if n_cells row >? n_cols then n_cells row else n_cols)
  end.

(** [libo_xl_sheet_count_columns (xls)]: the sheet after the call. *)
Definition libo_xl_sheet_count_columns (xls : libo_xl_sheet)
  : option libo_xl_sheet :=
  n ← count_loop (pointers (sheet_row xls)) 0;
  Some (with_n_cols xls n).

(** [libo_xl_row_fill (sheet, max_row)], for [0 <= max_row], the only
    values it is called with: the array is resized to [max_row] entries,
    new rows are stored from [n_rows] on, and [n_rows] becomes [max_row]. *)
Definition libo_xl_row_fill (sheet : libo_xl_sheet) (max_row : Z) : libo_xl_sheet :=
  with_rows sheet
    (take (Z.to_nat max_row) (sheet_row sheet)
     ++ replicate (Z.to_nat (max_row - n_rows sheet)) libo_xl_row_new).

(** [libo_xl_col_fill (sheet, row, max_col)], for [0 <= row] and
    [0 <= max_col]; [None] is the access [sheet->row[row]] past the end of
    the array. *)
Definition libo_xl_col_fill (sheet : libo_xl_sheet) (row max_col : Z)
  : option libo_xl_sheet :=
  let sheet :=
    if row >=? n_rows sheet then libo_xl_row_fill sheet row else sheet in
  r ← sheet_row sheet !! Z.to_nat row;
  let cells :=
    take (Z.to_nat max_col) (row_cell r)
    ++ replicate (Z.to_nat (max_col - n_cells r)) libo_xl_cell_new in
  Some (with_rows sheet (<[Z.to_nat row := mkRow cells]> (sheet_row sheet))).

(** [libo_xl_cell_create (sheet, row, col)] on a non-null sheet: the
    pointer returned, [None] for [NULL], and the sheet after the call. *)
Definition libo_xl_cell_create (sheet : libo_xl_sheet) (row col : Z)
  : option (option libo_xl_cell * libo_xl_sheet) :=
  if row <? 0 then Some (None, sheet)
  else if col <? 0 then Some (None, sheet)
  else
    let present :=
      if row <? n_rows sheet then
        r ← sheet_row sheet !! Z.to_nat row;
        if col <? n_cells r then row_cell r !! Z.to_nat col else None
      else None in
    match present with
    | Some cell => Some (Some cell, sheet)
    | None =>
        s ← libo_xl_col_fill sheet row col;
        Some (None, s)
    end.

End Grid.

(** ** The value of a cell as a string *)

Module Value.
Import Int Libc Heap Model Strings Text.

Section Format.

(** [sprintf (buf, "%g", x)], from the bits of a [double] to its text. *)
Variable sprintf_g : double -> string.

(** [libo_xl_cell_get_string_value (xl, xlc)]; [xl] is the table
    [xl->strings], [None] for a null [xl]. The result is a buffer of the
    caller's. [strdup] is applied to the formula whether or not it is
    null. *)
Definition libo_xl_cell_get_string_value
    (xl : option strings) (xlc : option libo_xl_cell) : M ptr :=
  match xlc with
  | None => ret NULL
  | Some c =>
      match cell_type c with
      | libo_xl_cell_type_none => ret NULL
      | libo_xl_cell_type_reference =>
          match xl with
          | None => ret NULL
          | Some strs =>
              match libo_xl_cell_get_text strs (Some c) with
              | Some t => alloc t
              | None => ret NULL
              end
          end
      | libo_xl_cell_type_expression =>
          v <- strdup (formula (expression c)) ;;
          v <- (if v =? NULL then strdup (value (expression c)) else ret v) ;;
          if v =? NULL then alloc EmptyString else ret v
      | libo_xl_cell_type_number => alloc (sprintf_g (number c))
      end
  end.

End Format.

End Value.

(** ** The worksheet writer: dimension and sheet data *)

Module Emit.
Import Int Libc Codec Heap Model Renumber Writer.
Local Open Scope string_scope.

(** [libo_xl_sheet_dimension_add (l, sheet, buf)]; the outer [None] is a
    null or out-of-bounds dereference, or an overrun of the buffer of
    [column_number_to_reference]. *)
Definition libo_xl_sheet_dimension_add
    (l : option libo) (sheet : Z) (buf : option string)
  : option (option string) :=
  match l with
  | None => Some buf
  | Some d =>
      if decide (type d = libo_type_xl) then
        x ← xl d;
        b ← book x;
        if (sheet >=? n_sheets b)%Z then Some buf
        else if (sheet <? 0)%Z then None
        else
          sht ← book_sheet b !! Z.to_nat sheet;
          let buf := strapp buf ("<dimension ref=" ++ dq ++ "A1:") in
          buf ← (if (n_cols sht =? 0)%Z then Some (strapp buf "A")
                 else
                   ref ← column_number_to_reference (sint32 (n_cols sht - 1));
                   Some (strapp buf ref));
          let buf := strapp buf (sprintf_d (n_rows sht)) in
          Some (strapp buf (dq ++ "/>" ++ nl))
      else Some buf
  end.

Section Format.

Variable sprintf_g : double -> string.

(** [libo_xl_sheet_sheetdata_row_col_add (l, sheet, row, col, buf)]. *)
Definition libo_xl_sheet_sheetdata_row_col_add
    (l : option libo) (sheet row col : Z) (buf : option string)
  : option (option string) :=
  match l with
  | None => Some buf
  | Some d =>
      if decide (type d = libo_type_xl) then
        x ← xl d;
        match book x with
        | None => Some buf
        | Some b =>
            if (sheet >=? n_sheets b)%Z then Some buf
            else if (sheet <? 0)%Z then None
            else
              sht ← book_sheet b !! Z.to_nat sheet;
              if (row >=? n_rows sht)%Z then Some buf
              else if (col >=? n_cols sht)%Z then Some buf
              else if (row <? 0)%Z then None
              else if (col <? 0)%Z then None
              else
                r ← sheet_row sht !! Z.to_nat row;
                cell ← row_cell r !! Z.to_nat col;
                let buf := strapp buf ("<c r=" ++ dq) in
                ref ← column_number_to_reference col;
                let buf := strapp buf ref in
                let buf := strapp buf (sprintf_d (sint32 (row + 1))) in
                let buf :=
                  match cell_type cell with
                  | libo_xl_cell_type_none => buf
                  | libo_xl_cell_type_reference =>
                      strapp buf (dq ++ " s=" ++ dq ++ "1" ++ dq
                                  ++ " t=" ++ dq ++ "s" ++ dq ++ ">" ++ nl)
                  | libo_xl_cell_type_expression => strapp buf (">" ++ nl)
                  | libo_xl_cell_type_number =>
                      strapp buf (dq ++ " s=" ++ dq ++ "2" ++ dq ++ ">" ++ nl)
                  end in
                let buf := strapp buf "<v>" in
                let buf :=
                  match cell_type cell with
                  | libo_xl_cell_type_none => buf
                  | libo_xl_cell_type_reference =>
                      strapp buf (sprintf_d (reference cell))
                  | libo_xl_cell_type_expression => buf
                  | libo_xl_cell_type_number =>
                      strapp buf (sprintf_g (number cell))
                  end in
                let buf := strapp buf ("</v>" ++ nl) in
                Some (strapp buf ("</c>" ++ nl))
        end
      else Some buf
  end.

(** The loop [for (i = 0; i < n_cells; i++)] of
    [libo_xl_sheet_sheetdata_row_add], from the column [i] on. *)
Fixpoint data_cols_loop (l : option libo) (sheet row : Z) (count : nat) (i : Z)
    (buf : option string) : option (option string) :=
  match count with
  | O => Some buf
  | S k =>
      buf ← libo_xl_sheet_sheetdata_row_col_add l sheet row i buf;
      data_cols_loop l sheet row k (i + 1)%Z buf
  end.

(** [libo_xl_sheet_sheetdata_row_add (l, sheet, row, buf)]. *)
Definition libo_xl_sheet_sheetdata_row_add
    (l : option libo) (sheet row : Z) (buf : option string)
  : option (option string) :=
  match l with
  | None => Some buf
  | Some d =>
      if decide (type d = libo_type_xl) then
        x ← xl d;
        match book x with
        | None => Some buf
        | Some b =>
            if (sheet >=? n_sheets b)%Z then Some buf
            else if (sheet <? 0)%Z then None
            else
              sht ← book_sheet b !! Z.to_nat sheet;
              let buf := strapp buf ("<row r=" ++ dq) in
              let buf := strapp buf (sprintf_d (sint32 (row + 1))) in
              let buf := strapp buf (dq ++ " spans=" ++ dq ++ "1:") in
              let buf := strapp buf (sprintf_d (n_cols sht)) in
              let buf :=
                strapp buf (dq ++ " customFormat=" ++ dq ++ "1" ++ dq
                            ++ " ht=" ++ dq) in
              let buf := strapp buf (sprintf_g (default_row_height sht)) in
              let buf :=
                strapp buf (dq ++ " customHeight=" ++ dq ++ "1" ++ dq
                            ++ " x14ac:dyDescent=" ++ dq ++ "0.3" ++ dq
                            ++ ">" ++ nl) in
              if (row <? 0)%Z then None
              else
                r ← sheet_row sht !! Z.to_nat row;
                buf ← data_cols_loop l sheet row (Z.to_nat (n_cells r)) 0 buf;
                Some (strapp buf ("</row>" ++ nl))
        end
      else Some buf
  end.

(** The loop [for (i = 0; i < n_rows; i++)] of
    [libo_xl_sheet_sheetdata_add], from the row [i] on. *)
Fixpoint data_rows_loop (l : option libo) (sheet : Z) (count : nat) (i : Z)
    (buf : option string) : option (option string) :=
  match count with
  | O => Some buf
  | S k =>
      buf ← libo_xl_sheet_sheetdata_row_add l sheet i buf;
      data_rows_loop l sheet k (i + 1)%Z buf
  end.

(** [libo_xl_sheet_sheetdata_add (l, sheet, buf)]. *)
Definition libo_xl_sheet_sheetdata_add
    (l : option libo) (sheet : Z) (buf : option string)
  : option (option string) :=
  match l with
  | None => Some buf
  | Some d =>
      if decide (type d = libo_type_xl) then
        x ← xl d;
        b ← book x;
        if (sheet >=? n_sheets b)%Z then Some buf
        else if (sheet <? 0)%Z then None
        else
          sht ← book_sheet b !! Z.to_nat sheet;
          let buf := strapp buf ("<sheetData>" ++ nl) in
          buf ← data_rows_loop l sheet (Z.to_nat (n_rows sht)) 0 buf;
          Some (strapp buf ("</sheetData>" ++ nl))
      else Some buf
  end.

End Format.

End Emit.

(** ** Notions used to state the properties *)

Module Spec.
Import Int Libc Codec Heap Model Strings Renumber Reader.

(** The number a run of letters stands for, least significant letter
    first: each letter counts from 1 to 26. *)
Fixpoint letters_value (ls : list ascii) : Z :=
  match ls with
  | [] => 0
  | ch :: rest => (code ch - 65 + 1) + 26 * letters_value rest
  end.

Definition is_upper (ch : ascii) : bool := between 65 90 (code ch).

(** Two integers an [int] or [unsigned int] cannot tell apart. *)
Definition cong (a b : Z) : Prop := a mod two32 = b mod two32.

(** A well-formed cell reference: a non-empty alphabetic run, then a
    non-empty run of digits, and nothing else. *)
Fixpoint all_digits (s : string) : bool :=
  match s with
  | EmptyString => true
  | String ch rest => isdigit ch && all_digits rest
  end.

Definition is_empty_string (s : string) : bool :=
  match s with
  | EmptyString => true
  | String _ _ => false
  end.

Definition well_formed_ref (s : string) : bool :=
  let '(run, tl) := alpha_run s in
  match run with
  | [] => false
  | _ :: _ => negb (is_empty_string tl) && all_digits tl
  end.

(** Whether a text starts with a digit. *)
Definition starts_with_digit (s : string) : bool :=
  match s with
  | EmptyString => false
  | String ch _ => isdigit ch
  end.

(** The text [atoi] reads no number from: once the leading white space and
    one sign, if there is one, are passed, no digit follows. *)
Definition no_number (s : string) : bool :=
  match skip_space s with
  | String "-"%char rest => negb (starts_with_digit rest)
  | String "+"%char rest => negb (starts_with_digit rest)
  | t => negb (starts_with_digit t)
  end.

(** The strings a cell owns: the non-null [formula] and [value] of an
    Expression cell. *)
Definition cell_ptrs (c : libo_xl_cell) : list ptr :=
  if decide (cell_type c = libo_xl_cell_type_expression) then
    (if formula (expression c) =? NULL then [] else [formula (expression c)])
    ++ (if value (expression c) =? NULL then [] else [value (expression c)])
  else [].

Definition live (h : heap) (p : ptr) : Prop := is_Some (blocks h !! p).

(** The pointers [ps] are distinct live buffers of [h]. *)
Definition owns (h : heap) (ps : list ptr) : Prop :=
  NoDup ps /\ Forall (live h) ps.

(** The heap once the buffers [ps] are freed. *)
Definition release (ps : list ptr) (h : heap) : heap :=
  mkHeap (foldr delete (blocks h) ps) (next h).

(** The text a buffer holds; a null buffer holds none. *)
Definition contents (buf : option string) : string :=
  match buf with
  | Some s => s
  | None => EmptyString
  end.

(** The frozen-pane declaration of a top freeze of one row, and the block
    it is written in. *)
Definition top_freeze_pane : string :=
  ("<pane ySplit=" ++ Writer.dq ++ "1" ++ Writer.dq
   ++ " topLeftCell=" ++ Writer.dq ++ "A2" ++ Writer.dq
   ++ " activePane=" ++ Writer.dq ++ "bottomLeft" ++ Writer.dq
   ++ " state=" ++ Writer.dq ++ "frozen" ++ Writer.dq ++ "/>")%string.

Definition top_freeze_views : string :=
  ("<sheetViews>" ++ Writer.nl
   ++ "<sheetView tabSelected=" ++ Writer.dq ++ "1" ++ Writer.dq
   ++ " topLeftCell=" ++ Writer.dq ++ "A1" ++ Writer.dq
   ++ " workbookViewId=" ++ Writer.dq ++ "0" ++ Writer.dq ++ ">" ++ Writer.nl
   ++ top_freeze_pane
   ++ "<selection pane=" ++ Writer.dq ++ "bottomLeft" ++ Writer.dq ++ "/>"
   ++ "</sheetView>" ++ Writer.nl
   ++ "</sheetViews>" ++ Writer.nl)%string.

(** The allocator's invariant: every live buffer lies below [next], and
    [NULL] is never handed out. *)
Definition heap_wf (h : heap) : Prop :=
  0 < next h /\ forall p, live h p -> 0 < p < next h.

(** From [h] to [h'], the buffers of [h] other than [ps] are untouched. *)
Definition preserves (ps : list ptr) (h h' : heap) : Prop :=
  forall p, p ∉ ps -> live h p -> blocks h' !! p = blocks h !! p.

(** What one step of [libo_xl_cell_dup] does to the heap: a fresh buffer at
    [next h], and the buffer [p] gone. *)
Definition refreshed (h : heap) (p : ptr) (h' : heap) : Prop :=
  heap_wf h' /\ preserves [p] h h' /\ next h' = next h + 1 /\
  blocks h' !! p = None /\
  (forall p', p' <> next h -> blocks h !! p' = None -> blocks h' !! p' = None).

(** The strings owned by the cells of a row, and by the rows of a sheet. *)
Definition cells_ptrs (cells : list libo_xl_cell) : list ptr :=
  flat_map cell_ptrs cells.

Definition rows_ptrs (rows : list libo_xl_row) : list ptr :=
  flat_map (fun r => cells_ptrs (row_cell r)) rows.

Definition sheet_ptrs (s : libo_xl_sheet) : list ptr := rows_ptrs (sheet_row s).

(** An Expression cell that owns the formula "=A1+1" and the value "7", and
    the heap that holds the two strings. *)
Definition shared_heap : heap :=
  mkHeap (<[2 := "7"%string]> (<[1 := "=A1+1"%string]> ∅)) 3.

Definition shared_cell : libo_xl_cell :=
  mkCell libo_xl_cell_type_expression 1 2.

(** A sheet for the examples: one row holding [shared_cell] and a Number
    cell, a caller-chosen id and relationship id, a freeze and a filter. *)
Definition sample_sheet : libo_xl_sheet :=
  mkSheet 2 (Some "Data"%string) 77 (Some "rId99"%string) double_14_4
          (mkFreeze libo_xl_freeze_type_top 1)
          [mkRow [shared_cell;
                  mkCell libo_xl_cell_type_number 4631107791820423168 0]]
          (Some [mkColumn 0 1; mkColumn 0 1]) (Some (mkFilter 0 1)).

(** The cells of a workbook in document order: sheet by sheet, row by row,
    cell by cell. *)
Definition doc_cells (sheets : list libo_xl_sheet) : list libo_xl_cell :=
  flat_map (fun s => flat_map row_cell (sheet_row s)) sheets.

(** A cell whose id, if it is a Reference, is the id of an entry of
    [strs]. *)
Definition resolves (strs : strings) (c : libo_xl_cell) : Prop :=
  cell_type c = libo_xl_cell_type_reference ->
  is_Some (strings_find_by_id strs (reference c)).

(** The texts met when walking cells: that of each Reference cell whose id
    resolves in [old]. *)
Definition encounter_text (old : strings) (c : libo_xl_cell) : list string :=
  match Text.libo_xl_cell_get_text old (Some c) with
  | Some t => [t]
  | None => []
  end.

Definition encounter_texts (old : strings) (cells : list libo_xl_cell)
  : list string :=
  flat_map (encounter_text old) cells.

(** The texts in the order in which each is met first. *)
Definition intern (acc : list string) (t : string) : list string :=
  if existsb (String.eqb t) acc then acc else acc ++ [t].

Definition first_seen (ts : list string) : list string := fold_left intern ts [].

(** The invariant of a table: the entry inserted [i]-th has the id [i], the
    next id is the number of entries, and no text occurs twice. *)
Definition table_ok (T : strings) : Prop :=
  last_id T = Z.of_nat (length (entries T)) /\
  (forall (i : nat) (e : string_entry), entries T !! i = Some e -> id e = Z.of_nat i) /\
  NoDup (map text (entries T)).

(** What the pass does to one cell: the kind stays, a cell that is no
    Reference is untouched, and the text read through the table is the
    same after the pass in [T] as it was before in [old]. *)
Definition renumbered (old T : strings) (c c' : libo_xl_cell) : Prop :=
  cell_type c' = cell_type c /\
  (cell_type c <> libo_xl_cell_type_reference -> c' = c) /\
  Text.libo_xl_cell_get_text T (Some c') = Text.libo_xl_cell_get_text old (Some c).

(** A sheet, and a workbook, of one row. *)
Definition sheet_of_cells (cells : list libo_xl_cell) : libo_xl_sheet :=
  Copy.with_rows libo_xl_sheet_new [mkRow cells].

Definition one_sheet (cells : list libo_xl_cell) : libo_xl_book :=
  mkBook [sheet_of_cells cells].

(** A document whose only cell is a Reference to the id 5 of an empty
    table, and one whose first cell has such a dangling id and whose second
    cell refers to the text "a". *)
Definition dangling_doc : libo :=
  mkLibo None libo_type_xl
    (Some (mkXl (Some (one_sheet [mkCell libo_xl_cell_type_reference 5 0]))
                (Some strings_new))).

Definition dangling_then_text_doc : libo :=
  mkLibo None libo_type_xl
    (Some (mkXl (Some (one_sheet [mkCell libo_xl_cell_type_reference 7 0;
                                  mkCell libo_xl_cell_type_reference 0 0]))
                (Some (mkStrings 1 [mkString "a" 0])))).

(** Two sheets that share the text "b"; the table lists "a" first. *)
Definition two_sheet_doc : libo :=
  mkLibo None libo_type_xl
    (Some (mkXl
       (Some (mkBook
          [Copy.with_rows libo_xl_sheet_new
             [mkRow [mkCell libo_xl_cell_type_reference 1 0;
                     mkCell libo_xl_cell_type_number 4631107791820423168 0]];
           Copy.with_rows libo_xl_sheet_new
             [mkRow [mkCell libo_xl_cell_type_reference 0 0];
              mkRow [mkCell libo_xl_cell_type_reference 1 0]]]))
       (Some (mkStrings 2 [mkString "a" 0; mkString "b" 1])))).

(** What the reader leaves at a position no declared cell covers: an
    Expression cell with no formula whose value is the empty string. *)
Definition is_gap (h : heap) (c : libo_xl_cell) : Prop :=
  cell_type c = libo_xl_cell_type_expression /\
  formula (expression c) = NULL /\
  blocks h !! value (expression c) = Some EmptyString.

(** The kind and the 0-based column a [c] element declares. *)
Definition declared_type (n : xml_cell) : libo_xl_cell_type :=
  match attr_t n with
  | Some t => string_to_libo_xl_cell_type (Some t)
  | None => libo_xl_cell_type_number
  end.

Definition col_of (n : xml_cell) : Z := snd (cell_ref_to_row_col (attr_r n)).

(** Columns that go strictly up, from [lo] on and below [hi]. *)
Fixpoint ascending (lo : Z) (cols : list Z) (hi : Z) : Prop :=
  match cols with
  | [] => True
  | c :: rest => lo <= c < hi /\ ascending (c + 1) rest hi
  end.

(** A sparse row: its children are [c] elements whose addresses go
    strictly up within the [n_cols] columns of the sheet. *)
Definition sparse_row (n_cols : Z) (node : xml_row) : Prop :=
  Forall (fun n => node_name n = "c"%string) (row_children node) /\
  ascending 0 (map col_of (row_children node)) n_cols.

(** A jagged worksheet: three cells in row 1, one in row 2. *)
Definition number_cell (r v : string) : xml_cell :=
  mkXmlCell "c" (Some r) None [mkChild true "v" v].

Definition jagged : worksheet :=
  Some [mkXmlRow "row" (Some "1:3"%string)
          [number_cell "A1" "1"; number_cell "B1" "2"; number_cell "C1" "3"];
        mkXmlRow "row" (Some "1:3"%string) [number_cell "A2" "4"]].

(** A row as the reader materialises it from the [row] element [node] on a
    sheet of [n] columns: [n] cells; a gap cell at every position no
    declared cell covers, before, between and after the declared ones; and
    at the column of each declared cell a cell of the declared kind. *)
Definition materialised (n : nat) (h : heap) (node : xml_row) (r : libo_xl_row)
  : Prop :=
  n_cells r = Z.of_nat n /\
  (forall p : nat,
      (p < n)%nat -> Z.of_nat p ∉ map col_of (row_children node) ->
      exists c, row_cell r !! p = Some c /\ is_gap h c) /\
  (forall nd : xml_cell,
      nd ∈ row_children node ->
      exists c, row_cell r !! Z.to_nat (col_of nd) = Some c /\
                cell_type c = declared_type nd).

(** A stand-in for [atof] in the examples; the kinds of the cells do not
    depend on it. *)
Definition atof_zero (s : string) : double := double_zero.


(** The strings an expression struct points to. *)
Definition expression_ptrs (e : libo_xl_cell_expression) : list ptr :=
  (if formula e =? NULL then [] else [formula e])
  ++ (if value e =? NULL then [] else [value e]).

(** [q] is a duplicate, made between [h] and [h'], of the string at [p]: a
    buffer that [h] did not have and that holds what [p] holds; or null
    when [p] is null. *)
Definition duplicate_of (h h' : heap) (p q : ptr) : Prop :=
  if p =? NULL then q = NULL
  else q <> NULL /\ blocks h !! q = None /\ is_Some (blocks h !! p) /\
       blocks h' !! q = blocks h !! p.

(** A heap computation that never hands out an address again: the
    allocator only moves forward, and an address below it that holds no
    buffer before the computation holds none after it. *)
Definition monotone {A : Type} (m : M A) : Prop :=
  forall (h : heap) (a : A) (h' : heap),
    m h = Some (a, h') ->
    next h <= next h' /\
    (forall p, p < next h -> blocks h !! p = None -> blocks h' !! p = None).

(** A stand-in for the conversion [%g] in the examples. *)
Definition sprintf_g_zero (x : double) : string := "0"%string.

(** A document for the examples of the writer: one sheet of two columns
    whose only row holds a Reference cell and an Expression cell. *)
Definition written_sheet : libo_xl_sheet :=
  mkSheet 2 (Some "Data"%string) 1 (Some "rId4"%string) double_14_4
          (mkFreeze libo_xl_freeze_type_none 0)
          [mkRow [mkCell libo_xl_cell_type_reference 0 0;
                  mkCell libo_xl_cell_type_expression 0 0]]
          None None.

Definition written_xl : libo_xl :=
  mkXl (Some (mkBook [written_sheet])) (Some (mkStrings 1 [mkString "a" 0])).

Definition written_doc : libo := mkLibo None libo_type_xl (Some written_xl).

(** The block [libo_xl_sheet_sheetviews_add] writes, with the name of the
    split attribute, the anchor cell and the name of the active pane left
    open. *)
Definition freeze_views (split anchor pane : string) : string :=
  ("<sheetViews>" ++ Writer.nl
   ++ "<sheetView tabSelected=" ++ Writer.dq ++ "1" ++ Writer.dq
   ++ " topLeftCell=" ++ Writer.dq ++ "A1" ++ Writer.dq
   ++ " workbookViewId=" ++ Writer.dq ++ "0" ++ Writer.dq ++ ">" ++ Writer.nl
   ++ "<pane " ++ split ++ "=" ++ Writer.dq ++ "1" ++ Writer.dq
   ++ " topLeftCell=" ++ Writer.dq ++ anchor ++ Writer.dq
   ++ " activePane=" ++ Writer.dq ++ pane ++ Writer.dq
   ++ " state=" ++ Writer.dq ++ "frozen" ++ Writer.dq ++ "/>"
   ++ "<selection pane=" ++ Writer.dq ++ pane ++ Writer.dq ++ "/>"
   ++ "</sheetView>" ++ Writer.nl
   ++ "</sheetViews>" ++ Writer.nl)%string.

(** Arrays without a null pointer: a row array none of whose elements is
    null, and a sheet array none of whose elements is null and all of whose
    row arrays are such. *)
Definition no_null_row (rows : row_array) : bool :=
  forallb (fun p => match p with Some _ => true | None => false end) rows.

Definition no_null (sheets : sheet_array) : bool :=
  forallb (fun p => match p with
                    | Some rows => no_null_row rows
                    | None => false
                    end) sheets.

(** A workbook in memory whose second sheet has a null pointer for its
    second row; the cells around it read "b", the id 1 of [table_ab]. *)
Definition table_ab : strings := mkStrings 2 [mkString "a" 0; mkString "b" 1].

Definition null_row_arrays : sheet_array :=
  [Some [Some (mkRow [mkCell libo_xl_cell_type_reference 1 0])];
   Some [Some (mkRow [mkCell libo_xl_cell_type_reference 0 0]);
         None;
         Some (mkRow [mkCell libo_xl_cell_type_reference 1 0])];
   Some [Some (mkRow [mkCell libo_xl_cell_type_reference 1 0])]].

(** What the renumbering pass may do to a cell: nothing, or store another
    id in a Reference cell. *)
Definition id_changed (c c' : libo_xl_cell) : Prop :=
  c' = c \/
  (cell_type c = libo_xl_cell_type_reference /\ exists v, c' = with_reference c v).

(** Two sheets that differ at most in the ids of their Reference cells. *)
Definition same_but_ids (s s' : libo_xl_sheet) : Prop :=
  s' = Copy.with_rows s (sheet_row s') /\
  Forall2 (fun r r' => Forall2 id_changed (row_cell r) (row_cell r'))
          (sheet_row s) (sheet_row s').

(** A row none of whose [c] elements carries an address ahead of its
    position among the child nodes of the row: if the [i]-th child node is a
    [c] element, its address, if it has one, names a column at or before
    [i]. A [c] element without the attribute [r] is such a child, its column
    being read as 0. The child nodes that are no [c] elements, the text
    between the elements of an indented file for one, count as positions. *)
Definition in_order_row (node : xml_row) : Prop :=
  forall (i : nat) (nd : xml_cell),
    row_children node !! i = Some nd -> node_name nd = "c"%string ->
    col_of nd <= Z.of_nat i.

(** What the reader leaves at the position of a child node: for a [c]
    element a cell of the declared kind, for any other node the new cell
    that was there. *)
Definition left_by (nd : xml_cell) (c : libo_xl_cell) : Prop :=
  if String.eqb (node_name nd) "c"
  then cell_type c = declared_type nd
  else c = libo_xl_cell_new.

(** The row the reader makes of such a row on a sheet of [n] columns: the
    [i]-th child node decides the column [i], as long as there is one, and
    the columns after the last child node hold gap cells. *)
Definition placed_in_order (n : nat) (h : heap) (node : xml_row)
    (r : libo_xl_row) : Prop :=
  n_cells r = Z.of_nat n /\
  (forall (i : nat) (nd : xml_cell),
      row_children node !! i = Some nd -> (i < n)%nat ->
      exists c, row_cell r !! i = Some c /\ left_by nd c) /\
  (forall p : nat,
      (length (row_children node) <= p < n)%nat ->
      exists c, row_cell r !! p = Some c /\ is_gap h c).

(** A table that holds the text "a", and a Reference cell that reads it. *)
Definition table_a : strings := mkStrings 1 [mkString "a" 0].

Definition cell_a : libo_xl_cell := mkCell libo_xl_cell_type_reference 0 0.

(** A document whose only sheet is frozen on the left. *)
Definition left_frozen_sheet : libo_xl_sheet :=
  libo_xl_sheet_set_freeze libo_xl_sheet_new libo_xl_freeze_type_left 2.

Definition left_frozen_xl : libo_xl :=
  mkXl (Some (mkBook [left_frozen_sheet])) None.

Definition left_frozen_doc : libo :=
  mkLibo None libo_type_xl (Some left_frozen_xl).

(** And one whose only sheet is frozen below the third row. *)
Definition top_frozen_sheet : libo_xl_sheet :=
  libo_xl_sheet_set_freeze libo_xl_sheet_new libo_xl_freeze_type_top 3.

Definition top_frozen_xl : libo_xl :=
  mkXl (Some (mkBook [top_frozen_sheet])) None.

Definition top_frozen_doc : libo :=
  mkLibo None libo_type_xl (Some top_frozen_xl).

(** A worksheet with an element that is no row, and one whose second row
    is wider than the span of the first. *)
Definition foreign_rows : list xml_row :=
  [mkXmlRow "row" (Some "1:2"%string) [number_cell "A1" "1"];
   mkXmlRow "extLst" None []].

Definition widening_rows : list xml_row :=
  [mkXmlRow "row" (Some "1:2"%string) [number_cell "A1" "1"];
   mkXmlRow "row" (Some "1:3"%string) [number_cell "C2" "3"]].

(** A node of text, as the parser gives it for the white space between
    two elements. *)
Definition text_node : xml_cell := mkXmlCell "text" None None [].

(** A row as an indented file has it: text before, between and after its
    two cells. *)
Definition indented_row : xml_row :=
  mkXmlRow "row" (Some "1:3"%string)
    [text_node; number_cell "A2" "1"; text_node; number_cell "B2" "2";
     text_node].

(** A row of two cells that carry no address, and the indented row. *)
Definition unaddressed_rows : list xml_row :=
  [mkXmlRow "row" (Some "1:3"%string)
     [mkXmlCell "c" None (Some "s"%string) [mkChild true "v" "0"];
      mkXmlCell "c" None None [mkChild true "v" "7"]];
   indented_row].

(** The members of an expression struct while the reader fills it: each is
    null or a live buffer allocated at or after [n0], and the two are
    apart. *)
Definition members_fresh (h : heap) (n0 : Z) (e : libo_xl_cell_expression)
  : Prop :=
  (formula e = NULL \/ (live h (formula e) /\ n0 <= formula e)) /\
  (value e = NULL \/ (live h (value e) /\ n0 <= value e)) /\
  (formula e <> NULL -> formula e <> value e).

(** Cells that own their strings, all of them allocated at or after
    [n0]. *)
Definition cells_fresh (h : heap) (n0 : Z) (cells : list libo_xl_cell) : Prop :=
  owns h (cells_ptrs cells) /\ Forall (fun p => n0 <= p) (cells_ptrs cells).
End Spec.

(** * Properties *)

Import Int Libc Codec Heap Model Copy Strings Renumber Reader Writer Spec.

(** ** Machine arithmetic *)

Section MachineArithmetic.

Lemma cong_refl (a : Z) : cong a a.
Proof. reflexivity. Qed.

Lemma cong_trans (a b c : Z) : cong a b -> cong b c -> cong a c.
Proof. unfold cong. congruence. Qed.

Lemma cong_add (a a' b b' : Z) : cong a a' -> cong b b' -> cong (a + b) (a' + b').
Proof.
  unfold cong. intros Ha Hb.
  rewrite (Z.add_mod a b), (Z.add_mod a' b'), Ha, Hb by discriminate.
  reflexivity.
Qed.

Lemma cong_mul (a a' b b' : Z) : cong a a' -> cong b b' -> cong (a * b) (a' * b').
Proof.
  unfold cong. intros Ha Hb.
  rewrite (Z.mul_mod a b), (Z.mul_mod a' b'), Ha, Hb by discriminate.
  reflexivity.
Qed.

Lemma cong_sint32 (x : Z) : cong (sint32 x) x.
Proof.
  unfold cong, sint32.
  rewrite Zminus_mod_idemp_l. f_equal. lia.
Qed.

Lemma sint32_congr (a b : Z) : cong a b -> sint32 a = sint32 b.
Proof.
  intros E. unfold sint32.
  assert (H : cong (a + two31) (b + two31)) by (apply cong_add; [exact E | apply cong_refl]).
  unfold cong in H. rewrite H. reflexivity.
Qed.

Lemma sint32_id (x : Z) : in_int x -> sint32 x = x.
Proof.
  unfold in_int, sint32, two31, two32. intros H.
  rewrite Z.mod_small; lia.
Qed.

Lemma uint32_id (x : Z) : 0 <= x < two32 -> uint32 x = x.
Proof. intros H. unfold uint32. apply Z.mod_small. exact H. Qed.

Lemma pow26_cong (mag : nat) : cong (pow26 mag) (26 ^ Z.of_nat mag).
Proof.
  induction mag as [|m IH].
  - apply cong_refl.
  - cbn [pow26]. eapply cong_trans; [apply cong_sint32|].
    rewrite Nat2Z.inj_succ, Z.pow_succ_r, Z.mul_comm by lia.
    apply cong_mul; [apply cong_refl | exact IH].
Qed.

End MachineArithmetic.

Lemma col_loop_cong (ls : list ascii) (mag : nat) (col : Z) :
  cong (col_loop ls mag col) (col + 26 ^ Z.of_nat mag * letters_value ls).
Proof.
  revert mag col. induction ls as [|ch rest IH]; intros mag col.
  - cbn. rewrite Z.mul_0_r, Z.add_0_r. apply cong_refl.
  - cbn [col_loop letters_value].
    eapply cong_trans; [apply IH|].
    rewrite Nat2Z.inj_succ, Z.pow_succ_r by lia.
    replace (col + 26 ^ Z.of_nat mag * (code ch - 65 + 1 + 26 * letters_value rest))
      with (col + (code ch - 65 + 1) * 26 ^ Z.of_nat mag
            + 26 * 26 ^ Z.of_nat mag * letters_value rest) by ring.
    apply cong_add; [|apply cong_refl].
    eapply cong_trans; [apply cong_sint32|].
    apply cong_add; [apply cong_refl|].
    eapply cong_trans; [apply cong_sint32|].
    apply cong_mul; [apply cong_refl | apply pow26_cong].
Qed.

Lemma code_ascii_of (r : Z) :
  0 <= r < 26 -> code (ascii_of_N (Z.to_N (65 + r))) = 65 + r.
Proof.
  intros H. unfold code.
  assert (H1 : 0 <= 65 + r) by lia.
  assert (H2 : (Z.to_N (65 + r) < 256)%N) by lia.
  rewrite N_ascii_embedding by exact H2.
  apply Z2N.id. exact H1.
Qed.

Lemma letters_loop_spec (fuel : nat) (m : Z) :
  1 <= m < 26 ^ Z.of_nat fuel -> m <= two32 ->
  exists ls, letters_loop fuel m = Some ls /\
             letters_value ls = m /\ forallb is_upper ls = true.
Proof.
  revert m. induction fuel as [|f IH]; intros m Hm H32.
  - cbn in Hm. lia.
  - rewrite Nat2Z.inj_succ, Z.pow_succ_r in Hm by lia.
    cbn [letters_loop].
    rewrite (uint32_id (m - 1)) by (unfold two32 in *; lia).
    pose proof (Z.div_mod (m - 1) 26 ltac:(lia)) as Hdm.
    pose proof (Z.mod_pos_bound (m - 1) 26 ltac:(lia)) as Hr.
    set (r := (m - 1) mod 26) in *. set (q := (m - 1) / 26) in *.
    assert (Hup : is_upper (ascii_of_N (Z.to_N (65 + r))) = true).
    { unfold is_upper, between. rewrite code_ascii_of by lia.
      apply andb_true_intro; split; apply Z.leb_le; lia. }
    destruct (q =? 0) eqn:Hq.
    + apply Z.eqb_eq in Hq. eexists; split; [reflexivity|]. split.
      * cbn [letters_value]. rewrite code_ascii_of by lia. lia.
      * cbn [forallb]. rewrite Hup. reflexivity.
    + apply Z.eqb_neq in Hq.
      assert (0 <= q) by (apply Z.div_pos; lia).
      assert (q < 26 ^ Z.of_nat f) by (apply Z.div_lt_upper_bound; lia).
      destruct (IH q) as (ls & Hls & Hv & Hall); [lia | unfold two32 in *; lia |].
      rewrite Hls. eexists; split; [reflexivity|]. split.
      * cbn [letters_value]. rewrite code_ascii_of by lia. lia.
      * cbn [forallb]. rewrite Hup. exact Hall.
Qed.

Lemma reverse_letters (ls : list ascii) :
  reverse (string_of_list_ascii ls) = string_of_list_ascii (rev ls).
Proof.
  unfold reverse.
  destruct (Z.of_nat (String.length (string_of_list_ascii ls)) <? 2) eqn:E.
  - apply Z.ltb_lt in E.
    destruct ls as [|a [|b ls]]; [reflexivity | reflexivity |].
    cbn in E. lia.
  - rewrite list_ascii_of_string_of_list_ascii. reflexivity.
Qed.

Lemma is_upper_isalpha (ch : ascii) : is_upper ch = true -> isalpha ch = true.
Proof. unfold is_upper, isalpha. intros ->. reflexivity. Qed.

(** The alphabetic run of [ls] followed by a text that starts with no
    letter is [ls]. *)
Lemma alpha_run_app (ls : list ascii) (tl : string) :
  forallb isalpha ls = true ->
  alpha_run tl = ([], tl) ->
  alpha_run (string_of_list_ascii ls ++ tl)%string = (ls, tl).
Proof.
  intros Hall Htl.
  induction ls as [|ch rest IH]; cbn [string_of_list_ascii String.append alpha_run].
  - exact Htl.
  - cbn [forallb] in Hall. apply andb_prop in Hall as [Hch Hrest].
    change (alpha_run (String ch (string_of_list_ascii rest ++ tl))
            = (ch :: rest, tl)).
    cbn [alpha_run]. rewrite Hch, (IH Hrest). reflexivity.
Qed.

Lemma forallb_rev {A : Type} (f : A -> bool) (l : list A) :
  forallb f (rev l) = forallb f l.
Proof.
  induction l as [|a l IH]; [reflexivity|].
  cbn. rewrite forallb_app, IH. cbn. rewrite andb_true_r. apply andb_comm.
Qed.

(** C1. For a column index [n] in the non-negative range of [int],
    formatting [n] with [column_number_to_reference], appending the row text
    "1" and parsing the result with [cell_ref_to_row_col] gives row 0 and
    column [n]. *)
Theorem C1_column_round_trip (n : Z) :
  0 <= n < two31 ->
  exists s : string,
    column_number_to_reference n = Some s /\
    cell_ref_to_row_col (Some (s ++ "1")%string) = (0, n).
Proof.
  intros Hn. unfold column_number_to_reference.
  assert (E : uint32 (uint32 n + 1) = n + 1).
  { rewrite (uint32_id n) by (unfold two31, two32 in *; lia).
    apply uint32_id. unfold two31, two32 in *; lia. }
  rewrite E.
  destruct (letters_loop_spec ref_capacity (n + 1)) as (ls & Hls & Hv & Hup).
  { unfold ref_capacity, two31 in *. cbn. lia. }
  { unfold two31, two32 in *. lia. }
  rewrite Hls. eexists; split; [reflexivity|].
  rewrite reverse_letters. unfold cell_ref_to_row_col.
  rewrite (alpha_run_app (rev ls) "1").
  - rewrite rev_involutive. f_equal.
    rewrite (sint32_congr (col_loop ls 0 0 - 1) n); [apply sint32_id; unfold in_int, two31 in *; lia|].
    assert (C : cong (col_loop ls 0 0 + -1)
                     (0 + 26 ^ Z.of_nat 0 * letters_value ls + -1))
      by (apply cong_add; [apply col_loop_cong | apply cong_refl]).
    rewrite Hv in C.
    replace (0 + 26 ^ Z.of_nat 0 * (n + 1) + -1) with n in C by (cbn; lia).
    exact C.
  - rewrite forallb_rev. rewrite forallb_forall in Hup |- *.
    intros ch Hch. apply is_upper_isalpha, Hup, Hch.
  - reflexivity.
Qed.

Lemma C1_column_round_trip_witness :
  exists s : string,
    column_number_to_reference 701 = Some s /\
    cell_ref_to_row_col (Some (s ++ "1")%string) = (0, 701).
Proof. apply (C1_column_round_trip 701). unfold two31. lia. Defined.

(** ** Address parsing on malformed text *)

Lemma digits_value_app (ds : string) (ch : ascii) (rest : string) (acc : Z) :
  isdigit ch = false ->
  digits_value (ds ++ String ch rest) acc = digits_value ds acc.
Proof.
  intros Hch. revert acc. induction ds as [|d ds IH]; intros acc.
  - change (digits_value (String ch rest) acc = acc).
    cbn [digits_value]. rewrite Hch. reflexivity.
  - change (digits_value (String d (ds ++ String ch rest)) acc
            = digits_value (String d ds) acc).
    cbn [digits_value]. destruct (isdigit d); [apply IH | reflexivity].
Qed.

Lemma isdigit_not_space (ch : ascii) : isdigit ch = true -> isspace ch = false.
Proof.
  unfold isdigit, isspace, between. intros H.
  apply andb_prop in H as [H1 H2]. apply Z.leb_le in H1, H2.
  apply orb_false_intro; [apply Z.eqb_neq; lia|].
  apply andb_false_intro2. apply Z.leb_gt. lia.
Qed.

Lemma isdigit_not_alpha (ch : ascii) : isdigit ch = true -> isalpha ch = false.
Proof.
  unfold isdigit, isalpha, between. intros H.
  apply andb_prop in H as [H1 H2]. apply Z.leb_le in H1, H2.
  apply orb_false_intro; apply andb_false_intro1; apply Z.leb_gt; lia.
Qed.

(** Without a sign in front, [strtol] reads the digits at once. *)
Lemma strtol_unsigned (ch : ascii) (tl : string) :
  isspace ch = false -> Ascii.eqb ch "-" = false -> Ascii.eqb ch "+" = false ->
  strtol (String ch tl)
  = Z.max (- two63) (Z.min (two63 - 1) (digits_value (String ch tl) 0)).
Proof.
  intros Hsp Hm Hp. unfold strtol. cbn [skip_space]. rewrite Hsp.
  destruct ch as [b0 b1 b2 b3 b4 b5 b6 b7].
  destruct b0, b1, b2, b3, b4, b5, b6, b7;
    try discriminate Hm; try discriminate Hp; reflexivity.
Qed.

Lemma isdigit_not_sign (ch : ascii) :
  isdigit ch = true -> Ascii.eqb ch "-" = false /\ Ascii.eqb ch "+" = false.
Proof.
  intros H. split; apply Ascii.eqb_neq; intros ->; discriminate H.
Qed.

(** Characters after a non-empty run of digits do not change what [strtol]
    reads. *)
Lemma strtol_app (ds : string) (ch : ascii) (rest : string) :
  all_digits ds = true -> is_empty_string ds = false -> isdigit ch = false ->
  strtol (ds ++ String ch rest) = strtol ds.
Proof.
  intros Hall Hne Hch. destruct ds as [|d ds]; [discriminate Hne|].
  cbn [all_digits] in Hall. apply andb_prop in Hall as [Hd _].
  pose proof (digits_value_app (String d ds) ch rest 0 Hch) as E.
  change (String d ds ++ String ch rest)%string
    with (String d (ds ++ String ch rest)) in E |- *.
  destruct (isdigit_not_sign d Hd) as [Hm Hp].
  rewrite !strtol_unsigned by auto using isdigit_not_space.
  rewrite E. reflexivity.
Qed.

Lemma alpha_run_tail (s : string) (run : list ascii) (tl : string) :
  alpha_run s = (run, tl) -> alpha_run tl = ([], tl).
Proof.
  revert run. induction s as [|ch s IH]; intros run H.
  - cbn in H. injection H as <- <-. reflexivity.
  - cbn [alpha_run] in H. destruct (isalpha ch) eqn:Hch.
    + destruct (alpha_run s) as [run' tl'] eqn:E.
      injection H as <- <-. apply (IH run'). reflexivity.
    + injection H as <- <-. cbn [alpha_run]. rewrite Hch. reflexivity.
Qed.

Lemma alpha_run_split (s : string) (run : list ascii) (tl : string) :
  alpha_run s = (run, tl) ->
  s = (string_of_list_ascii run ++ tl)%string /\ forallb isalpha run = true.
Proof.
  revert run. induction s as [|ch s IH]; intros run H.
  - cbn in H. injection H as <- <-. split; reflexivity.
  - cbn [alpha_run] in H. destruct (isalpha ch) eqn:Hch.
    + destruct (alpha_run s) as [run' tl'] eqn:E.
      injection H as <- <-. destruct (IH run' eq_refl) as [-> Hall].
      split; [reflexivity|]. cbn [forallb]. rewrite Hch. exact Hall.
    + injection H as <- <-. split; reflexivity.
Qed.

Lemma append_assoc (a b c : string) :
  ((a ++ b) ++ c = a ++ (b ++ c))%string.
Proof.
  induction a as [|ch a IH]; [reflexivity|].
  change (String ch ((a ++ b) ++ c) = String ch (a ++ (b ++ c)))%string.
  f_equal. exact IH.
Qed.

(** Where no digit starts the text, [strtol] has nothing to accumulate. *)
Lemma digits_value_none (s : string) :
  starts_with_digit s = false -> digits_value s 0 = 0.
Proof.
  destruct s as [|ch s]; [reflexivity|]. cbn [starts_with_digit digits_value].
  intros ->. reflexivity.
Qed.

Lemma atoi_no_number (s : string) : no_number s = true -> atoi s = 0.
Proof.
  unfold no_number, atoi, strtol.
  destruct (skip_space s) as [|ch r]; [reflexivity|].
  destruct ch as [b0 b1 b2 b3 b4 b5 b6 b7].
  destruct b0, b1, b2, b3, b4, b5, b6, b7; intros H;
    apply negb_true_iff in H; rewrite (digits_value_none _ H); reflexivity.
Qed.

(** C6, as the code has it. [cell_ref_to_row_col] has no error to report:
    it stores a row and a column whatever the text. With an empty
    alphabetic run the column stored is -1; when [atoi] reads no number
    after the run the row stored is -1; and whatever follows the digits of a
    well-formed reference is ignored, the row and the column stored being
    those of the reference. *)
Theorem C6_parse_never_fails :
  (forall s tl : string,
      alpha_run s = ([], tl) -> snd (cell_ref_to_row_col (Some s)) = -1) /\
  (forall (s : string) (run : list ascii) (tl : string),
      alpha_run s = (run, tl) -> no_number tl = true ->
      fst (cell_ref_to_row_col (Some s)) = -1) /\
  (forall (s : string) (ch : ascii) (rest : string),
      well_formed_ref s = true -> isdigit ch = false ->
      cell_ref_to_row_col (Some (s ++ String ch rest)%string)
      = cell_ref_to_row_col (Some s)).
Proof.
  split; [|split].
  - intros s tl Hrun. unfold cell_ref_to_row_col. rewrite Hrun. reflexivity.
  - intros s run tl Hrun Hno. unfold cell_ref_to_row_col. rewrite Hrun.
    cbn [fst]. rewrite (atoi_no_number tl Hno). reflexivity.
  - intros s ch rest Hwf Hdig.
    destruct (alpha_run s) as [run tl] eqn:Hrun.
    unfold well_formed_ref in Hwf. rewrite Hrun in Hwf.
    destruct run as [|r0 run']; [discriminate Hwf|].
    apply andb_prop in Hwf as [Hne Hall]. apply negb_true_iff in Hne.
    destruct (alpha_run_split _ _ _ Hrun) as [-> Hletters].
    unfold cell_ref_to_row_col. rewrite Hrun.
    rewrite append_assoc.
    rewrite (alpha_run_app (r0 :: run') (tl ++ String ch rest)%string Hletters).
    + unfold atoi. rewrite (strtol_app tl ch rest Hall Hne Hdig). reflexivity.
    + destruct tl as [|d tl']; [discriminate Hne|].
      cbn [all_digits] in Hall. apply andb_prop in Hall as [Hd _].
      change (String d tl' ++ String ch rest)%string
        with (String d (tl' ++ String ch rest)).
      cbn [alpha_run]. rewrite (isdigit_not_alpha d Hd). reflexivity.
Qed.

(** The three parts at work: a text without letters, two texts in which no
    number follows the letters, and a reference followed by other
    characters. *)
Lemma C6_parse_never_fails_witness :
  snd (cell_ref_to_row_col (Some "12"%string)) = -1 /\
  fst (cell_ref_to_row_col (Some "A-"%string)) = -1 /\
  fst (cell_ref_to_row_col (Some "A x"%string)) = -1 /\
  cell_ref_to_row_col (Some "AB120$x"%string)
  = cell_ref_to_row_col (Some "AB120"%string).
Proof.
  destruct C6_parse_never_fails as (Hcol & Hrow & Htail).
  split; [exact (Hcol "12"%string "12"%string eq_refl)|].
  split; [exact (Hrow "A-"%string ["A"%char] "-"%string eq_refl eq_refl)|].
  split; [exact (Hrow "A x"%string ["A"%char] " x"%string eq_refl eq_refl)|].
  exact (Htail "AB120"%string "$"%char "x"%string eq_refl eq_refl).
Defined.

(** What [cell_ref_to_row_col] stores on references that are not well
    formed. *)
Example parse_malformed :
  cell_ref_to_row_col (Some "1"%string) = (0, -1) /\
  cell_ref_to_row_col (Some "A"%string) = (-1, 0) /\
  cell_ref_to_row_col (Some "A1$"%string) = (0, 0) /\
  cell_ref_to_row_col (Some "a1"%string) = (0, 32) /\
  cell_ref_to_row_col None = (0, 0).
Proof. repeat split; vm_compute; reflexivity. Qed.

(** C6, as stated, fails. The claim has the parser fail exactly on the
    references that are not well formed; whatever is read as the failure
    report of [cell_ref_to_row_col], the function stores the same row and
    column for the well-formed "A1" and for the malformed "A1$". *)
Lemma C6_no_invalid_address_report :
  ~ (exists failed : Z * Z -> bool,
        forall s : string,
          failed (cell_ref_to_row_col (Some s)) = negb (well_formed_ref s)).
Proof.
  intros [failed H].
  pose proof (H "A1"%string) as H1. pose proof (H "A1$"%string) as H2.
  vm_compute in H1, H2. congruence.
Qed.

(** ** Accessors *)

(** The accessors that C9 names one by one do return a neutral value
    instead of failing: [libo_xl_book_get_sheet], [libo_xl_sheet_get_row]
    and [libo_xl_row_get_cell] return null for a null target and for an
    index that is negative or not below the count, and the element for an
    index in range; [libo_xl_cell_get_reference] and
    [libo_xl_cell_get_number] return 0 for a null cell and for a cell of
    another kind. *)
Theorem accessors_neutral_defaults
    (xlb : option libo_xl_book) (xls : option libo_xl_sheet)
    (xlr : option libo_xl_row) (xlc : option libo_xl_cell) (n : Z) :
  (xlb = None \/ n < 0 \/ libo_xl_book_get_sheet_count xlb <= n ->
   libo_xl_book_get_sheet xlb n = None) /\
  (xls = None \/ n < 0 \/ (forall s, xls = Some s -> n_rows s <= n) ->
   libo_xl_sheet_get_row xls n = None) /\
  (xlr = None \/ n < 0 \/ libo_xl_row_get_cell_count xlr <= n ->
   libo_xl_row_get_cell xlr n = None) /\
  (libo_xl_cell_get_type xlc <> libo_xl_cell_type_reference ->
   libo_xl_cell_get_reference xlc = 0) /\
  (libo_xl_cell_get_type xlc <> libo_xl_cell_type_number ->
   libo_xl_cell_get_number xlc = double_zero) /\
  (0 <= n < libo_xl_book_get_sheet_count xlb ->
   is_Some (libo_xl_book_get_sheet xlb n)) /\
  (0 <= n < libo_xl_row_get_cell_count xlr ->
   is_Some (libo_xl_row_get_cell xlr n)).
Proof.
  repeat split.
  - intros H. destruct xlb as [b|]; [|reflexivity]. cbn in *.
    destruct H as [H | [H | H]]; [discriminate | |].
    + apply Z.ltb_lt in H. rewrite H. reflexivity.
    + destruct (n <? 0); [reflexivity|].
      apply Z.geb_le in H. rewrite H. reflexivity.
  - intros H. destruct xls as [s|]; [|reflexivity]. cbn in *.
    destruct H as [H | [H | H]]; [discriminate | |].
    + apply Z.ltb_lt in H. rewrite H. reflexivity.
    + destruct (n <? 0); [reflexivity|].
      specialize (H s eq_refl). apply Z.geb_le in H. rewrite H. reflexivity.
  - intros H. destruct xlr as [r|]; [|reflexivity]. cbn in *.
    destruct H as [H | [H | H]]; [discriminate | |].
    + apply Z.ltb_lt in H. rewrite H. reflexivity.
    + destruct (n <? 0); [reflexivity|].
      apply Z.geb_le in H. rewrite H. reflexivity.
  - intros H. destruct xlc as [c|]; [|reflexivity]. cbn in *.
    destruct (decide _); [contradiction | reflexivity].
  - intros H. destruct xlc as [c|]; [|reflexivity]. cbn in *.
    destruct (decide _); [contradiction | reflexivity].
  - intros H. destruct xlb as [b|]; cbn in *; [|lia].
    destruct (n <? 0) eqn:E1; [apply Z.ltb_lt in E1; lia|].
    destruct (n >=? n_sheets b) eqn:E2; [apply Z.geb_le in E2; lia|].
    apply lookup_lt_is_Some. unfold n_sheets in H. lia.
  - intros H. destruct xlr as [r|]; cbn in *; [|lia].
    destruct (n <? 0) eqn:E1; [apply Z.ltb_lt in E1; lia|].
    destruct (n >=? n_cells r) eqn:E2; [apply Z.geb_le in E2; lia|].
    apply lookup_lt_is_Some. unfold n_cells in H. lia.
Qed.

Lemma accessors_neutral_defaults_witness :
  libo_xl_book_get_sheet (Some (mkBook [libo_xl_sheet_new])) 1 = None /\
  libo_xl_sheet_get_row (Some libo_xl_sheet_new) 1 = None /\
  libo_xl_row_get_cell None 1 = None /\
  libo_xl_cell_get_reference
    (Some (mkCell libo_xl_cell_type_number 4631107791820423168 0)) = 0 /\
  libo_xl_cell_get_number
    (Some (mkCell libo_xl_cell_type_reference 7 0)) = double_zero /\
  is_Some (libo_xl_book_get_sheet
             (Some (mkBook [libo_xl_sheet_new; libo_xl_sheet_new])) 1) /\
  is_Some (libo_xl_row_get_cell
             (Some (mkRow [libo_xl_cell_new; libo_xl_cell_new])) 1).
Proof.
  destruct (accessors_neutral_defaults
              (Some (mkBook [libo_xl_sheet_new])) (Some libo_xl_sheet_new)
              None
              (Some (mkCell libo_xl_cell_type_number 4631107791820423168 0)) 1)
    as (H1 & H2 & H3 & H4 & _).
  destruct (accessors_neutral_defaults
              (Some (mkBook [libo_xl_sheet_new; libo_xl_sheet_new])) None
              (Some (mkRow [libo_xl_cell_new; libo_xl_cell_new]))
              (Some (mkCell libo_xl_cell_type_reference 7 0)) 1)
    as (_ & _ & _ & _ & H5 & H6 & H7).
  refine (conj (H1 _) (conj (H2 _) (conj (H3 _) (conj (H4 _)
            (conj (H5 _) (conj (H6 _) (H7 _))))))).
  - right; right.
    unfold libo_xl_book_get_sheet_count, n_sheets. cbn [length book_sheet]. lia.
  - right; right. intros s [= <-].
    unfold n_rows, libo_xl_sheet_new. cbn [length sheet_row]. lia.
  - left. reflexivity.
  - discriminate.
  - discriminate.
  - unfold libo_xl_book_get_sheet_count, n_sheets. cbn [length book_sheet]. lia.
  - unfold libo_xl_row_get_cell_count, n_cells. cbn [length row_cell]. lia.
Defined.

(** C9, where the code breaks it. The claim has every read-side accessor
    return a neutral value instead of failing.
    [libo_xl_cell_get_string_value] does not: on an Expression cell it hands
    the formula to [strdup] before any test, and a cell without a formula is
    a null dereference. Such a cell is what the reader leaves at every
    position a row does not declare; on the jagged worksheet the cell at row
    1, column 1 is one. The branch for a Reference cell, next to it, tests
    the text it looked up and returns null for an id the table does not
    have. *)
Theorem C9_string_value_faults_on_gap_cell :
  exists (s : libo_xl_sheet) (h : heap) (c : libo_xl_cell),
    libo_xl_sheet_read atof_zero libo_xl_sheet_new jagged empty_heap
    = Some (s, h) /\
    libo_xl_row_get_cell (libo_xl_sheet_get_row (Some s) 1) 1 = Some c /\
    libo_xl_cell_get_type (Some c) = libo_xl_cell_type_expression /\
    formula (expression c) = NULL /\
    Value.libo_xl_cell_get_string_value sprintf_g_zero (Some strings_new)
      (Some c) h = None /\
    Value.libo_xl_cell_get_string_value sprintf_g_zero (Some strings_new)
      (Some (mkCell libo_xl_cell_type_reference 5 0)) h = Some (NULL, h).
Proof.
  eexists _, _, _. split; [vm_compute; reflexivity|].
  split; [vm_compute; reflexivity|].
  split; [reflexivity|]. split; [reflexivity|].
  split; vm_compute; reflexivity.
Qed.

(** ** The frozen pane of a top freeze *)

Lemma strapp_strapp (buf : option string) (a b : string) :
  strapp (strapp buf a) b = strapp buf (a ++ b)%string.
Proof.
  destruct buf as [s|]; cbn [strapp]; [|reflexivity].
  rewrite append_assoc. reflexivity.
Qed.

(** What [strapp] leaves in the buffer: the text it held, followed by the
    addendum. *)
Lemma strapp_contents (buf : option string) (s : string) :
  strapp buf s = Some (contents buf ++ s)%string.
Proof. destruct buf; reflexivity. Qed.

(** C7. On a sheet whose freeze has been set to kind top with count 1,
    [libo_xl_sheet_sheetviews_add] returns with the buffer holding the text
    it held before followed by the block whose pane element splits
    horizontally ([ySplit]), has the anchor cell [topLeftCell] A2, that is
    column A and the 0-based row 1, and has the active pane [bottomLeft]. *)
Theorem C7_top_freeze_pane
    (d : libo) (x : libo_xl) (b : libo_xl_book) (i : nat)
    (s : libo_xl_sheet) (buf : option string) :
  type d = libo_type_xl -> xl d = Some x -> book x = Some b ->
  book_sheet b !! i
  = Some (libo_xl_sheet_set_freeze s libo_xl_freeze_type_top 1) ->
  libo_xl_sheet_sheetviews_add (Some d) (Z.of_nat i) buf
  = Some (Some (contents buf ++ top_freeze_views)%string).
Proof.
  intros Ht Hx Hb Hs. unfold libo_xl_sheet_sheetviews_add.
  rewrite Ht, Hx. cbn [mbind option_bind]. rewrite Hb. cbn [mbind option_bind].
  destruct (decide (libo_type_xl = libo_type_xl)) as [_|Hne]; [|contradiction].
  pose proof (lookup_lt_Some _ _ _ Hs) as Hlt.
  destruct (Z.of_nat i >=? n_sheets b) eqn:E1;
    [apply Z.geb_le in E1; unfold n_sheets in E1; lia|].
  destruct (Z.of_nat i <? 0) eqn:E2; [apply Z.ltb_lt in E2; lia|].
  rewrite Nat2Z.id, Hs. cbn [mbind option_bind].
  cbn [libo_xl_sheet_set_freeze sheet_freeze freeze_type freeze_n].
  destruct (decide _) as [Hd|_]; [discriminate Hd|].
  rewrite !strapp_strapp, strapp_contents. reflexivity.
Qed.

Lemma C7_top_freeze_pane_witness :
  libo_xl_sheet_sheetviews_add
    (Some (mkLibo None libo_type_xl
             (Some (mkXl (Some (mkBook
                [libo_xl_sheet_set_freeze libo_xl_sheet_new
                   libo_xl_freeze_type_top 1])) None))))
    (Z.of_nat 0) (Some "<worksheet>"%string)
  = Some (Some ("<worksheet>" ++ top_freeze_views)%string).
Proof.
  apply (C7_top_freeze_pane
           (mkLibo None libo_type_xl
              (Some (mkXl (Some (mkBook
                 [libo_xl_sheet_set_freeze libo_xl_sheet_new
                    libo_xl_freeze_type_top 1])) None)))
           (mkXl (Some (mkBook
              [libo_xl_sheet_set_freeze libo_xl_sheet_new
                 libo_xl_freeze_type_top 1])) None)
           (mkBook [libo_xl_sheet_set_freeze libo_xl_sheet_new
                      libo_xl_freeze_type_top 1])
           0%nat libo_xl_sheet_new (Some "<worksheet>"%string));
    reflexivity.
Defined.

(** The block in full, on an empty buffer. *)
Example top_freeze_text :
  libo_xl_sheet_sheetviews_add
    (Some (mkLibo None libo_type_xl
             (Some (mkXl (Some (mkBook
                [libo_xl_sheet_set_freeze libo_xl_sheet_new
                   libo_xl_freeze_type_top 1])) None))))
    0 None
  = Some (Some
      ("<sheetViews>" ++ nl
       ++ "<sheetView tabSelected=" ++ dq ++ "1" ++ dq ++ " topLeftCell="
       ++ dq ++ "A1" ++ dq ++ " workbookViewId=" ++ dq ++ "0" ++ dq ++ ">" ++ nl
       ++ "<pane ySplit=" ++ dq ++ "1" ++ dq ++ " topLeftCell=" ++ dq ++ "A2"
       ++ dq ++ " activePane=" ++ dq ++ "bottomLeft" ++ dq ++ " state=" ++ dq
       ++ "frozen" ++ dq ++ "/>"
       ++ "<selection pane=" ++ dq ++ "bottomLeft" ++ dq ++ "/>"
       ++ "</sheetView>" ++ nl ++ "</sheetViews>" ++ nl)%string).
Proof. vm_compute. reflexivity. Qed.

(** ** The heap *)

Lemma heap_eta (h : heap) : mkHeap (blocks h) (next h) = h.
Proof. destruct h. reflexivity. Qed.

Lemma free_live (h : heap) (p : ptr) :
  live h p -> free p h = Some (tt, mkHeap (delete p (blocks h)) (next h)).
Proof. intros [s Hs]. unfold free. rewrite Hs. reflexivity. Qed.

Lemma release_nil (h : heap) : release [] h = h.
Proof. apply heap_eta. Qed.

Lemma release_lookup_in (ps : list ptr) (h : heap) (p : ptr) :
  p ∈ ps -> blocks (release ps h) !! p = None.
Proof.
  intros Hin. cbn [release blocks].
  induction ps as [|q ps IH]; [inversion Hin|].
  cbn [foldr]. destruct (decide (q = p)) as [->|Hne].
  - apply lookup_delete_eq.
  - rewrite lookup_delete_ne by exact Hne.
    apply IH. inversion Hin; subst; [contradiction | assumption].
Qed.

Lemma release_lookup_notin (ps : list ptr) (h : heap) (p : ptr) :
  p ∉ ps -> blocks (release ps h) !! p = blocks h !! p.
Proof.
  intros Hnotin. cbn [release blocks].
  induction ps as [|q ps IH]; [reflexivity|].
  cbn [foldr]. apply not_elem_of_cons in Hnotin as [Hne Hps].
  rewrite lookup_delete_ne by congruence. apply IH, Hps.
Qed.

(** ** Changing the kind of a cell *)

(** The two [free_if] of [libo_xl_cell_set_type] and of
    [libo_xl_cell_clear], in either order, release the strings the cell
    owns. *)
Lemma free_both (h : heap) (f v : ptr) :
  owns h ((if f =? NULL then [] else [f]) ++ (if v =? NULL then [] else [v])) ->
  (free_if f ;;; free_if v) h
  = Some (tt, release ((if f =? NULL then [] else [f])
                       ++ (if v =? NULL then [] else [v])) h) /\
  (free_if v ;;; free_if f) h
  = Some (tt, release ((if f =? NULL then [] else [f])
                       ++ (if v =? NULL then [] else [v])) h).
Proof.
  intros [Hnd Hlive]. unfold bind, free_if.
  destruct (f =? NULL) eqn:Ef, (v =? NULL) eqn:Ev; cbn [app] in *.
  - unfold ret. rewrite release_nil. split; reflexivity.
  - apply Forall_cons in Hlive as [Hv _].
    unfold ret. rewrite (free_live h v Hv). split; reflexivity.
  - apply Forall_cons in Hlive as [Hf _].
    unfold ret. rewrite (free_live h f Hf). split; reflexivity.
  - apply Forall_cons in Hlive as [Hf Hlive].
    apply Forall_cons in Hlive as [Hv _].
    apply NoDup_cons in Hnd as [Hne _].
    assert (Hfv : f <> v) by (intros ->; apply Hne; left).
    rewrite (free_live h f Hf), (free_live h v Hv).
    rewrite !free_live.
    + cbn [release foldr blocks next]. split; [|reflexivity].
      rewrite delete_delete. reflexivity.
    + unfold live in *. cbn [blocks]. rewrite lookup_delete_ne by congruence.
      exact Hf.
    + unfold live in *. cbn [blocks]. rewrite lookup_delete_ne by congruence.
      exact Hv.
Qed.

Lemma set_type_spec (h : heap) (c : libo_xl_cell) (t : libo_xl_cell_type) :
  owns h (cell_ptrs c) ->
  libo_xl_cell_set_type c t h = Some (mkCell t 0 0, release (cell_ptrs c) h).
Proof.
  intros Hown. unfold libo_xl_cell_set_type, cell_ptrs in *.
  destruct (decide (cell_type c = libo_xl_cell_type_expression)) as [He|Hne].
  - destruct (free_both h _ _ Hown) as [E _].
    unfold bind in *. rewrite E. reflexivity.
  - unfold bind, ret. rewrite release_nil. reflexivity.
Qed.

Lemma clear_spec (h : heap) (c : libo_xl_cell) :
  owns h (cell_ptrs c) ->
  libo_xl_cell_clear c h
  = Some (mkCell libo_xl_cell_type_none 0 0, release (cell_ptrs c) h).
Proof.
  intros Hown. unfold libo_xl_cell_clear, cell_ptrs in *.
  destruct (decide (cell_type c = libo_xl_cell_type_expression)) as [He|Hne].
  - rewrite He. destruct (free_both h _ _ Hown) as [_ E].
    unfold bind in *.
    destruct (free_if (value (expression c)) h) as [[[] h1]|]; [|discriminate E].
    destruct (free_if (formula (expression c)) h1) as [[[] h2]|]; [|discriminate E].
    injection E as ->. unfold ret, libo_xl_cell_set_type.
    cbn [zeroed cell_type word0 word1 expression formula value].
    destruct (decide _) as [_|Hne]; [reflexivity | contradiction].
  - rewrite release_nil.
    destruct (cell_type c) eqn:Et; try contradiction;
      unfold bind, ret, libo_xl_cell_set_type;
      cbn [with_reference cell_type]; rewrite ?Et;
      (destruct (decide _) as [Hd|_]; [discriminate Hd | reflexivity]).
Qed.

(** C8. A change of kind through [libo_xl_cell_set_type] frees the formula
    and value strings the cell owned and leaves the whole payload zero: no
    formula, value, reference id or number of the old kind is left. The
    typed setters behave on the cell as they do on a new blank cell in the
    heap from which the old strings are gone. *)
Theorem C8_retype_releases_and_clears
    (h : heap) (c : libo_xl_cell) (t : libo_xl_cell_type)
    (x : double) (strs : Strings.strings) (txt : string)
    (xlce : libo_xl_cell_expression) :
  owns h (cell_ptrs c) ->
  exists (c' : libo_xl_cell) (h' : heap),
    libo_xl_cell_set_type c t h = Some (c', h') /\
    cell_type c' = t /\
    reference c' = 0 /\ number c' = double_zero /\
    expression c' = mkExpression NULL NULL /\
    (forall p, p ∈ cell_ptrs c -> blocks h' !! p = None) /\
    (forall p, p ∉ cell_ptrs c -> blocks h' !! p = blocks h !! p) /\
    libo_xl_cell_set_number c x h
    = Some (mkCell libo_xl_cell_type_number x 0, h') /\
    Text.libo_xl_cell_set_text strs c txt h
    = Text.libo_xl_cell_set_text strs libo_xl_cell_new txt h' /\
    libo_xl_cell_set_expression c xlce h
    = libo_xl_cell_set_expression libo_xl_cell_new xlce h'.
Proof.
  intros Hown.
  exists (mkCell t 0 0), (release (cell_ptrs c) h).
  assert (Hnew : forall g, libo_xl_cell_clear libo_xl_cell_new g
                           = Some (mkCell libo_xl_cell_type_none 0 0, g)).
  { intros g. unfold libo_xl_cell_clear, libo_xl_cell_new. cbn.
    unfold bind, ret. reflexivity. }
  split; [apply set_type_spec, Hown|].
  repeat (split; [reflexivity|]).
  split; [intros p; apply release_lookup_in|].
  split; [intros p; apply release_lookup_notin|].
  split; [|split].
  - unfold libo_xl_cell_set_number, bind. rewrite (clear_spec h c Hown).
    reflexivity.
  - unfold Text.libo_xl_cell_set_text, bind.
    rewrite (clear_spec h c Hown), Hnew. reflexivity.
  - unfold libo_xl_cell_set_expression, bind.
    rewrite (clear_spec h c Hown), Hnew. reflexivity.
Qed.

(** Closed heaps: the invariant and the ownership of a few pointers are
    settled by looking the pointers up. *)
Ltac lookup_closed H :=
  repeat match type of H with
         | <[?q := _]> _ !! ?p = Some _ =>
             destruct (decide (q = p)) as [<-|?];
             [cbn [next]; lia | rewrite lookup_insert_ne in H by assumption]
         | ∅ !! _ = Some _ => rewrite lookup_empty in H; discriminate H
         end.

Ltac closed_heap_wf :=
  split; [reflexivity|];
  let p := fresh "p" in let s := fresh "s" in let Hs := fresh "Hs" in
  intros p [s Hs]; cbv [shared_heap empty_heap blocks next] in Hs |- *;
  lookup_closed Hs.

Ltac closed_owns ps :=
  match goal with
  | |- owns _ ?l => change l with ps
  end;
  split;
  [repeat (apply NoDup_cons; split;
           [let H := fresh in
            intros H; apply list_elem_of_In in H; cbn [In] in H;
            repeat destruct H as [H|H]; try discriminate H; exact H|]);
   apply NoDup_nil; exact I
  |repeat constructor; eexists; vm_compute; reflexivity].

Lemma C8_retype_releases_and_clears_witness :
  exists (c' : libo_xl_cell) (h' : heap),
    libo_xl_cell_set_type shared_cell libo_xl_cell_type_number shared_heap
    = Some (c', h') /\
    cell_type c' = libo_xl_cell_type_number /\
    reference c' = 0 /\ number c' = double_zero /\
    expression c' = mkExpression NULL NULL /\
    (forall p, p ∈ cell_ptrs shared_cell -> blocks h' !! p = None) /\
    (forall p, p ∉ cell_ptrs shared_cell ->
               blocks h' !! p = blocks shared_heap !! p) /\
    libo_xl_cell_set_number shared_cell 4631107791820423168 shared_heap
    = Some (mkCell libo_xl_cell_type_number 4631107791820423168 0, h') /\
    Text.libo_xl_cell_set_text Strings.strings_new shared_cell "Hello" shared_heap
    = Text.libo_xl_cell_set_text Strings.strings_new libo_xl_cell_new "Hello" h' /\
    libo_xl_cell_set_expression shared_cell (mkExpression NULL NULL) shared_heap
    = libo_xl_cell_set_expression libo_xl_cell_new (mkExpression NULL NULL) h'.
Proof.
  apply (C8_retype_releases_and_clears shared_heap shared_cell
           libo_xl_cell_type_number 4631107791820423168
           Strings.strings_new "Hello"%string (mkExpression NULL NULL)).
  closed_owns [1; 2].
Defined.

(** ** Deep copies *)

(** C4, on the failing input. [libo_xl_row_add] appends a cell that still
    holds the formula and value pointers of the argument, and
    [libo_xl_cell_dup] has freed exactly those two buffers: it duplicates the
    strings into the argument cell, not into the copy. Reading the copy's
    formula is a use after free, and retyping or clearing the copy frees the
    buffers a second time. *)
Theorem C4_row_add_expression_copy_dangles :
  exists (xlc' : libo_xl_cell) (h' : heap),
    Copy.libo_xl_row_add libo_xl_row_new shared_cell shared_heap
    = Some ((mkRow [shared_cell], xlc'), h') /\
    xlc' = mkCell libo_xl_cell_type_expression 3 4 /\
    blocks h' !! formula (expression xlc') = Some "=A1+1"%string /\
    blocks h' !! value (expression xlc') = Some "7"%string /\
    blocks h' !! formula (expression shared_cell) = None /\
    blocks h' !! value (expression shared_cell) = None /\
    load (formula (expression shared_cell)) h' = None /\
    libo_xl_cell_set_type shared_cell libo_xl_cell_type_none h' = None /\
    libo_xl_cell_clear shared_cell h' = None.
Proof.
  eexists _, _. split; [vm_compute; reflexivity|].
  repeat split; vm_compute; reflexivity.
Qed.

(** A cell that is no Expression is copied by value, and nothing else
    happens. *)
Lemma cell_dup_plain (h : heap) (c : libo_xl_cell) :
  cell_type c <> libo_xl_cell_type_expression ->
  Copy.libo_xl_cell_dup c h = Some ((c, c), h).
Proof.
  intros Hne. unfold Copy.libo_xl_cell_dup.
  destruct (decide _); [contradiction | reflexivity].
Qed.

Lemma heap_wf_fresh (h : heap) (p : ptr) : heap_wf h -> live h p -> p <> next h.
Proof. intros [_ Hwf] Hp. specialize (Hwf p Hp). lia. Qed.

Lemma heap_wf_not_null (h : heap) (p : ptr) : heap_wf h -> live h p -> p <> NULL.
Proof. intros [_ Hwf] Hp. specialize (Hwf p Hp). unfold NULL. lia. Qed.

Lemma bind_ok {A B : Type} (m : M A) (k : A -> M B) (h h1 : heap) (a : A) :
  m h = Some (a, h1) -> bind m k h = k a h1.
Proof. intros E. unfold bind. rewrite E. reflexivity. Qed.

(** [strdup (p)] followed by [free (p)], the step [libo_xl_cell_dup] takes
    on each string of its argument. *)
Lemma refresh_spec {A : Type} (g : ptr -> A) (h : heap) (p : ptr) :
  heap_wf h -> live h p ->
  exists h',
    (q <- strdup p ;; free_if p ;;; ret (g q)) h = Some (g (next h), h') /\
    refreshed h p h'.
Proof.
  intros Hwf Hp.
  pose proof (heap_wf_fresh h p Hwf Hp) as Hfresh.
  pose proof (heap_wf_not_null h p Hwf Hp) as Hnull.
  destruct Hp as [s Hs].
  exists (mkHeap (delete p (<[next h := s]> (blocks h))) (next h + 1)).
  split; [|split; [|split; [|split; [|split]]]].
  - unfold strdup, load, alloc, bind. cbv beta. rewrite Hs. unfold free_if.
    destruct (p =? NULL) eqn:E; [apply Z.eqb_eq in E; contradiction|].
    unfold free. cbn [blocks next].
    rewrite lookup_insert_ne by congruence. rewrite Hs. reflexivity.
  - destruct Hwf as [Hpos Hwf]. split; cbn [next]; [lia|].
    intros p' [s' Hp']. cbn [blocks] in Hp'.
    destruct (decide (p = p')) as [->|Hne];
      [rewrite lookup_delete_eq in Hp'; discriminate Hp'|].
    rewrite lookup_delete_ne in Hp' by exact Hne.
    destruct (decide (next h = p')) as [<-|Hne']; [lia|].
    rewrite lookup_insert_ne in Hp' by exact Hne'.
    specialize (Hwf p' (ex_intro _ s' Hp')). lia.
  - intros p' Hnotin Hlive. cbn [blocks].
    assert (p <> p') by (intros ->; apply Hnotin; left).
    rewrite lookup_delete_ne by assumption.
    rewrite lookup_insert_ne; [reflexivity|].
    intros <-. destruct Hwf as [_ Hwf]. specialize (Hwf _ Hlive). lia.
  - reflexivity.
  - cbn [blocks]. apply lookup_delete_eq.
  - intros p' Hne Hnone. cbn [blocks].
    destruct (decide (p = p')) as [->|Hne']; [apply lookup_delete_eq|].
    rewrite lookup_delete_ne by exact Hne'.
    rewrite lookup_insert_ne by congruence. exact Hnone.
Qed.

Lemma set_formula_self_spec (h : heap) (e : libo_xl_cell_expression) :
  heap_wf h -> live h (formula e) ->
  exists h',
    libo_xl_cell_expression_set_formula e (formula e) h
    = Some (mkExpression (next h) (value e), h') /\
    refreshed h (formula e) h'.
Proof.
  intros Hwf Hp. unfold libo_xl_cell_expression_set_formula.
  pose proof (heap_wf_not_null h _ Hwf Hp) as Hnull.
  destruct (formula e =? NULL) eqn:E; [apply Z.eqb_eq in E; contradiction|].
  apply (refresh_spec (fun q => mkExpression q (value e)) h (formula e) Hwf Hp).
Qed.

Lemma set_value_self_spec (h : heap) (e : libo_xl_cell_expression) :
  heap_wf h -> live h (value e) ->
  exists h',
    libo_xl_cell_expression_set_value e (value e) h
    = Some (mkExpression (formula e) (next h), h') /\
    refreshed h (value e) h'.
Proof.
  intros Hwf Hp. unfold libo_xl_cell_expression_set_value.
  pose proof (heap_wf_not_null h _ Hwf Hp) as Hnull.
  destruct (value e =? NULL) eqn:E; [apply Z.eqb_eq in E; contradiction|].
  apply (refresh_spec (fun q => mkExpression (formula e) q) h (value e) Hwf Hp).
Qed.

Lemma preserves_refl (ps : list ptr) (h : heap) : preserves ps h h.
Proof. intros p _ _. reflexivity. Qed.

Lemma preserves_trans (ps qs : list ptr) (h1 h2 h3 : heap) :
  preserves ps h1 h2 -> preserves qs h2 h3 -> preserves (ps ++ qs) h1 h3.
Proof.
  intros H12 H23 p Hnotin Hlive.
  apply not_elem_of_app in Hnotin as [Hps Hqs].
  rewrite <- (H12 p Hps Hlive). apply H23; [exact Hqs|].
  unfold live. rewrite (H12 p Hps Hlive). exact Hlive.
Qed.

Lemma preserves_live (ps : list ptr) (h h' : heap) (p : ptr) :
  preserves ps h h' -> p ∉ ps -> live h p -> live h' p.
Proof. intros Hpres Hnotin Hlive. unfold live. rewrite Hpres; assumption. Qed.

Lemma with_expression_id (c : libo_xl_cell) : with_expression c (expression c) = c.
Proof. destruct c. reflexivity. Qed.

(** [libo_xl_cell_dup] on a cell that owns its strings: the new cell is a
    copy of the argument word for word, the argument's strings have been
    freed, and the argument now points to fresh duplicates. *)
Lemma cell_dup_spec (h : heap) (c : libo_xl_cell) :
  heap_wf h -> owns h (cell_ptrs c) ->
  exists (c' : libo_xl_cell) (h' : heap),
    Copy.libo_xl_cell_dup c h = Some ((c', c), h') /\
    heap_wf h' /\ preserves (cell_ptrs c) h h' /\
    (forall p, p ∈ cell_ptrs c -> blocks h' !! p = None).
Proof.
  intros Hwf [Hnd Hlive].
  unfold Copy.libo_xl_cell_dup, cell_ptrs in *.
  destruct (decide (cell_type c = libo_xl_cell_type_expression)) as [He|Hne].
  2:{ exists c, h. split; [reflexivity|]. split; [exact Hwf|].
      split; [apply preserves_refl|]. intros p Hp. inversion Hp. }
  destruct (formula (expression c) =? NULL) eqn:Ef.
  - (* no formula *)
    cbn [app] in *. rewrite (bind_ok _ _ h h (expression c) eq_refl).
    destruct (value (expression c) =? NULL) eqn:Ev.
    + exists c, h. rewrite (bind_ok _ _ h h (expression c) eq_refl).
      unfold ret. rewrite with_expression_id.
      split; [reflexivity|]. split; [exact Hwf|].
      split; [apply preserves_refl|]. intros p Hp. inversion Hp.
    + apply Forall_cons in Hlive as [Hv _].
      destruct (set_value_self_spec h (expression c) Hwf Hv)
        as (h1 & E1 & Hwf1 & Hp1 & _ & Hgone & _).
      rewrite (bind_ok _ _ _ _ _ E1).
      eexists _, _. split; [reflexivity|]. split; [exact Hwf1|].
      split; [exact Hp1|].
      intros p Hp. apply list_elem_of_singleton in Hp as ->. exact Hgone.
  - (* a formula *)
    assert (Hf : live h (formula (expression c))).
    { destruct (value (expression c) =? NULL); cbn [app] in Hlive;
        apply Forall_cons in Hlive as [Hf _]; exact Hf. }
    destruct (set_formula_self_spec h (expression c) Hwf Hf)
      as (h1 & E1 & Hwf1 & Hp1 & Hnext1 & Hgone1 & _).
    rewrite (bind_ok _ _ _ _ _ E1). cbn [value].
    destruct (value (expression c) =? NULL) eqn:Ev; cbn [app] in *.
    + rewrite (bind_ok _ _ h1 h1 _ eq_refl).
      eexists _, _. split; [reflexivity|].
      split; [exact Hwf1|]. split; [exact Hp1|].
      intros p Hp. apply list_elem_of_singleton in Hp as ->. exact Hgone1.
    + apply Forall_cons in Hlive as [_ Hlive].
      apply Forall_cons in Hlive as [Hv _].
      apply NoDup_cons in Hnd as [Hfv _].
      assert (Hne : value (expression c) ∉ [formula (expression c)]).
      { intros Hin. apply list_elem_of_singleton in Hin.
        apply Hfv. rewrite <- Hin. left. }
      pose proof (preserves_live _ _ _ _ Hp1 Hne Hv) as Hv1.
      destruct (set_value_self_spec h1
                  (mkExpression (next h) (value (expression c))) Hwf1 Hv1)
        as (h2 & E2 & Hwf2 & Hp2 & _ & Hgone2 & Hkeep2).
      cbn [value formula] in E2, Hp2, Hgone2.
      rewrite (bind_ok _ _ _ _ _ E2).
      eexists _, _. split; [reflexivity|]. split; [exact Hwf2|].
      split; [exact (preserves_trans _ _ h h1 h2 Hp1 Hp2)|].
      intros p Hp. apply elem_of_cons in Hp as [->|Hp].
      * apply Hkeep2; [|exact Hgone1].
        destruct Hwf as [_ Hb]. specialize (Hb _ Hf). lia.
      * apply list_elem_of_singleton in Hp as ->. exact Hgone2.
Qed.

Lemma owns_app (h : heap) (ps qs : list ptr) :
  owns h (ps ++ qs) ->
  owns h ps /\ owns h qs /\ (forall p, p ∈ qs -> p ∉ ps).
Proof.
  intros [Hnd Hlive]. apply NoDup_app in Hnd as (Hps & Hdisj & Hqs).
  apply Forall_app in Hlive as [Lps Lqs].
  repeat split; try assumption.
  intros p Hq Hp. exact (Hdisj p Hp Hq).
Qed.

Lemma owns_preserved (ps qs : list ptr) (h h' : heap) :
  preserves ps h h' -> owns h qs -> (forall p, p ∈ qs -> p ∉ ps) -> owns h' qs.
Proof.
  intros Hpres [Hnd Hlive] Hdisj. split; [exact Hnd|].
  apply Forall_forall. intros p Hp.
  apply (preserves_live ps h h' p Hpres (Hdisj p Hp)).
  rewrite Forall_forall in Hlive. apply Hlive, Hp.
Qed.

Lemma row_add_spec (h : heap) (r : libo_xl_row) (c : libo_xl_cell) :
  heap_wf h -> owns h (cell_ptrs c) ->
  exists (c' : libo_xl_cell) (h' : heap),
    Copy.libo_xl_row_add r c h = Some ((mkRow (row_cell r ++ [c]), c'), h') /\
    heap_wf h' /\ preserves (cell_ptrs c) h h'.
Proof.
  intros Hwf Hown.
  destruct (cell_dup_spec h c Hwf Hown) as (c' & h' & E & Hwf' & Hp & _).
  exists c', h'. unfold Copy.libo_xl_row_add.
  rewrite (bind_ok _ _ _ _ _ E). split; [reflexivity | split; assumption].
Qed.

Lemma row_dup_loop_spec (cells : list libo_xl_cell) :
  forall (h : heap) (nrow : libo_xl_row),
    heap_wf h -> owns h (cells_ptrs cells) ->
    exists (cells' : list libo_xl_cell) (h' : heap),
      Copy.row_dup_loop cells nrow h
      = Some ((cells', mkRow (row_cell nrow ++ cells)), h') /\
      heap_wf h' /\ preserves (cells_ptrs cells) h h'.
Proof.
  induction cells as [|c cs IH]; intros h nrow Hwf Hown.
  - exists [], h. cbn [Copy.row_dup_loop]. rewrite app_nil_r.
    destruct nrow. split; [reflexivity | split; [exact Hwf | apply preserves_refl]].
  - cbn [cells_ptrs flat_map] in Hown.
    apply owns_app in Hown as (Hc & Hcs & Hdisj).
    destruct (row_add_spec h nrow c Hwf Hc) as (c' & h1 & E1 & Hwf1 & Hp1).
    pose proof (owns_preserved _ _ _ _ Hp1 Hcs Hdisj) as Hcs1.
    destruct (IH h1 (mkRow (row_cell nrow ++ [c])) Hwf1 Hcs1)
      as (cs' & h2 & E2 & Hwf2 & Hp2).
    exists (c' :: cs'), h2. cbn [Copy.row_dup_loop].
    rewrite (bind_ok _ _ _ _ _ E1). cbn [fst snd].
    rewrite (bind_ok _ _ _ _ _ E2). cbn [fst snd row_cell].
    rewrite <- app_assoc. split; [reflexivity | split; [exact Hwf2|]].
    exact (preserves_trans _ _ h h1 h2 Hp1 Hp2).
Qed.

Lemma row_dup_spec (h : heap) (r : libo_xl_row) :
  heap_wf h -> owns h (cells_ptrs (row_cell r)) ->
  exists (r' : libo_xl_row) (h' : heap),
    Copy.libo_xl_row_dup r h = Some ((r', r), h') /\
    heap_wf h' /\ preserves (cells_ptrs (row_cell r)) h h'.
Proof.
  intros Hwf Hown.
  destruct (row_dup_loop_spec (row_cell r) h libo_xl_row_new Hwf Hown)
    as (cells' & h' & E & Hwf' & Hp).
  exists (mkRow cells'), h'. unfold Copy.libo_xl_row_dup.
  rewrite (bind_ok _ _ _ _ _ E). cbn [fst snd libo_xl_row_new row_cell app].
  destruct r. split; [reflexivity | split; assumption].
Qed.

Lemma sheet_add_spec (h : heap) (s : libo_xl_sheet) (r : libo_xl_row) :
  heap_wf h -> owns h (cells_ptrs (row_cell r)) ->
  exists (r' : libo_xl_row) (h' : heap),
    Copy.libo_xl_sheet_add s r h
    = Some ((Copy.with_rows s (sheet_row s ++ [r]), r'), h') /\
    heap_wf h' /\ preserves (cells_ptrs (row_cell r)) h h'.
Proof.
  intros Hwf Hown.
  destruct (row_dup_spec h r Hwf Hown) as (r' & h' & E & Hwf' & Hp).
  exists r', h'. unfold Copy.libo_xl_sheet_add.
  rewrite (bind_ok _ _ _ _ _ E). split; [reflexivity | split; assumption].
Qed.

Lemma sheet_dup_loop_spec (rows : list libo_xl_row) :
  forall (h : heap) (nsheet : libo_xl_sheet),
    heap_wf h -> owns h (rows_ptrs rows) ->
    exists (rows' : list libo_xl_row) (h' : heap),
      Copy.sheet_dup_loop rows nsheet h
      = Some ((rows', Copy.with_rows nsheet (sheet_row nsheet ++ rows)), h') /\
      heap_wf h' /\ preserves (rows_ptrs rows) h h'.
Proof.
  induction rows as [|r rs IH]; intros h nsheet Hwf Hown.
  - exists [], h. cbn [Copy.sheet_dup_loop]. rewrite app_nil_r.
    destruct nsheet. split; [reflexivity | split; [exact Hwf | apply preserves_refl]].
  - cbn [rows_ptrs flat_map] in Hown.
    apply owns_app in Hown as (Hr & Hrs & Hdisj).
    destruct (sheet_add_spec h nsheet r Hwf Hr) as (r' & h1 & E1 & Hwf1 & Hp1).
    pose proof (owns_preserved _ _ _ _ Hp1 Hrs Hdisj) as Hrs1.
    destruct (IH h1 (Copy.with_rows nsheet (sheet_row nsheet ++ [r])) Hwf1 Hrs1)
      as (rs' & h2 & E2 & Hwf2 & Hp2).
    exists (r' :: rs'), h2. cbn [Copy.sheet_dup_loop].
    rewrite (bind_ok _ _ _ _ _ E1). cbn [fst snd].
    rewrite (bind_ok _ _ _ _ _ E2). cbn [fst snd Copy.with_rows sheet_row].
    rewrite <- app_assoc. split; [reflexivity | split; [exact Hwf2|]].
    exact (preserves_trans _ _ h h1 h2 Hp1 Hp2).
Qed.

(** C10. [libo_xl_sheet_dup] carries over the name, the column count, the
    default row height and the rows of its argument, cell for cell as the
    argument held them at the call. In the duplicate the numeric id is 0 and
    the relationship id is null; the freeze descriptor, the column filter and
    the column attributes are those of a new sheet, not the argument's. *)
Theorem C10_sheet_dup_fields (h : heap) (sheet : libo_xl_sheet) :
  heap_wf h -> owns h (sheet_ptrs sheet) ->
  exists (sheet' nsheet : libo_xl_sheet) (h' : heap),
    Copy.libo_xl_sheet_dup sheet h = Some ((sheet', nsheet), h') /\
    sheet_name nsheet = sheet_name sheet /\
    n_cols nsheet = n_cols sheet /\
    default_row_height nsheet = default_row_height sheet /\
    sheet_row nsheet = sheet_row sheet /\
    ID nsheet = 0 /\ rID nsheet = None /\
    sheet_freeze nsheet = mkFreeze libo_xl_freeze_type_none 0 /\
    sheet_filter nsheet = None /\
    sheet_column nsheet = None.
Proof.
  intros Hwf Hown. unfold Copy.libo_xl_sheet_dup.
  match goal with
  | |- context [Copy.sheet_dup_loop _ ?ns] =>
      destruct (sheet_dup_loop_spec (sheet_row sheet) h ns Hwf Hown)
        as (rows' & h' & E & _ & _)
  end.
  eexists _, _, h'. rewrite (bind_ok _ _ _ _ _ E).
  split; [reflexivity|]. repeat split.
Qed.

Lemma sheet_dup_spec (h : heap) (sheet : libo_xl_sheet) :
  heap_wf h -> owns h (sheet_ptrs sheet) ->
  exists (sheet' : libo_xl_sheet) (h' : heap),
    Copy.libo_xl_sheet_dup sheet h
    = Some ((sheet',
             mkSheet (n_cols sheet) (sheet_name sheet) 0 None
                     (default_row_height sheet)
                     (mkFreeze libo_xl_freeze_type_none 0)
                     (sheet_row sheet) None None), h').
Proof.
  intros Hwf Hown. unfold Copy.libo_xl_sheet_dup.
  match goal with
  | |- context [Copy.sheet_dup_loop _ ?ns] =>
      destruct (sheet_dup_loop_spec (sheet_row sheet) h ns Hwf Hown)
        as (rows' & h' & E & _ & _)
  end.
  eexists _, h'. rewrite (bind_ok _ _ _ _ _ E). reflexivity.
Qed.

Lemma C10_sheet_dup_fields_witness :
  exists (sheet' nsheet : libo_xl_sheet) (h' : heap),
    Copy.libo_xl_sheet_dup sample_sheet shared_heap
    = Some ((sheet', nsheet), h') /\
    sheet_name nsheet = sheet_name sample_sheet /\
    n_cols nsheet = n_cols sample_sheet /\
    default_row_height nsheet = default_row_height sample_sheet /\
    sheet_row nsheet = sheet_row sample_sheet /\
    ID nsheet = 0 /\ rID nsheet = None /\
    sheet_freeze nsheet = mkFreeze libo_xl_freeze_type_none 0 /\
    sheet_filter nsheet = None /\
    sheet_column nsheet = None.
Proof.
  apply (C10_sheet_dup_fields shared_heap sample_sheet).
  - closed_heap_wf.
  - closed_owns [1; 2].
Defined.

(** C5. [libo_xl_book_add] on a workbook of [p] sheets puts the copy at
    position [p], gives it the numeric id [p + 1] and the relationship id
    "rId" followed by [p + 4], whatever ids the argument carries, and the
    sheet count goes up by one. *)
Theorem C5_book_add_assigns_ids
    (h : heap) (xlb : libo_xl_book) (xls : libo_xl_sheet) :
  heap_wf h -> owns h (sheet_ptrs xls) -> n_sheets xlb + 4 < two31 ->
  exists (xlb' : libo_xl_book) (xls' d : libo_xl_sheet) (h' : heap),
    Copy.libo_xl_book_add xlb xls h = Some ((xlb', xls'), h') /\
    book_sheet xlb' = book_sheet xlb ++ [d] /\
    libo_xl_book_get_sheet (Some xlb') (n_sheets xlb) = Some d /\
    ID d = n_sheets xlb + 1 /\
    rID d = Some ("rId" ++ sprintf_d (n_sheets xlb + 4))%string /\
    n_sheets xlb' = n_sheets xlb + 1 /\
    sheet_name d = sheet_name xls /\ sheet_row d = sheet_row xls.
Proof.
  intros Hwf Hown Hp.
  destruct (sheet_dup_spec h xls Hwf Hown) as (xls' & h' & E).
  unfold Copy.libo_xl_book_add. rewrite (bind_ok _ _ _ _ _ E).
  cbn [fst snd n_cols sheet_name default_row_height sheet_freeze sheet_row
       sheet_column sheet_filter].
  assert (H0 : 0 <= n_sheets xlb) by (unfold n_sheets; lia).
  rewrite !sint32_id by (unfold in_int, two31 in *; lia).
  eexists _, _, _, _. split; [reflexivity|].
  split; [reflexivity|]. split; [|split; [reflexivity|]].
  - cbn [libo_xl_book_get_sheet book_sheet].
    destruct (n_sheets xlb <? 0) eqn:E1; [apply Z.ltb_lt in E1; lia|].
    unfold n_sheets at 1 2. cbn [book_sheet]. rewrite length_app. cbn [length].
    destruct (_ >=? _) eqn:E2; [apply Z.geb_le in E2; lia|].
    unfold n_sheets. rewrite Nat2Z.id.
    rewrite lookup_app_r by lia. rewrite Nat.sub_diag. reflexivity.
  - split; [reflexivity|]. split; [|split; reflexivity].
    unfold n_sheets. cbn [book_sheet]. rewrite length_app. cbn [length]. lia.
Qed.

Lemma C5_book_add_assigns_ids_witness :
  exists (xlb' : libo_xl_book) (xls' d : libo_xl_sheet) (h' : heap),
    Copy.libo_xl_book_add (mkBook [libo_xl_sheet_new; libo_xl_sheet_new])
      sample_sheet shared_heap = Some ((xlb', xls'), h') /\
    book_sheet xlb' = [libo_xl_sheet_new; libo_xl_sheet_new] ++ [d] /\
    libo_xl_book_get_sheet (Some xlb')
      (n_sheets (mkBook [libo_xl_sheet_new; libo_xl_sheet_new])) = Some d /\
    ID d = n_sheets (mkBook [libo_xl_sheet_new; libo_xl_sheet_new]) + 1 /\
    rID d = Some ("rId" ++ sprintf_d
                    (n_sheets (mkBook [libo_xl_sheet_new; libo_xl_sheet_new]) + 4))%string /\
    n_sheets xlb' = n_sheets (mkBook [libo_xl_sheet_new; libo_xl_sheet_new]) + 1 /\
    sheet_name d = sheet_name sample_sheet /\
    sheet_row d = sheet_row sample_sheet.
Proof.
  apply (C5_book_add_assigns_ids shared_heap
           (mkBook [libo_xl_sheet_new; libo_xl_sheet_new]) sample_sheet).
  - closed_heap_wf.
  - closed_owns [1; 2].
  - vm_compute. reflexivity.
Defined.

(** The third sheet of a workbook gets the id 3 and the relationship id
    "rId6", not the 77 and "rId99" of the argument. *)
Example book_add_third_sheet :
  exists (xlb' : libo_xl_book) (xls' : libo_xl_sheet) (h' : heap),
    Copy.libo_xl_book_add (mkBook [libo_xl_sheet_new; libo_xl_sheet_new])
      sample_sheet shared_heap = Some ((xlb', xls'), h') /\
    (ID <$> book_sheet xlb' !! 2%nat) = Some 3 /\
    (rID <$> book_sheet xlb' !! 2%nat) = Some (Some "rId6"%string).
Proof.
  eexists _, _, _. split; [vm_compute; reflexivity|].
  split; reflexivity.
Qed.

(** ** The string table *)

Lemma find_offset (l : list string_entry) (k z : Z) :
  (forall (i : nat) (e : string_entry), l !! i = Some e -> id e = k + Z.of_nat i) ->
  find (fun e => id e =? z) l
  = if z <? k then None else l !! Z.to_nat (z - k).
Proof.
  revert k. induction l as [|e l IH]; intros k Hid.
  - cbn [find]. destruct (z <? k); [reflexivity|]. symmetry. apply lookup_nil.
  - cbn [find]. pose proof (Hid 0%nat e eq_refl) as He. rewrite Z.add_0_r in He.
    rewrite He. destruct (k =? z) eqn:Ekz.
    + apply Z.eqb_eq in Ekz. subst z. rewrite Z.ltb_irrefl, Z.sub_diag.
      reflexivity.
    + apply Z.eqb_neq in Ekz. rewrite (IH (k + 1)).
      * destruct (z <? k) eqn:E1.
        -- apply Z.ltb_lt in E1.
           destruct (z <? k + 1) eqn:E2; [reflexivity|].
           apply Z.ltb_ge in E2. lia.
        -- apply Z.ltb_ge in E1.
           destruct (z <? k + 1) eqn:E2; [apply Z.ltb_lt in E2; lia|].
           replace (Z.to_nat (z - k)) with (S (Z.to_nat (z - (k + 1)))) by lia.
           reflexivity.
      * intros i e' Hi. rewrite (Hid (S i) e' Hi). lia.
Qed.

Lemma find_by_id_ok (T : strings) (z : Z) :
  table_ok T ->
  strings_find_by_id T z = if z <? 0 then None else entries T !! Z.to_nat z.
Proof.
  intros (_ & Hid & _). unfold strings_find_by_id.
  rewrite (find_offset (entries T) 0 z).
  - rewrite Z.sub_0_r. reflexivity.
  - intros i e Hi. rewrite (Hid i e Hi). lia.
Qed.

Lemma find_by_text_existsb (T : strings) (t : string) :
  existsb (String.eqb t) (map text (entries T))
  = match strings_find_by_text T t with Some _ => true | None => false end.
Proof.
  unfold strings_find_by_text.
  induction (entries T) as [|e l IH]; [reflexivity|].
  cbn [map existsb find]. rewrite (String.eqb_sym t (text e)).
  destruct (String.eqb (text e) t); [reflexivity | exact IH].
Qed.

Lemma find_by_text_Some (T : strings) (t : string) (e : string_entry) :
  strings_find_by_text T t = Some e -> e ∈ entries T /\ text e = t.
Proof.
  intros H. apply find_some in H as [Hin Heq].
  split; [apply list_elem_of_In, Hin | apply String.eqb_eq, Heq].
Qed.

Lemma strings_add_texts (T : strings) (s : string_entry) :
  map text (entries (strings_add T s)) = intern (map text (entries T)) (text s).
Proof.
  unfold strings_add, intern. rewrite find_by_text_existsb.
  destruct (strings_find_by_text T (text s)); [reflexivity|].
  cbn [entries]. rewrite map_app. reflexivity.
Qed.

Lemma strings_add_ok (T : strings) (s : string_entry) :
  table_ok T -> table_ok (strings_add T s).
Proof.
  intros (Hlast & Hid & Hnd). unfold strings_add.
  destruct (strings_find_by_text T (text s)) eqn:E;
    [split; [|split]; assumption|].
  split; [|split]; cbn [last_id entries].
  - rewrite length_app. cbn [length]. lia.
  - intros i e Hi. apply lookup_app_Some in Hi as [Hi | [Hlen Hi]].
    + apply Hid, Hi.
    + apply list_lookup_singleton_Some in Hi as [Hz <-].
      cbn [id]. lia.
  - rewrite map_app. cbn [map]. apply NoDup_app. split; [exact Hnd|].
    split; [|apply NoDup_singleton].
    intros t Ht Hs. apply list_elem_of_singleton in Hs. subst t.
    cbn [text] in Ht.
    pose proof (find_by_text_existsb T (text s)) as Hex. rewrite E in Hex.
    apply list_elem_of_In in Ht.
    assert (Htrue : existsb (String.eqb (text s)) (map text (entries T)) = true).
    { apply existsb_exists. exists (text s). split; [exact Ht|].
      apply String.eqb_refl. }
    congruence.
Qed.

Lemma strings_add_extends (T : strings) (s : string_entry) :
  exists k, entries (strings_add T s) = entries T ++ k.
Proof.
  unfold strings_add. destruct (strings_find_by_text T (text s)).
  - exists []. symmetry. apply app_nil_r.
  - eexists. reflexivity.
Qed.

(** ** The renumbering pass *)

Lemma reference_with_reference (c : libo_xl_cell) (v : Z) :
  in_int v -> reference (with_reference c v) = v.
Proof.
  intros Hv. unfold reference, with_reference. cbn [word0].
  rewrite <- (sint32_id v Hv) at 2. apply sint32_congr.
  unfold cong, uint32.
  pose proof (Z.div_mod (word0 c) two32 ltac:(discriminate)) as Hdm.
  replace (word0 c - word0 c mod two32) with ((word0 c / two32) * two32) by lia.
  rewrite Z.add_comm, Z_mod_plus_full. apply Z.mod_mod. discriminate.
Qed.

Lemma get_text_with_reference (T : strings) (c : libo_xl_cell) (v : Z) :
  cell_type c = libo_xl_cell_type_reference -> in_int v ->
  Text.libo_xl_cell_get_text T (Some (with_reference c v))
  = text <$> strings_find_by_id T v.
Proof.
  intros Ht Hv. unfold Text.libo_xl_cell_get_text.
  cbn [with_reference cell_type].
  destruct (decide _) as [_|Hne]; [|contradiction].
  change (mkCell (cell_type c) (word0 c - uint32 (word0 c) + uint32 v) (word1 c))
    with (with_reference c v).
  rewrite (reference_with_reference c v Hv).
  destruct (strings_find_by_id T v); reflexivity.
Qed.

Lemma get_text_resolved (old : strings) (c : libo_xl_cell) :
  cell_type c = libo_xl_cell_type_reference -> resolves old c ->
  exists f, strings_find_by_id old (reference c) = Some f /\
            Text.libo_xl_cell_get_text old (Some c) = Some (text f).
Proof.
  intros Ht Hres. destruct (Hres Ht) as [f Hf]. exists f.
  split; [exact Hf|]. unfold Text.libo_xl_cell_get_text.
  destruct (decide _) as [_|Hne]; [|contradiction]. rewrite Hf. reflexivity.
Qed.

Lemma get_text_plain (T : strings) (c : libo_xl_cell) :
  cell_type c <> libo_xl_cell_type_reference ->
  Text.libo_xl_cell_get_text T (Some c) = None.
Proof.
  intros Hne. unfold Text.libo_xl_cell_get_text.
  destruct (decide _); [contradiction | reflexivity].
Qed.

(** One pass of the innermost loop, on a cell whose id resolves. *)
Lemma renumber_cell_spec (old : strings) (st : pass) (c : libo_xl_cell) :
  table_ok (fresh st) -> new_id st = last_id (fresh st) ->
  last_id (fresh st) < two31 -> resolves old c ->
  forall (st' : pass) (c' : libo_xl_cell),
    renumber_cell old st c = (st', c') ->
    table_ok (fresh st') /\ new_id st' = last_id (fresh st') /\
    last_id (fresh st') <= last_id (fresh st) + 1 /\
    (exists k, entries (fresh st') = entries (fresh st) ++ k) /\
    map text (entries (fresh st'))
    = fold_left intern (encounter_text old c) (map text (entries (fresh st))) /\
    renumbered old (fresh st') c c'.
Proof.
  intros Hok Hnew Hlt Hres st' c' E.
  destruct (decide (cell_type c = libo_xl_cell_type_reference)) as [Ht|Hne].
  2:{ assert (E' : (st', c') = (st, c)).
      { rewrite <- E. unfold renumber_cell.
        destruct (cell_type c); try reflexivity. exfalso. apply Hne. reflexivity. }
      injection E' as -> ->.
      unfold encounter_text. rewrite (get_text_plain old c Hne).
      split; [exact Hok|]. split; [exact Hnew|]. split; [lia|].
      split; [exists []; symmetry; apply app_nil_r|].
      split; [reflexivity|]. split; [reflexivity|]. split; [reflexivity|].
      rewrite !get_text_plain by exact Hne. reflexivity. }
  destruct (get_text_resolved old c Ht Hres) as (f & Hf & Htext).
  unfold encounter_text. rewrite Htext. cbn [fold_left].
  unfold renumber_cell in E. rewrite Ht, Hf in E.
  pose proof Hok as (Hlast & Hid & Hnd).
  destruct (strings_find_by_text (fresh st) (text f)) as [e|] eqn:Efind.
  - (* the text is in the new table already *)
    injection E as <- <-. cbn [fresh new_id]. unfold string_dup.
    destruct (find_by_text_Some _ _ _ Efind) as [Hin He].
    assert (Hsame : strings_add (fresh st) e = fresh st).
    { unfold strings_add. rewrite He, Efind. reflexivity. }
    rewrite Hsame.
    apply list_elem_of_lookup in Hin as [i Hi].
    pose proof (Hid i e Hi) as Hide.
    pose proof (lookup_lt_Some _ _ _ Hi) as Hilt.
    split; [exact Hok|]. split; [exact Hnew|]. split; [lia|].
    split; [exists []; symmetry; apply app_nil_r|].
    split.
    + rewrite <- Hsame at 1. rewrite strings_add_texts, He. reflexivity.
    + split; [reflexivity|]. split; [intros Hne; contradiction|].
      rewrite get_text_with_reference;
        [|exact Ht | unfold in_int, two31 in *; lia].
      rewrite (find_by_id_ok _ _ Hok).
      destruct (id e <? 0) eqn:E0; [apply Z.ltb_lt in E0; lia|].
      rewrite Hide, Nat2Z.id, Hi. cbn [fmap option_fmap option_map].
      rewrite He, Htext. reflexivity.
  - (* a new text *)
    injection E as <- <-. cbn [fresh new_id]. unfold string_dup.
    pose proof (strings_add_ok (fresh st) f Hok) as Hok'.
    assert (Hadd : strings_add (fresh st) f
                   = mkStrings (last_id (fresh st) + 1)
                       (entries (fresh st)
                        ++ [mkString (text f) (last_id (fresh st))])).
    { unfold strings_add. rewrite Efind. reflexivity. }
    assert (H0 : 0 <= last_id (fresh st)) by lia.
    split; [exact Hok'|]. split.
    { rewrite Hadd. cbn [last_id]. rewrite Hnew.
      apply uint32_id. unfold two31, two32 in *. lia. }
    split; [rewrite Hadd; cbn [last_id]; lia|].
    split; [apply strings_add_extends|].
    split; [apply strings_add_texts|].
    split; [reflexivity|]. split; [intros Hne; contradiction|].
    rewrite get_text_with_reference;
      [|exact Ht | unfold in_int, two31 in *; lia].
    rewrite (find_by_id_ok _ _ Hok').
    destruct (new_id st <? 0) eqn:E0; [apply Z.ltb_lt in E0; lia|].
    rewrite Hadd. cbn [entries]. rewrite Hnew, Hlast, Nat2Z.id.
    rewrite lookup_app_r by lia. rewrite Nat.sub_diag.
    cbn [lookup list_lookup fmap option_fmap option_map text].
    rewrite Htext. reflexivity.
Qed.

(** A cell renumbered against a table stays renumbered when the table
    grows. *)
Lemma renumbered_extends (old T T' : strings) (k : list string_entry)
    (c c' : libo_xl_cell) :
  table_ok T -> table_ok T' -> entries T' = entries T ++ k ->
  resolves old c -> renumbered old T c c' -> renumbered old T' c c'.
Proof.
  intros Hok Hok' Hext Hres (Ht & Hplain & Htext).
  split; [exact Ht|]. split; [exact Hplain|].
  destruct (decide (cell_type c = libo_xl_cell_type_reference)) as [Hr|Hne].
  - destruct (get_text_resolved old c Hr Hres) as (f & _ & Hold).
    rewrite Hold in Htext |- *.
    unfold Text.libo_xl_cell_get_text in Htext |- *.
    destruct (decide _) as [_|Hn]; [|discriminate Htext].
    rewrite (find_by_id_ok _ _ Hok) in Htext. rewrite (find_by_id_ok _ _ Hok').
    destruct (reference c' <? 0); [discriminate Htext|].
    destruct (entries T !! Z.to_nat (reference c')) as [e|] eqn:Ee;
      [|discriminate Htext].
    rewrite Hext, (lookup_app_l_Some _ _ _ _ Ee). exact Htext.
  - rewrite (Hplain Hne). rewrite !get_text_plain by exact Hne. reflexivity.
Qed.

Lemma renumber_cells_spec (old : strings) (cells : list libo_xl_cell) :
  forall st : pass,
    table_ok (fresh st) -> new_id st = last_id (fresh st) ->
    last_id (fresh st) + Z.of_nat (length cells) <= two31 ->
    Forall (resolves old) cells ->
    forall (st' : pass) (cells' : list libo_xl_cell),
      renumber_cells old st cells = (st', cells') ->
      table_ok (fresh st') /\ new_id st' = last_id (fresh st') /\
      last_id (fresh st') <= last_id (fresh st) + Z.of_nat (length cells) /\
      (exists k, entries (fresh st') = entries (fresh st) ++ k) /\
      map text (entries (fresh st'))
      = fold_left intern (encounter_texts old cells)
                  (map text (entries (fresh st))) /\
      Forall2 (renumbered old (fresh st')) cells cells'.
Proof.
  induction cells as [|c cs IH]; intros st Hok Hnew Hlt Hres st' cells' E.
  - cbn in E. injection E as <- <-.
    split; [exact Hok|]. split; [exact Hnew|]. split; [cbn [length]; lia|].
    split; [exists []; symmetry; apply app_nil_r|].
    split; [reflexivity | constructor].
  - cbn [renumber_cells] in E.
    destruct (renumber_cell old st c) as [st1 c1] eqn:E1.
    destruct (renumber_cells old st1 cs) as [st2 cs2] eqn:E2.
    injection E as <- <-.
    apply Forall_cons in Hres as [Hc Hcs].
    cbn [length] in Hlt.
    destruct (renumber_cell_spec old st c Hok Hnew ltac:(lia) Hc st1 c1 E1)
      as (Hok1 & Hnew1 & Hlast1 & (k1 & Hext1) & Htexts1 & Hren1).
    destruct (IH st1 Hok1 Hnew1 ltac:(lia) Hcs st2 cs2 E2)
      as (Hok2 & Hnew2 & Hlast2 & (k2 & Hext2) & Htexts2 & Hren2).
    split; [exact Hok2|]. split; [exact Hnew2|].
    split; [cbn [length]; lia|].
    split; [exists (k1 ++ k2); rewrite Hext2, Hext1, app_assoc; reflexivity|].
    split.
    + cbn [encounter_texts flat_map]. rewrite fold_left_app, <- Htexts1.
      exact Htexts2.
    + constructor; [|exact Hren2].
      exact (renumbered_extends old _ _ k2 c c1 Hok1 Hok2 Hext2 Hc Hren1).
Qed.

(** The three nested loops walk the cells in document order. *)
Lemma renumber_cells_app (old : strings) (a b : list libo_xl_cell) (st : pass) :
  renumber_cells old st (a ++ b)
  = (let '(st1, a') := renumber_cells old st a in
     let '(st2, b') := renumber_cells old st1 b in
     (st2, a' ++ b')).
Proof.
  revert st. induction a as [|c a IH]; intros st.
  - cbn. destruct (renumber_cells old st b). reflexivity.
  - cbn [app renumber_cells]. destruct (renumber_cell old st c) as [st1 c1].
    rewrite IH. destruct (renumber_cells old st1 a) as [st2 a'].
    destruct (renumber_cells old st2 b) as [st3 b']. reflexivity.
Qed.

Lemma pointees_pointers {A : Type} (l : list A) : pointees (pointers l) = l.
Proof.
  unfold pointees, pointers. induction l as [|a l IH]; [reflexivity|].
  cbn [map omap]. cbn. f_equal. exact IH.
Qed.

(** On arrays without a null pointer the walk runs to its end, over the
    cells in document order. *)
Lemma renumber_rows_flat (old : strings) (rows : list libo_xl_row) (st : pass) :
  exists (st' : pass) (rows' : list libo_xl_row),
    renumber_rows old st (pointers rows) = (true, st', pointers rows') /\
    renumber_cells old st (flat_map row_cell rows)
    = (st', flat_map row_cell rows').
Proof.
  unfold pointers. revert st. induction rows as [|r rows IH]; intros st.
  - exists st, []. split; reflexivity.
  - cbn [map renumber_rows flat_map]. rewrite renumber_cells_app.
    destruct (renumber_cells old st (row_cell r)) as [st1 cells].
    destruct (IH st1) as (st2 & rows' & E2 & F2). rewrite E2, F2.
    exists st2, (mkRow cells :: rows'). split; reflexivity.
Qed.

Lemma renumber_sheets_flat (old : strings) (sheets : list libo_xl_sheet)
    (st : pass) :
  exists (st' : pass) (sheets' : list libo_xl_sheet),
    renumber_sheets old st (arrays_of (mkBook sheets))
    = (true, st', arrays_of (mkBook sheets')) /\
    renumber_cells old st (doc_cells sheets) = (st', doc_cells sheets') /\
    with_arrays (mkBook sheets) (arrays_of (mkBook sheets')) = mkBook sheets'.
Proof.
  revert st. induction sheets as [|s sheets IH]; intros st.
  - exists st, []. split; [|split]; reflexivity.
  - destruct (renumber_rows_flat old (sheet_row s) st) as (st1 & rows & E1 & F1).
    destruct (IH st1) as (st2 & sheets' & E2 & F2 & Z2).
    exists st2, (Copy.with_rows s rows :: sheets'). split; [|split].
    + change (arrays_of (mkBook (s :: sheets)))
        with (Some (pointers (sheet_row s)) :: arrays_of (mkBook sheets)).
      cbn [renumber_sheets]. rewrite E1, E2. reflexivity.
    + unfold doc_cells in *. cbn [flat_map Copy.with_rows sheet_row].
      rewrite renumber_cells_app, F1, F2. reflexivity.
    + unfold with_arrays, arrays_of in *. cbn [book_sheet] in *.
      rewrite pointees_pointers in *. injection Z2 as Z2.
      cbn [map zip_with]. rewrite Z2, pointees_pointers. reflexivity.
Qed.

Lemma table_ok_new : table_ok strings_new.
Proof. split; [reflexivity|]. split; [intros i e H; inversion H | constructor]. Qed.

Lemma renumbered_resolves (old T : strings) (c c' : libo_xl_cell) :
  resolves old c -> renumbered old T c c' -> resolves T c'.
Proof.
  intros Hres (Ht & _ & Htext) Hr'. rewrite Ht in Hr'.
  destruct (get_text_resolved old c Hr' Hres) as (f & _ & Hold).
  rewrite Hold in Htext. unfold Text.libo_xl_cell_get_text in Htext.
  destruct (decide _) as [_|Hn]; [|discriminate Htext].
  destruct (strings_find_by_id T (reference c')) as [e|];
    [eexists; reflexivity | discriminate Htext].
Qed.

(** In a table that satisfies the invariant, two Reference cells that read
    the same text hold the same id. *)
Lemma same_text_same_id (T : strings) (c1 c2 : libo_xl_cell) (t : string) :
  table_ok T ->
  Text.libo_xl_cell_get_text T (Some c1) = Some t ->
  Text.libo_xl_cell_get_text T (Some c2) = Some t ->
  reference c1 = reference c2.
Proof.
  intros Hok H1 H2. pose proof Hok as (_ & _ & Hnd).
  unfold Text.libo_xl_cell_get_text in H1, H2.
  destruct (decide _) as [_|?]; [|discriminate H1].
  destruct (decide _) as [_|?]; [|discriminate H2].
  rewrite (find_by_id_ok _ _ Hok) in H1. rewrite (find_by_id_ok _ _ Hok) in H2.
  destruct (reference c1 <? 0) eqn:E1; [discriminate H1|].
  destruct (reference c2 <? 0) eqn:E2; [discriminate H2|].
  apply Z.ltb_ge in E1, E2.
  destruct (entries T !! Z.to_nat (reference c1)) as [e1|] eqn:L1;
    [|discriminate H1].
  destruct (entries T !! Z.to_nat (reference c2)) as [e2|] eqn:L2;
    [|discriminate H2].
  injection H1 as H1. injection H2 as H2.
  assert (Heq : Z.to_nat (reference c1) = Z.to_nat (reference c2)).
  { apply (NoDup_lookup (map text (entries T)) _ _ t Hnd);
      rewrite list_lookup_fmap; [rewrite L1 | rewrite L2]; cbn; congruence. }
  lia.
Qed.

(** C2, as the code has it. When every Reference cell of the document
    refers to an entry of the table before the pass, then after
    [libo_xl_renumber_strings] every cell reads the text it read before, so
    every Reference cell's id resolves in the new table; the entry inserted
    [i]-th has the id [i] and the ids are exactly 0 .. N-1; the texts of the
    table are those of the Reference cells in the order in which the walk
    over sheets, rows and cells meets each first; no text occurs twice, and
    cells with equal text hold equal ids. *)
Theorem C2_renumber_resolves_dense
    (l : libo) (b : libo_xl_book) (old : strings) :
  type l = libo_type_xl -> xl l = Some (mkXl (Some b) (Some old)) ->
  Forall (resolves old) (doc_cells (book_sheet b)) ->
  Z.of_nat (length (doc_cells (book_sheet b))) < two31 ->
  exists (b' : libo_xl_book) (T : strings),
    libo_xl_renumber_strings l
    = mkLibo (path l) (type l) (Some (mkXl (Some b') (Some T))) /\
    Forall2 (renumbered old T) (doc_cells (book_sheet b))
            (doc_cells (book_sheet b')) /\
    Forall (resolves T) (doc_cells (book_sheet b')) /\
    (forall (i : nat) (e : string_entry),
        entries T !! i = Some e -> id e = Z.of_nat i) /\
    (forall z : Z, is_Some (strings_find_by_id T z)
                   <-> 0 <= z < Z.of_nat (length (entries T))) /\
    map text (entries T)
    = first_seen (encounter_texts old (doc_cells (book_sheet b))) /\
    NoDup (map text (entries T)) /\
    (forall (c1 c2 : libo_xl_cell) (t : string),
        c1 ∈ doc_cells (book_sheet b') -> c2 ∈ doc_cells (book_sheet b') ->
        Text.libo_xl_cell_get_text T (Some c1) = Some t ->
        Text.libo_xl_cell_get_text T (Some c2) = Some t ->
        reference c1 = reference c2).
Proof.
  intros Ht Hx Hres Hlen. unfold libo_xl_renumber_strings.
  rewrite Ht, Hx. cbn [xl_strings book].
  destruct b as [bs]. cbn [book_sheet] in *.
  destruct (renumber_sheets_flat old bs (mkPass 0 strings_new))
    as (st & sheets & E & Hflat & Hz).
  unfold renumber_arrays. rewrite E, Hz.
  destruct (renumber_cells_spec old (doc_cells bs)
              (mkPass 0 strings_new) table_ok_new eq_refl
              ltac:(cbn [fresh last_id strings_new]; lia) Hres
              st (doc_cells sheets) Hflat)
    as (Hok & _ & _ & _ & Htexts & Hren).
  exists (mkBook sheets), (fresh st). rewrite <- Ht.
  split; [reflexivity|]. cbn [book_sheet].
  split; [exact Hren|]. split.
  { clear -Hres Hren. induction Hren as [|c c' cs cs' Hc Hcs IH]; [constructor|].
    apply Forall_cons in Hres as [Hrc Hrcs].
    constructor; [exact (renumbered_resolves old _ c c' Hrc Hc) | apply IH, Hrcs]. }
  pose proof Hok as (Hlast & Hid & Hnd).
  split; [exact Hid|]. split.
  { intros z. rewrite (find_by_id_ok _ _ Hok).
    destruct (z <? 0) eqn:Ez.
    - apply Z.ltb_lt in Ez. split; [intros [? H]; discriminate H | lia].
    - apply Z.ltb_ge in Ez. rewrite lookup_lt_is_Some. lia. }
  split; [exact Htexts|]. split; [exact Hnd|].
  intros c1 c2 t _ _. apply (same_text_same_id _ _ _ _ Hok).
Qed.

Lemma C2_renumber_resolves_dense_witness :
  exists (b' : libo_xl_book) (T : strings),
    libo_xl_renumber_strings two_sheet_doc
    = mkLibo (path two_sheet_doc) (type two_sheet_doc)
             (Some (mkXl (Some b') (Some T))) /\
    Forall2 (renumbered (mkStrings 2 [mkString "a" 0; mkString "b" 1]) T)
            [mkCell libo_xl_cell_type_reference 1 0;
             mkCell libo_xl_cell_type_number 4631107791820423168 0;
             mkCell libo_xl_cell_type_reference 0 0;
             mkCell libo_xl_cell_type_reference 1 0]
            (doc_cells (book_sheet b')) /\
    Forall (resolves T) (doc_cells (book_sheet b')) /\
    (forall (i : nat) (e : string_entry),
        entries T !! i = Some e -> id e = Z.of_nat i) /\
    (forall z : Z, is_Some (strings_find_by_id T z)
                   <-> 0 <= z < Z.of_nat (length (entries T))) /\
    map text (entries T) = ["b"; "a"]%string /\
    NoDup (map text (entries T)) /\
    (forall (c1 c2 : libo_xl_cell) (t : string),
        c1 ∈ doc_cells (book_sheet b') -> c2 ∈ doc_cells (book_sheet b') ->
        Text.libo_xl_cell_get_text T (Some c1) = Some t ->
        Text.libo_xl_cell_get_text T (Some c2) = Some t ->
        reference c1 = reference c2).
Proof.
  apply (C2_renumber_resolves_dense two_sheet_doc
           (mkBook
              [Copy.with_rows libo_xl_sheet_new
                 [mkRow [mkCell libo_xl_cell_type_reference 1 0;
                         mkCell libo_xl_cell_type_number 4631107791820423168 0]];
               Copy.with_rows libo_xl_sheet_new
                 [mkRow [mkCell libo_xl_cell_type_reference 0 0];
                  mkRow [mkCell libo_xl_cell_type_reference 1 0]]])
           (mkStrings 2 [mkString "a" 0; mkString "b" 1])).
  - reflexivity.
  - reflexivity.
  - repeat constructor; intros _; eexists; vm_compute; reflexivity.
  - vm_compute. reflexivity.
Defined.

(** The pass on [two_sheet_doc]: "b" is met first and becomes entry 0, "a"
    becomes entry 1, and the two cells that read "b", on different sheets,
    both hold 0. *)
Example renumber_two_sheets :
  libo_xl_renumber_strings two_sheet_doc
  = mkLibo None libo_type_xl
      (Some (mkXl
         (Some (mkBook
            [Copy.with_rows libo_xl_sheet_new
               [mkRow [mkCell libo_xl_cell_type_reference 0 0;
                       mkCell libo_xl_cell_type_number 4631107791820423168 0]];
             Copy.with_rows libo_xl_sheet_new
               [mkRow [mkCell libo_xl_cell_type_reference 1 0];
                mkRow [mkCell libo_xl_cell_type_reference 0 0]]]))
         (Some (mkStrings 2 [mkString "b" 0; mkString "a" 1])))).
Proof. vm_compute. reflexivity. Qed.

(** C2, as stated, fails: a Reference cell whose id is in no entry of the
    table has no text to intern. After the pass on [dangling_doc] the cell
    holds the id 0 and the new table is empty. *)
Lemma C2_dangling_reference_unresolved :
  exists (b' : libo_xl_book) (T : strings),
    libo_xl_renumber_strings dangling_doc
    = mkLibo None libo_type_xl (Some (mkXl (Some b') (Some T))) /\
    doc_cells (book_sheet b') = [mkCell libo_xl_cell_type_reference 0 0] /\
    entries T = [] /\
    ~ Forall (resolves T) (doc_cells (book_sheet b')).
Proof.
  eexists _, _. split; [vm_compute; reflexivity|].
  split; [reflexivity|]. split; [reflexivity|].
  intros H. apply Forall_cons in H as [H _].
  destruct (H eq_refl) as [e He]. vm_compute in He. discriminate He.
Qed.

(** The counter [new_id] also advances on such a cell, so the cells after
    it are numbered one too high: on [dangling_then_text_doc] the second
    cell, which read "a", ends with the id 1 while "a" is entry 0. *)
Example renumber_after_dangling :
  libo_xl_renumber_strings dangling_then_text_doc
  = mkLibo None libo_type_xl
      (Some (mkXl
         (Some (one_sheet [mkCell libo_xl_cell_type_reference 0 0;
                           mkCell libo_xl_cell_type_reference 1 0]))
         (Some (mkStrings 1 [mkString "a" 0])))).
Proof. vm_compute. reflexivity. Qed.

(** The walk at a null pointer. At a null element of [sheet->row] the
    function returns: the rows before it are rewritten, the element and what
    follows it are left, and the walk is not finished. *)
Lemma renumber_rows_null (old : strings) (before : list libo_xl_row)
    (after : row_array) (st : pass) :
  exists (st' : pass) (before' : list libo_xl_row),
    renumber_rows old st (pointers before ++ None :: after)
    = (false, st', pointers before' ++ None :: after) /\
    renumber_cells old st (flat_map row_cell before)
    = (st', flat_map row_cell before').
Proof.
  unfold pointers. revert st. induction before as [|r rows IH]; intros st.
  - exists st, []. split; reflexivity.
  - cbn [map app renumber_rows flat_map]. rewrite renumber_cells_app.
    destruct (renumber_cells old st (row_cell r)) as [st1 cells].
    destruct (IH st1) as (st2 & rows' & E2 & F2). rewrite E2, F2.
    exists st2, (mkRow cells :: rows'). split; reflexivity.
Qed.

(** On [null_row_arrays] the pass renumbers the first sheet and the first
    row of the second, returns at the null row, and leaves the table of the
    document in place: the two cells before the null row now hold the ids 0
    and 1 of a table that was never installed, and read "a" and "b" where
    they read "b" and "a" before. *)
Example renumber_stops_at_null_row :
  renumber_arrays table_ab null_row_arrays
  = ([Some [Some (mkRow [mkCell libo_xl_cell_type_reference 0 0])];
      Some [Some (mkRow [mkCell libo_xl_cell_type_reference 1 0]);
            None;
            Some (mkRow [mkCell libo_xl_cell_type_reference 1 0])];
      Some [Some (mkRow [mkCell libo_xl_cell_type_reference 1 0])]],
     table_ab).
Proof. vm_compute. reflexivity. Qed.

(** ** The reader's grid *)

Lemma alloc_spec (h : heap) (s : string) :
  heap_wf h ->
  exists h', alloc s h = Some (next h, h') /\ heap_wf h' /\
             blocks h ⊆ blocks h' /\ blocks h' !! next h = Some s.
Proof.
  intros [Hpos Hwf].
  exists (mkHeap (<[next h := s]> (blocks h)) (next h + 1)).
  split; [reflexivity|].
  assert (Hfresh : blocks h !! next h = None).
  { destruct (blocks h !! next h) as [s'|] eqn:E; [|reflexivity].
    specialize (Hwf (next h) (ex_intro _ s' E)). lia. }
  split; [|split].
  - split; cbn [next blocks]; [lia|]. intros p [s' Hp]. cbn [blocks] in Hp.
    destruct (decide (next h = p)) as [<-|Hne]; [lia|].
    rewrite lookup_insert_ne in Hp by exact Hne.
    specialize (Hwf p (ex_intro _ s' Hp)). lia.
  - cbn [blocks]. apply insert_subseteq, Hfresh.
  - cbn [blocks]. apply lookup_insert_eq.
Qed.

Lemma is_gap_mono (h h' : heap) (c : libo_xl_cell) :
  blocks h ⊆ blocks h' -> is_gap h c -> is_gap h' c.
Proof.
  intros Hsub (Ht & Hf & Hv). split; [exact Ht|]. split; [exact Hf|].
  exact (lookup_weaken _ _ _ _ Hv Hsub).
Qed.

Lemma cell_at_spec (cells : list libo_xl_cell) (p : nat) (c : libo_xl_cell)
    (h : heap) :
  cells !! p = Some c -> cell_at cells (Z.of_nat p) h = Some (c, h).
Proof.
  intros Hc. unfold cell_at.
  destruct (Z.of_nat p <? 0) eqn:E; [apply Z.ltb_lt in E; lia|].
  rewrite Nat2Z.id, Hc. reflexivity.
Qed.

(** The filling loops turn [count] new cells, from the column [j] on, into
    gap cells and touch no other. *)
Lemma fill_loop_spec (count : nat) :
  forall (j : nat) (cells : list libo_xl_cell) (h : heap),
    heap_wf h ->
    (forall p, (j <= p < j + count)%nat -> cells !! p = Some libo_xl_cell_new) ->
    exists (cells' : list libo_xl_cell) (h' : heap),
      fill_loop count (Z.of_nat j) cells h = Some (cells', h') /\
      heap_wf h' /\ blocks h ⊆ blocks h' /\
      length cells' = length cells /\
      (forall p, (p < j \/ j + count <= p)%nat -> cells' !! p = cells !! p) /\
      (forall p, (j <= p < j + count)%nat ->
                 exists c, cells' !! p = Some c /\ is_gap h' c).
Proof.
  induction count as [|k IH]; intros j cells h Hwf Hnew.
  - exists cells, h. split; [reflexivity|]. split; [exact Hwf|].
    split; [reflexivity|]. split; [reflexivity|].
    split; [reflexivity|]. intros p Hp. lia.
  - cbn [fill_loop].
    rewrite (bind_ok _ _ h h libo_xl_cell_new
               (cell_at_spec cells j _ h (Hnew j ltac:(lia)))).
    destruct (alloc_spec h EmptyString Hwf) as (h1 & E1 & Hwf1 & Hsub1 & Hp1).
    rewrite (bind_ok _ _ _ _ _ E1).
    set (gap := with_expression _ _).
    assert (Hlt : (j < length cells)%nat)
      by (apply (lookup_lt_Some cells j libo_xl_cell_new), Hnew; lia).
    destruct (IH (S j) (store_cell cells (Z.of_nat j) gap) h1 Hwf1)
      as (cells' & h' & E & Hwf' & Hsub & Hlen & Hout & Hin).
    { intros p Hp. unfold store_cell. rewrite Nat2Z.id.
      rewrite list_lookup_insert_ne by lia. apply Hnew. lia. }
    replace (Z.of_nat j + 1) with (Z.of_nat (S j)) by lia.
    exists cells', h'. split; [exact E|]. split; [exact Hwf'|].
    split; [etransitivity; eassumption|].
    split; [rewrite Hlen; unfold store_cell; apply length_insert|].
    split.
    + intros p Hp. rewrite Hout by lia. unfold store_cell. rewrite Nat2Z.id.
      apply list_lookup_insert_ne. lia.
    + intros p Hp. destruct (decide (p = j)) as [->|Hne].
      * exists gap. split.
        -- rewrite Hout by lia. unfold store_cell. rewrite Nat2Z.id.
           apply list_lookup_insert_eq. exact Hlt.
        -- apply (is_gap_mono h1 h' gap Hsub).
           subst gap. split; [reflexivity|]. split; [reflexivity|]. exact Hp1.
      * apply Hin. lia.
Qed.

Section Materialise.

Variable atof : string -> double.

Lemma read_expression_spec (ns : list xml_child) :
  forall (cell : libo_xl_cell) (h : heap),
    heap_wf h ->
    exists (cell' : libo_xl_cell) (h' : heap),
      read_expression cell ns h = Some (cell', h') /\
      heap_wf h' /\ blocks h ⊆ blocks h' /\ cell_type cell' = cell_type cell.
Proof.
  induction ns as [|n ns IH]; intros cell h Hwf.
  - exists cell, h. split; [reflexivity|]. split; [exact Hwf|].
    split; reflexivity.
  - cbn [read_expression].
    destruct (child_is_element n); [|apply IH, Hwf].
    destruct (String.eqb (child_name n) "f").
    + destruct (alloc_spec h (child_content n) Hwf) as (h1 & E1 & Hwf1 & Hsub1 & _).
      rewrite (bind_ok _ _ _ _ _ E1).
      destruct (IH (with_expression cell
                      (mkExpression (next h) (value (expression cell)))) h1 Hwf1)
        as (cell' & h' & E & Hwf' & Hsub & Ht).
      exists cell', h'. split; [exact E|]. split; [exact Hwf'|].
      split; [etransitivity; eassumption | exact Ht].
    + destruct (String.eqb (child_name n) "v"); [|apply IH, Hwf].
      destruct (alloc_spec h (child_content n) Hwf) as (h1 & E1 & Hwf1 & Hsub1 & _).
      rewrite (bind_ok _ _ _ _ _ E1).
      destruct (IH (with_expression cell
                      (mkExpression (formula (expression cell)) (next h))) h1 Hwf1)
        as (cell' & h' & E & Hwf' & Hsub & Ht).
      exists cell', h'. split; [exact E|]. split; [exact Hwf'|].
      split; [etransitivity; eassumption | exact Ht].
Qed.

Lemma fold_read_reference_type (ns : list xml_child) (cell : libo_xl_cell) :
  cell_type (fold_left read_reference ns cell) = cell_type cell.
Proof.
  revert cell. induction ns as [|n ns IH]; intros cell; [reflexivity|].
  cbn [fold_left]. rewrite IH. unfold read_reference.
  destruct (_ && _); reflexivity.
Qed.

Lemma fold_read_number_type (ns : list xml_child) (cell : libo_xl_cell) :
  cell_type (fold_left (read_number atof) ns cell) = cell_type cell.
Proof.
  revert cell. induction ns as [|n ns IH]; intros cell; [reflexivity|].
  cbn [fold_left]. rewrite IH. unfold read_number.
  destruct (_ && _); reflexivity.
Qed.

Lemma read_cell_spec (node2 : xml_cell) (cell : libo_xl_cell) (h : heap) :
  heap_wf h ->
  exists (cell' : libo_xl_cell) (h' : heap),
    read_cell atof node2 cell h = Some (cell', h') /\
    heap_wf h' /\ blocks h ⊆ blocks h' /\
    cell_type cell' = declared_type node2.
Proof.
  intros Hwf. unfold read_cell. fold (declared_type node2).
  destruct (declared_type node2) eqn:Et.
  - eexists _, h. split; [reflexivity|]. split; [exact Hwf|].
    split; reflexivity.
  - eexists _, h. split; [reflexivity|]. split; [exact Hwf|].
    split; [reflexivity|]. apply fold_read_reference_type.
  - destruct (read_expression_spec (node_children node2)
                (with_type cell libo_xl_cell_type_expression) h Hwf)
      as (cell' & h' & E & Hwf' & Hsub & Ht).
    exists cell', h'. split; [exact E|]. split; [exact Hwf'|].
    split; [exact Hsub | exact Ht].
  - eexists _, h. split; [reflexivity|]. split; [exact Hwf|].
    split; [reflexivity|]. apply fold_read_number_type.
Qed.

(** The loop over the children of a sparse row, entered at the cursor [j]
    with the cells from [j] on still new. *)
Lemma row_loop_spec (n : nat) (children : list xml_cell) :
  forall (j : nat) (cells : list libo_xl_cell) (h : heap),
    heap_wf h -> length cells = n -> (j <= n)%nat ->
    Forall (fun nd => node_name nd = "c"%string) children ->
    ascending (Z.of_nat j) (map col_of children) (Z.of_nat n) ->
    (forall p, (j <= p < n)%nat -> cells !! p = Some libo_xl_cell_new) ->
    exists (j' : nat) (cells' : list libo_xl_cell) (h' : heap),
      row_loop atof (Z.of_nat n) children (Z.of_nat j) cells h
      = Some ((Z.of_nat j', cells'), h') /\
      heap_wf h' /\ blocks h ⊆ blocks h' /\ length cells' = n /\
      (j <= j' <= n)%nat /\
      (forall p, (p < j)%nat -> cells' !! p = cells !! p) /\
      (forall p, (j' <= p < n)%nat -> cells' !! p = Some libo_xl_cell_new) /\
      (forall p, (j <= p < j')%nat -> Z.of_nat p ∉ map col_of children ->
                 exists c, cells' !! p = Some c /\ is_gap h' c) /\
      (forall nd, nd ∈ children ->
                  (Z.to_nat (col_of nd) < j')%nat /\
                  exists c, cells' !! Z.to_nat (col_of nd) = Some c /\
                            cell_type c = declared_type nd).
Proof.
  induction children as [|nd rest IH];
    intros j cells h Hwf Hlen Hjn Hnames Hasc Hnew.
  - exists j, cells, h. split; [reflexivity|]. split; [exact Hwf|].
    split; [reflexivity|]. split; [exact Hlen|]. split; [lia|].
    split; [reflexivity|]. split; [exact Hnew|].
    split; [intros p Hp; lia|]. intros nd' Hin. inversion Hin.
  - cbn [map ascending] in Hasc. destruct Hasc as [Hcol Hasc].
    apply Forall_cons in Hnames as [Hname Hnames].
    set (cn := Z.to_nat (col_of nd)).
    assert (Hcn : col_of nd = Z.of_nat cn) by lia.
    rewrite Hcn in Hasc.
    (* the cells skipped before the declared one *)
    destruct (fill_loop_spec (cn - j) j cells h Hwf)
      as (cells1 & h1 & E1 & Hwf1 & Hsub1 & Hlen1 & Hout1 & Hin1).
    { intros p Hp. apply Hnew. lia. }
    (* the declared cell *)
    assert (Hat : cells1 !! cn = Some libo_xl_cell_new).
    { rewrite Hout1 by lia. apply Hnew. lia. }
    destruct (read_cell_spec nd libo_xl_cell_new h1 Hwf1)
      as (cell' & h2 & E2 & Hwf2 & Hsub2 & Htype).
    set (cells2 := store_cell cells1 (Z.of_nat cn) cell').
    assert (Hlen2 : length cells2 = n).
    { unfold cells2, store_cell. rewrite length_insert. lia. }
    assert (Hget2 : forall p, p <> cn -> cells2 !! p = cells1 !! p).
    { intros p Hp. unfold cells2, store_cell. rewrite Nat2Z.id.
      apply list_lookup_insert_ne. lia. }
    assert (Hown2 : cells2 !! cn = Some cell').
    { unfold cells2, store_cell. rewrite Nat2Z.id.
      apply list_lookup_insert_eq. lia. }
    (* the rest of the row *)
    destruct (IH (S cn) cells2 h2 Hwf2 Hlen2 ltac:(lia) Hnames)
      as (j' & cells' & h' & E3 & Hwf' & Hsub3 & Hlen' & Hj' & Hlow & Hhigh
          & Hgap & Hdecl).
    { replace (Z.of_nat (S cn)) with (Z.of_nat cn + 1) by lia. exact Hasc. }
    { intros p Hp. rewrite Hget2 by lia. rewrite Hout1 by lia. apply Hnew. lia. }
    exists j', cells', h'. split.
    { cbn [row_loop].
      destruct (Z.of_nat j <? Z.of_nat n) eqn:Ejn; [|apply Z.ltb_ge in Ejn; lia].
      rewrite Hname, String.eqb_refl. fold (col_of nd). rewrite Hcn.
      replace (Z.to_nat (Z.of_nat cn - Z.of_nat j)) with (cn - j)%nat by lia.
      lazymatch goal with
      | |- bind ?m ?k h = _ =>
          assert (Einner : m h = Some ((Z.of_nat cn, cells2), h2))
      end.
      { rewrite (bind_ok _ _ _ _ _ E1). cbv zeta.
        rewrite Z.max_r by lia.
        rewrite (bind_ok _ _ _ _ _ (cell_at_spec cells1 cn _ h1 Hat)).
        rewrite (bind_ok _ _ _ _ _ E2). reflexivity. }
      rewrite (bind_ok _ _ _ _ _ Einner). cbn [fst snd].
      replace (Z.of_nat cn + 1) with (Z.of_nat (S cn)) by lia. exact E3. }
    split; [exact Hwf'|].
    split; [etransitivity; [exact Hsub1|]; etransitivity; eassumption|].
    split; [exact Hlen'|]. split; [lia|].
    split.
    { intros p Hp. rewrite Hlow by lia. rewrite Hget2 by lia.
      apply Hout1. lia. }
    split; [exact Hhigh|].
    split.
    { intros p Hp Hnotin. cbn [map] in Hnotin.
      apply not_elem_of_cons in Hnotin as [Hne Hnotin].
      assert (Hpc : p <> cn) by (intros ->; apply Hne; symmetry; exact Hcn).
      destruct (le_lt_dec cn p) as [Hge|Hlt].
      - apply Hgap; [lia | exact Hnotin].
      - destruct (Hin1 p ltac:(lia)) as (c & Hc & Hg).
        exists c. split.
        + rewrite Hlow by lia. rewrite Hget2 by exact Hpc. exact Hc.
        + apply (is_gap_mono h1 h' c); [|exact Hg].
          etransitivity; eassumption. }
    intros nd' Hin. apply elem_of_cons in Hin as [->|Hin].
    + fold cn. split; [lia|]. exists cell'. split; [|exact Htype].
      rewrite Hlow by lia. exact Hown2.
    + apply Hdecl, Hin.
Qed.

Lemma read_row_spec (n : nat) (node : xml_row) (row : libo_xl_row) (h : heap) :
  heap_wf h -> row_cell row = replicate n libo_xl_cell_new ->
  sparse_row (Z.of_nat n) node ->
  exists (r : libo_xl_row) (h' : heap),
    read_row atof (Z.of_nat n) node row h = Some (r, h') /\
    heap_wf h' /\ blocks h ⊆ blocks h' /\ materialised n h' node r.
Proof.
  intros Hwf Hrow [Hnames Hasc].
  destruct (row_loop_spec n (row_children node) 0 (row_cell row) h Hwf)
    as (j' & cells1 & h1 & E1 & Hwf1 & Hsub1 & Hlen1 & Hj' & _ & Hhigh
        & Hgap & Hdecl);
    [rewrite Hrow; apply length_replicate | lia | exact Hnames | exact Hasc | |].
  { intros p Hp. rewrite Hrow. apply lookup_replicate_2. lia. }
  destruct (fill_loop_spec (n - j') j' cells1 h1 Hwf1)
    as (cells2 & h2 & E2 & Hwf2 & Hsub2 & Hlen2 & Hout2 & Hin2).
  { intros p Hp. apply Hhigh. lia. }
  exists (mkRow cells2), h2. split.
  { unfold read_row. change 0 with (Z.of_nat 0).
    rewrite (bind_ok _ _ _ _ _ E1). cbn [fst snd].
    replace (Z.to_nat (Z.of_nat n - Z.of_nat j')) with (n - j')%nat by lia.
    rewrite (bind_ok _ _ _ _ _ E2). reflexivity. }
  split; [exact Hwf2|]. split; [etransitivity; eassumption|].
  split; [unfold n_cells; cbn [row_cell]; lia|]. split.
  - intros p Hp Hnotin. cbn [row_cell].
    destruct (le_lt_dec j' p) as [Hge|Hlt].
    + apply Hin2. lia.
    + destruct (Hgap p ltac:(lia) Hnotin) as (c & Hc & Hg).
      exists c. split; [rewrite Hout2 by lia; exact Hc|].
      exact (is_gap_mono h1 h2 c Hsub2 Hg).
  - intros nd Hin. cbn [row_cell].
    destruct (Hdecl nd Hin) as (Hlt & c & Hc & Ht).
    exists c. split; [rewrite Hout2 by lia; exact Hc | exact Ht].
Qed.

Lemma materialised_mono (n : nat) (h h' : heap) (node : xml_row)
    (r : libo_xl_row) :
  blocks h ⊆ blocks h' -> materialised n h node r -> materialised n h' node r.
Proof.
  intros Hsub (Hn & Hgap & Hdecl). split; [exact Hn|]. split; [|exact Hdecl].
  intros p Hp Hnotin. destruct (Hgap p Hp Hnotin) as (c & Hc & Hg).
  exists c. split; [exact Hc | exact (is_gap_mono h h' c Hsub Hg)].
Qed.

Lemma rows_loop_spec (n : nat) (nodes : list xml_row) :
  forall (rows : list libo_xl_row) (h : heap),
    heap_wf h -> length rows = length nodes ->
    Forall (fun r => row_cell r = replicate n libo_xl_cell_new) rows ->
    Forall (sparse_row (Z.of_nat n)) nodes ->
    exists (rows' : list libo_xl_row) (h' : heap),
      rows_loop atof (Z.of_nat n) rows nodes h = Some (rows', h') /\
      heap_wf h' /\ blocks h ⊆ blocks h' /\
      Forall2 (materialised n h') nodes rows'.
Proof.
  induction nodes as [|node nodes IH]; intros rows h Hwf Hlen Hnew Hsparse.
  - destruct rows; [|discriminate Hlen].
    exists [], h. split; [reflexivity|]. split; [exact Hwf|].
    split; [reflexivity | constructor].
  - destruct rows as [|row rows]; [discriminate Hlen|].
    apply Forall_cons in Hnew as [Hrow Hnew].
    apply Forall_cons in Hsparse as [Hnode Hsparse].
    destruct (read_row_spec n node row h Hwf Hrow Hnode)
      as (r & h1 & E1 & Hwf1 & Hsub1 & Hmat1).
    destruct (IH rows h1 Hwf1 ltac:(cbn in Hlen; lia) Hnew Hsparse)
      as (rs & h2 & E2 & Hwf2 & Hsub2 & Hmat2).
    exists (r :: rs), h2. split.
    { cbn [rows_loop]. rewrite (bind_ok _ _ _ _ _ E1).
      rewrite (bind_ok _ _ _ _ _ E2). reflexivity. }
    split; [exact Hwf2|]. split; [etransitivity; eassumption|].
    constructor; [exact (materialised_mono n h1 h2 node r Hsub2 Hmat1)|].
    exact Hmat2.
Qed.

(** C3, as the code has it. The worksheet is one of sparse rows: every
    child node of a [row] element is a [c] element, and the addresses of a
    row go strictly up within the columns of the sheet; and the row count
    of the sheet is the number of [row] elements, as it is when [sheetData]
    has no other child element. Then the reader returns one row per [row]
    element, each with as many cells as the sheet has columns; every
    position a row skips before a declared cell, and every position after
    its last declared cell, holds a cell of Expression kind with no formula
    and the empty string as value (not a cell of Empty kind); the declared
    cells have their declared kinds. *)
Theorem C3_reader_fills_gaps_with_expressions
    (h : heap) (n_cols : nat) (nodes : list xml_row) :
  heap_wf h -> Forall (sparse_row (Z.of_nat n_cols)) nodes ->
  exists (rows : list libo_xl_row) (h' : heap),
    libo_xl_sheet_rows_read atof (Z.of_nat (length nodes)) (Z.of_nat n_cols)
      nodes h = Some (rows, h') /\
    Forall (fun r => libo_xl_row_get_cell_count (Some r) = Z.of_nat n_cols) rows /\
    Forall2 (materialised n_cols h') nodes rows.
Proof.
  intros Hwf Hsparse. unfold libo_xl_sheet_rows_read.
  rewrite Z.eqb_refl. unfold new_grid. rewrite !Nat2Z.id.
  destruct (rows_loop_spec n_cols nodes
              (replicate (length nodes)
                 (mkRow (replicate n_cols libo_xl_cell_new))) h Hwf)
    as (rows & h' & E & _ & _ & Hmat);
    [apply length_replicate | | exact Hsparse |].
  { apply Forall_forall. intros r Hr.
    apply elem_of_replicate in Hr as [-> _]. reflexivity. }
  exists rows, h'. split; [exact E|]. split; [|exact Hmat].
  clear -Hmat. induction Hmat as [|node r nodes rows Hr _ IH]; constructor.
  - destruct Hr as [Hn _]. exact Hn.
  - exact IH.
Qed.

End Materialise.

Lemma C3_reader_fills_gaps_with_expressions_witness :
  exists (rows : list libo_xl_row) (h' : heap),
    libo_xl_sheet_rows_read atof_zero
      (Z.of_nat (length (row_nodes jagged))) (Z.of_nat 3)
      (row_nodes jagged) empty_heap = Some (rows, h') /\
    Forall (fun r => libo_xl_row_get_cell_count (Some r) = Z.of_nat 3) rows /\
    Forall2 (materialised 3 h') (row_nodes jagged) rows.
Proof.
  apply (C3_reader_fills_gaps_with_expressions atof_zero empty_heap 3
           (row_nodes jagged)).
  - closed_heap_wf.
  - repeat constructor; vm_compute; intros H; discriminate H.
Defined.

(** C3, as stated, fails on the jagged worksheet: the two positions that
    row 2 leaves out are filled with cells of Expression kind, not of Empty
    kind. *)
Lemma C3_jagged_gaps_are_not_empty_cells :
  exists (s : libo_xl_sheet) (h' : heap),
    libo_xl_sheet_read atof_zero libo_xl_sheet_new jagged empty_heap
    = Some (s, h') /\
    n_rows s = 2 /\ n_cols s = 3 /\
    libo_xl_cell_get_type
      (libo_xl_row_get_cell (libo_xl_sheet_get_row (Some s) 1) 1)
    = libo_xl_cell_type_expression /\
    libo_xl_cell_get_type
      (libo_xl_row_get_cell (libo_xl_sheet_get_row (Some s) 1) 2)
    <> libo_xl_cell_type_none.
Proof.
  eexists _, _. split; [vm_compute; reflexivity|].
  split; [reflexivity|]. split; [reflexivity|]. split; [reflexivity|].
  vm_compute. intros H. discriminate H.
Qed.

(** Outside the sparse rows. In an indented file the text between two
    elements is a child node of the row, and every child node moves the
    cursor on. The row below declares A2 and B2; on a sheet of three
    columns the reader leaves the new Empty cell in column 0, stores the
    number of A2 in column 1, leaves column 2 Empty and never reaches B2. *)
Example indented_row_read :
  exists h' : heap,
    libo_xl_sheet_rows_read atof_zero 1 3 [indented_row] empty_heap
    = Some ([mkRow [libo_xl_cell_new;
                    mkCell libo_xl_cell_type_number 0 0;
                    libo_xl_cell_new]], h').
Proof. eexists. vm_compute. reflexivity. Qed.

(** * Further properties of the code *)

Import Grid Value Emit.

(** ** The formatter on every input *)

Lemma letters_loop_length (fuel : nat) (m : Z) (ls : list ascii) :
  letters_loop fuel m = Some ls -> (1 <= length ls <= fuel)%nat.
Proof.
  revert m ls. induction fuel as [|f IH]; intros m ls H; [discriminate H|].
  cbn [letters_loop] in H.
  destruct (uint32 (m - 1) / 26 =? 0).
  - injection H as <-. cbn. lia.
  - destruct (letters_loop f (uint32 (m - 1) / 26)) as [ls'|] eqn:E;
      [|discriminate H].
    cbn in H. injection H as <-. apply IH in E. cbn [length]. lia.
Qed.

Lemma letters_loop_mono (fuel k : nat) (m : Z) (ls : list ascii) :
  letters_loop fuel m = Some ls -> letters_loop (fuel + k) m = Some ls.
Proof.
  revert m ls. induction fuel as [|f IH]; intros m ls H; [discriminate H|].
  cbn [letters_loop Nat.add] in H |- *.
  destruct (uint32 (m - 1) / 26 =? 0); [exact H|].
  destruct (letters_loop f (uint32 (m - 1) / 26)) as [ls'|] eqn:E;
    [|discriminate H].
  rewrite (IH _ _ E). exact H.
Qed.

Lemma String_length_of_list (ls : list ascii) :
  String.length (string_of_list_ascii ls) = length ls.
Proof. induction ls as [|a ls IH]; [reflexivity|]. cbn. now rewrite IH. Qed.

Lemma column_reference_shape (n : Z) :
  exists ls : list ascii,
    column_number_to_reference n = Some (string_of_list_ascii ls) /\
    (1 <= length ls <= 7)%nat /\ forallb is_upper ls = true.
Proof.
  unfold column_number_to_reference.
  assert (Hu : 0 <= uint32 (uint32 n + 1) < two32)
    by (apply Z.mod_pos_bound; unfold two32; lia).
  set (m := uint32 (uint32 n + 1)) in *.
  assert (Hm : m = 0 \/ 1 <= m) by lia.
  destruct Hm as [-> | Hm].
  - exists (list_ascii_of_string "MWLQKWV"). vm_compute. split; [reflexivity|split; [lia|reflexivity]].
  - destruct (letters_loop_spec 7 m) as (ls & Hls & _ & Hup).
    { unfold two32 in Hu. cbn. lia. }
    { lia. }
    pose proof (letters_loop_length _ _ _ Hls) as Hlen.
    apply (letters_loop_mono 7 2) in Hls. cbn [Nat.add] in Hls.
    unfold ref_capacity. rewrite Hls.
    exists (rev ls). rewrite reverse_letters.
    split; [reflexivity|]. rewrite length_rev, forallb_rev. auto.
Qed.

(** X1. For every value of its [unsigned int] argument, the one that wraps
    to 0 at the increment included, [column_number_to_reference] stays
    within its ten-byte buffer: it returns between one and seven letters,
    all of them upper case. *)
Theorem column_reference_fits (n : Z) :
  exists ls : list ascii,
    column_number_to_reference n = Some (string_of_list_ascii ls) /\
    (1 <= length ls <= 7)%nat /\ forallb is_upper ls = true.
Proof. apply column_reference_shape. Qed.
(** ** Decimal text *)

Lemma digits_value_uint_acc (d : Decimal.uint) (acc : positive) :
  digits_value (NilEmpty.string_of_uint d) (Z.pos acc)
  = Z.pos (Pos.of_uint_acc d acc).
Proof.
  revert acc. induction d; intros acc; cbn [NilEmpty.string_of_uint Pos.of_uint_acc];
    [reflexivity | ..];
    cbn [digits_value]; change (isdigit _) with true; cbv iota;
    rewrite <- IHd; f_equal;
    match goal with
    | |- context [code ?c] =>
        let v := eval vm_compute in (code c) in change (code c) with v
    end; lia.
Qed.

Lemma digits_value_uint (d : Decimal.uint) :
  digits_value (NilEmpty.string_of_uint d) 0 = Z.of_N (Pos.of_uint d).
Proof.
  induction d; cbn [NilEmpty.string_of_uint Pos.of_uint];
    [reflexivity | ..];
    cbn [digits_value]; change (isdigit _) with true; cbv iota;
    try exact IHd;
    cbn [Z.of_N]; rewrite <- digits_value_uint_acc; f_equal.
Qed.

Lemma all_digits_uint (d : Decimal.uint) :
  all_digits (NilEmpty.string_of_uint d) = true.
Proof. induction d; cbn [NilEmpty.string_of_uint all_digits]; auto. Qed.

(** The text [sprintf] writes for a positive [int]: a non-empty run of
    digits whose value is the number. *)
Lemma sprintf_d_pos (v : Z) :
  0 < v ->
  exists (d : ascii) (ds : string),
    sprintf_d v = String d ds /\ isdigit d = true /\
    all_digits ds = true /\ digits_value (sprintf_d v) 0 = v.
Proof.
  intros Hv. destruct v as [|p|p]; try lia.
  unfold sprintf_d. cbn [Z.to_int NilZero.string_of_int].
  pose proof (Unsigned.to_uint_nonnil p) as Hnn.
  pose proof (all_digits_uint (Pos.to_uint p)) as Hall.
  pose proof (digits_value_uint (Pos.to_uint p)) as Hval.
  rewrite Unsigned.of_to in Hval. cbn [Z.of_N] in Hval.
  unfold NilZero.string_of_uint.
  destruct (Pos.to_uint p) eqn:E; [congruence | ..];
    cbn [NilEmpty.string_of_uint all_digits] in Hall |- *;
    (eexists; eexists; split; [reflexivity|]; split; [reflexivity|];
     split; [exact Hall | exact Hval]).
Qed.

(** ** Addresses, both ways *)

Lemma column_reference_value (n : Z) :
  0 <= n < two31 ->
  exists ls : list ascii,
    column_number_to_reference n = Some (string_of_list_ascii (rev ls)) /\
    letters_value ls = n + 1 /\ forallb is_upper ls = true.
Proof.
  intros Hn. unfold column_number_to_reference.
  assert (E : uint32 (uint32 n + 1) = n + 1).
  { rewrite (uint32_id n) by (unfold two31, two32 in *; lia).
    apply uint32_id. unfold two31, two32 in *; lia. }
  rewrite E.
  destruct (letters_loop_spec ref_capacity (n + 1)) as (ls & Hls & Hv & Hup).
  { unfold ref_capacity, two31 in *. cbn. lia. }
  { unfold two31, two32 in *. lia. }
  rewrite Hls, reverse_letters. exists ls. auto.
Qed.

(** What [cell_ref_to_row_col] stores for a run of upper-case letters
    followed by a text that starts with no letter. *)
Lemma parse_letters (ls : list ascii) (tl : string) :
  forallb is_upper ls = true -> alpha_run tl = ([], tl) ->
  cell_ref_to_row_col (Some (string_of_list_ascii (rev ls) ++ tl)%string)
  = (sint32 (atoi tl - 1), sint32 (letters_value ls - 1)).
Proof.
  intros Hup Htl. unfold cell_ref_to_row_col.
  rewrite (alpha_run_app (rev ls) tl).
  - rewrite rev_involutive. f_equal. apply sint32_congr.
    assert (C : cong (col_loop ls 0 0 + -1)
                     (0 + 26 ^ Z.of_nat 0 * letters_value ls + -1))
      by (apply cong_add; [apply col_loop_cong | apply cong_refl]).
    replace (0 + 26 ^ Z.of_nat 0 * letters_value ls + -1)
      with (letters_value ls - 1) in C by (cbn; lia).
    exact C.
  - rewrite forallb_rev. rewrite forallb_forall in Hup |- *.
    intros ch Hch. apply is_upper_isalpha, Hup, Hch.
  - exact Htl.
Qed.

Lemma atoi_sprintf_d (v : Z) :
  0 < v < two31 ->
  atoi (sprintf_d v) = v /\ alpha_run (sprintf_d v) = ([], sprintf_d v).
Proof.
  intros Hv. destruct (sprintf_d_pos v) as (d & ds & E & Hd & Hds & Hval); [lia|].
  rewrite E in Hval |- *. split.
  - unfold atoi. destruct (isdigit_not_sign d Hd) as [Hm Hp].
    rewrite strtol_unsigned by auto using isdigit_not_space.
    rewrite Hval. unfold two63, two31 in *.
    rewrite Z.min_r, Z.max_r by lia.
    apply sint32_id. unfold in_int, two31. lia.
  - cbn [alpha_run]. rewrite (isdigit_not_alpha d Hd). reflexivity.
Qed.

Lemma format_then_parse (row col : Z) :
  0 <= col < two31 -> 0 <= row < two31 - 1 ->
  exists s : string,
    column_number_to_reference col = Some s /\
    cell_ref_to_row_col (Some (s ++ sprintf_d (row + 1))%string) = (row, col).
Proof.
  intros Hc Hr.
  destruct (column_reference_value col Hc) as (ls & Hs & Hv & Hup).
  destruct (atoi_sprintf_d (row + 1)) as [Ha Hrun]; [lia|].
  eexists; split; [exact Hs|].
  rewrite (parse_letters ls _ Hup Hrun), Ha, Hv.
  replace (row + 1 - 1) with row by lia.
  replace (col + 1 - 1) with col by lia.
  f_equal; apply sint32_id; unfold in_int, two31 in *; lia.
Qed.

(** X2. The address the writer forms for the cell at the 0-based row [row]
    and column [col], the letters of [column_number_to_reference] followed
    by the decimal text of [row + 1], is parsed by [cell_ref_to_row_col]
    back to [row] and [col], for every column below 2^31 and every row below
    2^31 - 1. *)
Theorem address_round_trip (row col : Z) :
  0 <= col < two31 -> 0 <= row < two31 - 1 ->
  exists s : string,
    column_number_to_reference col = Some s /\
    cell_ref_to_row_col (Some (s ++ sprintf_d (row + 1))%string) = (row, col).
Proof. apply format_then_parse. Qed.

Lemma address_round_trip_witness :
  exists s : string,
    column_number_to_reference 27 = Some s /\
    cell_ref_to_row_col (Some (s ++ sprintf_d (41 + 1))%string) = (41, 27).
Proof. apply (address_round_trip 41 27); unfold two31; lia. Defined.

Lemma is_upper_code (ch : ascii) : is_upper ch = true -> 65 <= code ch <= 90.
Proof.
  unfold is_upper, between. intros H. apply andb_prop in H as [H1 H2].
  apply Z.leb_le in H1, H2. lia.
Qed.

Lemma letters_value_bounds (ls : list ascii) :
  forallb is_upper ls = true ->
  Z.of_nat (length ls) <= letters_value ls /\
  25 * letters_value ls <= 26 * (26 ^ Z.of_nat (length ls) - 1).
Proof.
  induction ls as [|ch rest IH]; intros Hup.
  - cbn. lia.
  - cbn [forallb] in Hup. apply andb_prop in Hup as [Hch Hrest].
    apply is_upper_code in Hch. destruct (IH Hrest) as [IH1 IH2].
    cbn [length letters_value].
    rewrite Nat2Z.inj_succ, Z.pow_succ_r by lia. lia.
Qed.

(** The loop of the formatter gives back the letters of a number written
    in letters. *)
Lemma letters_loop_complete (ls : list ascii) (fuel : nat) :
  forallb is_upper ls = true -> (1 <= length ls <= fuel)%nat ->
  letters_value ls <= two32 ->
  letters_loop fuel (letters_value ls) = Some ls.
Proof.
  revert fuel. induction ls as [|ch rest IH]; intros fuel Hup Hlen H32.
  - cbn in Hlen. lia.
  - destruct fuel as [|f]; [cbn in Hlen; lia|].
    cbn [forallb] in Hup. apply andb_prop in Hup as [Hch Hrest].
    pose proof (is_upper_code ch Hch) as Hc.
    destruct (letters_value_bounds rest Hrest) as [Hlo _].
    cbn [letters_loop letters_value].
    set (V := letters_value rest) in *.
    rewrite (uint32_id (code ch - 65 + 1 + 26 * V - 1))
      by (cbn [letters_value] in H32; fold V in H32; unfold two32 in *; lia).
    assert (Er : (code ch - 65 + 1 + 26 * V - 1) mod 26 = code ch - 65)
      by (symmetry; apply (Z.mod_unique _ _ V); lia).
    assert (Eq : (code ch - 65 + 1 + 26 * V - 1) / 26 = V)
      by (symmetry; apply (Z.div_unique _ _ V (code ch - 65)); lia).
    rewrite Er, Eq.
    assert (Ech : ascii_of_N (Z.to_N (65 + (code ch - 65))) = ch).
    { replace (65 + (code ch - 65)) with (code ch) by lia.
      unfold code. rewrite N2Z.id. apply ascii_N_embedding. }
    rewrite Ech.
    assert (HV32 : V <= two32)
      by (cbn [letters_value] in H32; fold V in H32; lia).
    destruct rest as [|ch2 rest2].
    + reflexivity.
    + assert (HV : (V =? 0) = false)
        by (apply Z.eqb_neq; cbn [length] in Hlo; lia).
      rewrite HV. unfold V in *.
      rewrite IH; [reflexivity | exact Hrest | cbn [length] in *; lia | exact HV32].
Qed.

(** X3. The other direction: for a run of one to six upper-case letters,
    followed by any text that starts with no letter, formatting the column
    that [cell_ref_to_row_col] reads gives the letters back. *)
Theorem reference_round_trip (ls : list ascii) (tl : string) :
  forallb is_upper ls = true -> (1 <= length ls <= 6)%nat ->
  alpha_run tl = ([], tl) ->
  column_number_to_reference
    (snd (cell_ref_to_row_col (Some (string_of_list_ascii ls ++ tl)%string)))
  = Some (string_of_list_ascii ls).
Proof.
  intros Hup Hlen Htl.
  assert (Hup' : forallb is_upper (rev ls) = true) by (rewrite forallb_rev; exact Hup).
  rewrite <- (rev_involutive ls) at 1.
  rewrite (parse_letters (rev ls) tl Hup' Htl). cbn [snd].
  destruct (letters_value_bounds (rev ls) Hup') as [Hlo Hhi].
  rewrite length_rev in Hlo, Hhi.
  assert (Hp : 26 ^ Z.of_nat (length ls) <= 26 ^ 6)
    by (apply Z.pow_le_mono_r; lia).
  change (26 ^ 6) with 308915776 in Hp.
  set (m := letters_value (rev ls)) in *.
  rewrite (sint32_id (m - 1)) by (unfold in_int, two31; lia).
  unfold column_number_to_reference.
  rewrite (uint32_id (m - 1)) by (unfold two32; lia).
  replace (m - 1 + 1) with m by lia.
  rewrite (uint32_id m) by (unfold two32; lia).
  unfold m. rewrite letters_loop_complete.
  - rewrite reverse_letters, rev_involutive. reflexivity.
  - exact Hup'.
  - rewrite length_rev. unfold ref_capacity. lia.
  - fold m. unfold two32. lia.
Qed.

Lemma reference_round_trip_witness :
  column_number_to_reference
    (snd (cell_ref_to_row_col
            (Some (string_of_list_ascii ["Z"; "Z"]%char ++ "7:9")%string)))
  = Some (string_of_list_ascii ["Z"; "Z"]%char).
Proof.
  apply (reference_round_trip ["Z"; "Z"]%char "7:9");
    [reflexivity | cbn; lia | reflexivity].
Defined.

(** ** Text cells *)

Lemma strings_add_finds (T : strings) (s : string_entry) :
  is_Some (strings_find_by_text (strings_add T s) (text s)).
Proof.
  unfold strings_add.
  destruct (strings_find_by_text T (text s)) as [e|] eqn:E.
  - rewrite E. eexists; reflexivity.
  - unfold strings_find_by_text in *. cbn [entries].
    induction (entries T) as [|e l IH].
    + cbn [app find text]. rewrite String.eqb_refl. eexists; reflexivity.
    + cbn [app find] in E |- *.
      destruct (String.eqb (text e) (text s)); [discriminate E | exact (IH E)].
Qed.

(** An entry found by its text is found again under its id. *)
Lemma find_by_text_id (T : strings) (t : string) (e : string_entry) :
  table_ok T -> strings_find_by_text T t = Some e ->
  strings_find_by_id T (id e) = Some e /\ 0 <= id e < last_id T.
Proof.
  intros Hok Hf. pose proof Hok as (Hlast & Hid & _).
  apply find_by_text_Some in Hf as [Hin _].
  apply list_elem_of_lookup in Hin as [i Hi].
  pose proof (lookup_lt_Some _ _ _ Hi) as Hlt.
  rewrite (Hid i e Hi), (find_by_id_ok T _ Hok).
  destruct (Z.of_nat i <? 0) eqn:E; [apply Z.ltb_lt in E; lia|].
  rewrite Nat2Z.id. split; [exact Hi | lia].
Qed.

Lemma get_text_set_reference (T : strings) (t : string) (e : string_entry) :
  table_ok T -> last_id T <= two31 -> strings_find_by_text T t = Some e ->
  Text.libo_xl_cell_get_text T
    (Some (libo_xl_cell_set_reference
             (mkCell libo_xl_cell_type_reference 0 0) (id e)))
  = Some t.
Proof.
  intros Hok Hlast Hf.
  destruct (find_by_text_id T t e Hok Hf) as [Hid Hrange].
  apply find_by_text_Some in Hf as [_ Ht].
  unfold libo_xl_cell_set_reference. cbn [cell_type].
  destruct (decide _) as [_|Hne]; [|contradiction].
  rewrite get_text_with_reference;
    [| reflexivity | unfold in_int, two31 in *; lia].
  rewrite Hid. cbn. rewrite Ht. reflexivity.
Qed.

(** Entries appended to a table leave the text of every cell that
    resolved as it was. *)
Lemma get_text_extends (T T' : strings) (k : list string_entry)
    (d : libo_xl_cell) (u : string) :
  table_ok T -> table_ok T' -> entries T' = entries T ++ k ->
  Text.libo_xl_cell_get_text T (Some d) = Some u ->
  Text.libo_xl_cell_get_text T' (Some d) = Some u.
Proof.
  intros Hok Hok' Hext. unfold Text.libo_xl_cell_get_text.
  destruct (decide _) as [_|?]; [|discriminate].
  rewrite (find_by_id_ok T _ Hok), (find_by_id_ok T' _ Hok'), Hext.
  destruct (reference d <? 0); [discriminate|].
  destruct (entries T !! Z.to_nat (reference d)) as [e|] eqn:E; [|discriminate].
  rewrite (lookup_app_l_Some _ _ _ _ E). auto.
Qed.

Lemma set_text_spec (h : heap) (strs : strings) (c : libo_xl_cell) (t : string) :
  table_ok strs -> last_id strs < two31 -> owns h (cell_ptrs c) ->
  exists (strs' : strings) (c' : libo_xl_cell),
    Text.libo_xl_cell_set_text strs c t h
    = Some ((strs', c'), release (cell_ptrs c) h) /\
    cell_type c' = libo_xl_cell_type_reference /\
    Text.libo_xl_cell_get_text strs' (Some c') = Some t /\
    table_ok strs' /\
    (exists k, entries strs' = entries strs ++ k) /\
    (is_Some (strings_find_by_text strs t) -> strs' = strs) /\
    is_Some (strings_find_by_text strs' t) /\
    last_id strs' <= last_id strs + 1.
Proof.
  intros Hok Hlast Hown.
  unfold Text.libo_xl_cell_set_text.
  rewrite (bind_ok _ _ _ _ _ (clear_spec h c Hown)).
  rewrite (bind_ok _ _ (release (cell_ptrs c) h) (release (cell_ptrs c) h)
             (mkCell libo_xl_cell_type_reference 0 0)) by reflexivity.
  assert (Hty : forall v,
    cell_type (libo_xl_cell_set_reference
                 (mkCell libo_xl_cell_type_reference 0 0) v)
    = libo_xl_cell_type_reference).
  { intros v. unfold libo_xl_cell_set_reference. cbn [cell_type].
    destruct (decide _); reflexivity. }
  destruct (strings_find_by_text strs t) as [e|] eqn:E.
  - exists strs, (libo_xl_cell_set_reference
                    (mkCell libo_xl_cell_type_reference 0 0) (id e)).
    split; [reflexivity|]. split; [apply Hty|].
    split; [apply (get_text_set_reference strs t e Hok); [lia | exact E]|].
    split; [exact Hok|]. split; [exists []; symmetry; apply app_nil_r|].
    split; [reflexivity|]. split; [rewrite E; eexists; reflexivity | lia].
  - set (strs' := strings_add strs (string_new_with_values t 0)).
    pose proof (strings_add_ok strs (string_new_with_values t 0) Hok) as Hok'.
    pose proof (strings_add_finds strs (string_new_with_values t 0)) as [e' He'].
    fold strs' in Hok', He'. cbn [string_new_with_values text] in He'.
    rewrite He'.
    assert (Hl : last_id strs' = last_id strs + 1).
    { unfold strs', strings_add. cbn [string_new_with_values text].
      rewrite E. reflexivity. }
    exists strs', (libo_xl_cell_set_reference
                     (mkCell libo_xl_cell_type_reference 0 0) (id e')).
    split; [reflexivity|]. split; [apply Hty|].
    split; [apply (get_text_set_reference strs' t e' Hok'); [lia | exact He']|].
    split; [exact Hok'|]. split; [apply strings_add_extends|].
    split; [intros [x Hx]; discriminate Hx|].
    split; [exists e'; exact He' | lia].
Qed.

(** X4. On a table that satisfies its invariant, [libo_xl_cell_set_text]
    followed by [libo_xl_cell_get_text] reads the text that was set; the
    strings the cell owned are released; every other cell reads the text it
    read before; and the table keeps its invariant. *)
Theorem set_text_then_get_text
    (h : heap) (strs : strings) (c d : libo_xl_cell) (t u : string) :
  table_ok strs -> last_id strs < two31 -> owns h (cell_ptrs c) ->
  Text.libo_xl_cell_get_text strs (Some d) = Some u ->
  exists (strs' : strings) (c' : libo_xl_cell),
    Text.libo_xl_cell_set_text strs c t h
    = Some ((strs', c'), release (cell_ptrs c) h) /\
    Text.libo_xl_cell_get_text strs' (Some c') = Some t /\
    Text.libo_xl_cell_get_text strs' (Some d) = Some u /\
    table_ok strs'.
Proof.
  intros Hok Hlast Hown Hd.
  destruct (set_text_spec h strs c t Hok Hlast Hown)
    as (strs' & c' & E & _ & Ht & Hok' & [k Hk] & _).
  exists strs', c'. split; [exact E|]. split; [exact Ht|].
  split; [exact (get_text_extends strs strs' k d u Hok Hok' Hk Hd) | exact Hok'].
Qed.

Lemma table_a_ok : table_ok table_a.
Proof.
  split; [reflexivity|]. split.
  - intros i e Hi. destruct i as [|i]; cbn in Hi; [|discriminate Hi].
    injection Hi as <-. reflexivity.
  - apply NoDup_singleton.
Qed.

Lemma owns_nil (h : heap) : owns h [].
Proof. split; constructor. Qed.

Lemma set_text_then_get_text_witness :
  exists (strs' : strings) (c' : libo_xl_cell),
    Text.libo_xl_cell_set_text table_a shared_cell "b" shared_heap
    = Some ((strs', c'), release (cell_ptrs shared_cell) shared_heap) /\
    Text.libo_xl_cell_get_text strs' (Some c') = Some "b"%string /\
    Text.libo_xl_cell_get_text strs' (Some cell_a) = Some "a"%string /\
    table_ok strs'.
Proof.
  apply (set_text_then_get_text shared_heap table_a shared_cell cell_a
           "b"%string "a"%string).
  - apply table_a_ok.
  - reflexivity.
  - closed_owns [1; 2].
  - reflexivity.
Defined.

(** X5. Texts are interned: setting the same text on a second cell leaves
    the table as the first call left it and stores the same id in both
    cells. *)
Theorem set_text_interns
    (h : heap) (strs : strings) (c1 c2 : libo_xl_cell) (t : string) :
  table_ok strs -> last_id strs < two31 - 1 ->
  owns h (cell_ptrs c1) -> owns (release (cell_ptrs c1) h) (cell_ptrs c2) ->
  exists (s1 : strings) (c1' c2' : libo_xl_cell),
    Text.libo_xl_cell_set_text strs c1 t h
    = Some ((s1, c1'), release (cell_ptrs c1) h) /\
    Text.libo_xl_cell_set_text s1 c2 t (release (cell_ptrs c1) h)
    = Some ((s1, c2'), release (cell_ptrs c2) (release (cell_ptrs c1) h)) /\
    libo_xl_cell_get_reference (Some c2') = libo_xl_cell_get_reference (Some c1').
Proof.
  intros Hok Hlast Hown1 Hown2.
  destruct (set_text_spec h strs c1 t Hok ltac:(lia) Hown1)
    as (s1 & c1' & F1 & Hty1 & Ht1 & Hok1 & _ & _ & Hin1 & Hl1).
  destruct (set_text_spec _ s1 c2 t Hok1 ltac:(lia) Hown2)
    as (s2 & c2' & F2 & Hty2 & Ht2 & _ & _ & Hsame & _).
  specialize (Hsame Hin1). subst s2.
  exists s1, c1', c2'. split; [exact F1|]. split; [exact F2|].
  unfold libo_xl_cell_get_reference. rewrite Hty1, Hty2.
  destruct (decide _) as [_|Hne]; [|contradiction].
  symmetry. exact (same_text_same_id s1 c1' c2' t Hok1 Ht1 Ht2).
Qed.

Lemma set_text_interns_witness :
  exists (s1 : strings) (c1' c2' : libo_xl_cell),
    Text.libo_xl_cell_set_text table_a shared_cell "b" shared_heap
    = Some ((s1, c1'), release (cell_ptrs shared_cell) shared_heap) /\
    Text.libo_xl_cell_set_text s1 libo_xl_cell_new "b"
      (release (cell_ptrs shared_cell) shared_heap)
    = Some ((s1, c2'),
            release (cell_ptrs libo_xl_cell_new)
                    (release (cell_ptrs shared_cell) shared_heap)) /\
    libo_xl_cell_get_reference (Some c2') = libo_xl_cell_get_reference (Some c1').
Proof.
  apply (set_text_interns shared_heap table_a shared_cell libo_xl_cell_new
           "b"%string).
  - apply table_a_ok.
  - reflexivity.
  - closed_owns [1; 2].
  - apply owns_nil.
Defined.

(** ** Storing an expression *)

Lemma strdup_spec (h : heap) (p : ptr) (s : string) :
  blocks h !! p = Some s ->
  strdup p h = Some (next h, mkHeap (<[next h := s]> (blocks h)) (next h + 1)).
Proof. intros E. unfold strdup, load, alloc, bind. rewrite E. reflexivity. Qed.

Lemma heap_wf_next (h : heap) : heap_wf h -> blocks h !! next h = None.
Proof.
  intros [_ Hwf]. destruct (blocks h !! next h) as [s|] eqn:E; [|reflexivity].
  assert (Hl : live h (next h)) by (exists s; exact E).
  specialize (Hwf _ Hl). lia.
Qed.

Lemma heap_wf_alloc (h : heap) (s : string) :
  heap_wf h -> heap_wf (mkHeap (<[next h := s]> (blocks h)) (next h + 1)).
Proof.
  intros [Hpos Hwf]. split; cbn [next blocks]; [lia|].
  intros p [x Hx]. cbn [blocks] in Hx.
  destruct (decide (next h = p)) as [<-|Hne]; [lia|].
  rewrite lookup_insert_ne in Hx by exact Hne.
  assert (Hl : live h p) by (exists x; exact Hx).
  specialize (Hwf _ Hl). lia.
Qed.

Lemma heap_wf_release (ps : list ptr) (h : heap) :
  heap_wf h -> heap_wf (release ps h).
Proof.
  intros [Hpos Hwf]. split; [exact Hpos|].
  intros p [x Hx]. cbn [next release]. apply Hwf.
  destruct (decide (p ∈ ps)) as [Hin|Hnin].
  - rewrite (release_lookup_in ps h p Hin) in Hx. discriminate Hx.
  - rewrite (release_lookup_notin ps h p Hnin) in Hx. exists x. exact Hx.
Qed.

(** One of the two copying setters on a struct whose member is null. *)
Lemma set_formula_fresh_spec (h : heap) (v p : ptr) (s : string) :
  blocks h !! p = Some s -> p <> NULL ->
  libo_xl_cell_expression_set_formula (mkExpression NULL v) p h
  = Some (mkExpression (next h) v,
          mkHeap (<[next h := s]> (blocks h)) (next h + 1)).
Proof.
  intros E Hp. unfold libo_xl_cell_expression_set_formula.
  apply Z.eqb_neq in Hp. rewrite Hp.
  rewrite (bind_ok _ _ _ _ _ (strdup_spec h p s E)). reflexivity.
Qed.

Lemma set_value_fresh_spec (h : heap) (f p : ptr) (s : string) :
  blocks h !! p = Some s -> p <> NULL ->
  libo_xl_cell_expression_set_value (mkExpression f NULL) p h
  = Some (mkExpression f (next h),
          mkHeap (<[next h := s]> (blocks h)) (next h + 1)).
Proof.
  intros E Hp. unfold libo_xl_cell_expression_set_value.
  apply Z.eqb_neq in Hp. rewrite Hp.
  rewrite (bind_ok _ _ _ _ _ (strdup_spec h p s E)). reflexivity.
Qed.

(** X6. [libo_xl_cell_set_expression] gives the cell copies of its own: each
    non-null string of the argument is duplicated into a buffer that did not
    exist before, a null one stays null, the argument's strings are left as
    they were, the strings the cell owned before are freed, and the cell
    owns exactly its new strings. *)
Theorem set_expression_owns_copies
    (h : heap) (c : libo_xl_cell) (xlce : libo_xl_cell_expression) :
  heap_wf h -> owns h (cell_ptrs c) ->
  Forall (live h) (expression_ptrs xlce) ->
  (forall p, p ∈ expression_ptrs xlce -> p ∉ cell_ptrs c) ->
  exists (c' : libo_xl_cell) (h' : heap),
    libo_xl_cell_set_expression c xlce h = Some (c', h') /\
    cell_type c' = libo_xl_cell_type_expression /\
    duplicate_of h h' (formula xlce) (formula (expression c')) /\
    duplicate_of h h' (value xlce) (value (expression c')) /\
    (forall p, p ∈ expression_ptrs xlce -> blocks h' !! p = blocks h !! p) /\
    (forall p, p ∈ cell_ptrs c -> blocks h' !! p = None) /\
    owns h' (cell_ptrs c') /\ heap_wf h'.
Proof.
  intros Hwf Hown Hlive Hapart.
  unfold libo_xl_cell_set_expression.
  rewrite (bind_ok _ _ _ _ _ (clear_spec h c Hown)).
  set (h1 := release (cell_ptrs c) h).
  rewrite (bind_ok _ _ h1 h1 (mkCell libo_xl_cell_type_expression 0 0))
    by reflexivity.
  cbn [expression word0 word1].
  assert (Hwf1 : heap_wf h1) by (apply heap_wf_release, Hwf).
  assert (Hkeep : forall p, p ∈ expression_ptrs xlce ->
                            blocks h1 !! p = blocks h !! p).
  { intros p Hp. apply release_lookup_notin, Hapart, Hp. }
  assert (Hgone : forall p, p ∈ cell_ptrs c -> blocks h1 !! p = None).
  { intros p Hp. apply release_lookup_in, Hp. }
  assert (Hn1 : next h1 = next h) by reflexivity.
  assert (Hfresh : forall p, live h p -> p <> next h /\ p <> next h + 1).
  { intros p Hp. destruct Hwf as [_ Hb]. specialize (Hb p Hp). lia. }
  assert (Hcell : forall p, p ∈ cell_ptrs c -> p <> next h /\ p <> next h + 1).
  { intros p Hp. destruct Hown as [_ Hl]. rewrite Forall_forall in Hl.
    apply Hfresh, Hl, Hp. }
  pose proof (heap_wf_next h Hwf) as Hnone.
  assert (Hnone2 : blocks h !! (next h + 1) = None).
  { destruct (blocks h !! (next h + 1)) as [s|] eqn:E; [|reflexivity].
    assert (Hl : live h (next h + 1)) by (exists s; exact E).
    destruct Hwf as [_ Hb]. specialize (Hb _ Hl). lia. }
  assert (Hpos : next h <> NULL) by (destruct Hwf as [Hp _]; unfold NULL; lia).
  assert (Hpos2 : next h + 1 <> NULL)
    by (destruct Hwf as [Hp _]; unfold NULL; lia).
  unfold expression_ptrs in Hlive, Hapart, Hkeep.
  unfold duplicate_of, expression_ptrs.
  destruct (formula xlce =? NULL) eqn:Ef, (value xlce =? NULL) eqn:Ev;
    cbn [app] in Hlive, Hapart, Hkeep |- *.
  - rewrite (bind_ok _ _ h1 h1 (mkExpression 0 0)) by reflexivity.
    rewrite (bind_ok _ _ h1 h1 (mkExpression 0 0)) by reflexivity.
    eexists _, _. split; [reflexivity|].
    cbn [with_expression cell_type expression formula value word0 word1].
    split; [reflexivity|]. split; [reflexivity|]. split; [reflexivity|].
    split; [intros p Hp; inversion Hp|]. split; [exact Hgone|].
    split; [|exact Hwf1]. unfold cell_ptrs. cbn. split; constructor.
  - apply Forall_cons in Hlive as [[sv Hv] _].
    apply Z.eqb_neq in Ev.
    assert (Hv1 : blocks h1 !! value xlce = Some sv)
      by (rewrite Hkeep by left; exact Hv).
    rewrite (bind_ok _ _ h1 h1 (mkExpression 0 0)) by reflexivity.
    rewrite (bind_ok _ _ _ _ _
               (set_value_fresh_spec h1 0 (value xlce) sv Hv1 Ev)).
    eexists _, _. split; [reflexivity|].
    cbn [with_expression cell_type expression formula value word0 word1
         blocks next].
    rewrite Hn1.
    split; [reflexivity|]. split; [reflexivity|].
    split; [split; [exact Hpos|]; split; [exact Hnone|];
            split; [eexists; exact Hv|]; rewrite lookup_insert_eq; auto|].
    split.
    { intros p Hp. apply list_elem_of_singleton in Hp as ->.
      rewrite lookup_insert_ne, Hv1, Hv; [reflexivity|].
      apply not_eq_sym, (Hfresh (value xlce)). eexists; exact Hv. }
    split.
    { intros p Hp. rewrite lookup_insert_ne by (apply not_eq_sym, Hcell, Hp).
      apply Hgone, Hp. }
    split; [|apply (heap_wf_alloc h1 sv Hwf1)].
    unfold cell_ptrs.
    cbn [with_expression cell_type expression formula value word0 word1].
    destruct (decide _) as [_|Hne]; [|contradiction].
    apply Z.eqb_neq in Hpos. rewrite Hpos. cbn [app Z.eqb NULL].
    split; [apply NoDup_singleton|]. constructor; [|constructor].
    eexists. cbn [blocks]. apply lookup_insert_eq.
  - apply Forall_cons in Hlive as [[sf Hf] _].
    apply Z.eqb_neq in Ef.
    assert (Hf1 : blocks h1 !! formula xlce = Some sf)
      by (rewrite Hkeep by left; exact Hf).
    rewrite (bind_ok _ _ _ _ _
               (set_formula_fresh_spec h1 0 (formula xlce) sf Hf1 Ef)).
    match goal with
    | |- context [bind (ret ?e) _ ?g] =>
        rewrite (bind_ok (ret e) _ g g e) by reflexivity
    end.
    eexists _, _. split; [reflexivity|].
    cbn [with_expression cell_type expression formula value word0 word1
         blocks next].
    rewrite Hn1.
    split; [reflexivity|].
    split; [split; [exact Hpos|]; split; [exact Hnone|];
            split; [eexists; exact Hf|]; rewrite lookup_insert_eq; auto|].
    split; [reflexivity|].
    split.
    { intros p Hp. apply list_elem_of_singleton in Hp as ->.
      rewrite lookup_insert_ne, Hf1, Hf; [reflexivity|].
      apply not_eq_sym, (Hfresh (formula xlce)). eexists; exact Hf. }
    split.
    { intros p Hp. rewrite lookup_insert_ne by (apply not_eq_sym, Hcell, Hp).
      apply Hgone, Hp. }
    split; [|apply (heap_wf_alloc h1 sf Hwf1)].
    unfold cell_ptrs.
    cbn [with_expression cell_type expression formula value word0 word1].
    destruct (decide _) as [_|Hne]; [|contradiction].
    apply Z.eqb_neq in Hpos. rewrite Hpos. cbn [app Z.eqb NULL].
    split; [apply NoDup_singleton|]. constructor; [|constructor].
    eexists. cbn [blocks]. apply lookup_insert_eq.
  - apply Forall_cons in Hlive as [[sf Hf] Hlive].
    apply Forall_cons in Hlive as [[sv Hv] _].
    apply Z.eqb_neq in Ef, Ev.
    assert (Hf1 : blocks h1 !! formula xlce = Some sf)
      by (rewrite Hkeep by left; exact Hf).
    assert (Hv1 : blocks h1 !! value xlce = Some sv)
      by (rewrite Hkeep by (right; left); exact Hv).
    rewrite (bind_ok _ _ _ _ _
               (set_formula_fresh_spec h1 0 (formula xlce) sf Hf1 Ef)).
    set (h2 := mkHeap (<[next h1 := sf]> (blocks h1)) (next h1 + 1)).
    assert (Hv2 : blocks h2 !! value xlce = Some sv).
    { unfold h2. cbn [blocks]. rewrite lookup_insert_ne; [exact Hv1|].
      rewrite Hn1. apply not_eq_sym, (Hfresh (value xlce)).
      eexists; exact Hv. }
    rewrite (bind_ok _ _ _ _ _
               (set_value_fresh_spec h2 (next h1) (value xlce) sv Hv2 Ev)).
    eexists _, _. split; [reflexivity|].
    cbn [with_expression cell_type expression formula value word0 word1
         blocks next h2].
    rewrite Hn1.
    split; [reflexivity|].
    split.
    { split; [exact Hpos|]. split; [exact Hnone|].
      split; [eexists; exact Hf|].
      rewrite lookup_insert_ne by lia. rewrite lookup_insert_eq. auto. }
    split.
    { split; [exact Hpos2|]. split; [exact Hnone2|].
      split; [eexists; exact Hv|]. rewrite lookup_insert_eq. auto. }
    split.
    { intros p Hp.
      assert (Hl : live h p).
      { apply elem_of_cons in Hp as [->|Hp]; [eexists; exact Hf|].
        apply list_elem_of_singleton in Hp as ->. eexists; exact Hv. }
      destruct (Hfresh p Hl) as [N1 N2].
      rewrite !lookup_insert_ne by congruence. apply Hkeep, Hp. }
    split.
    { intros p Hp. destruct (Hcell p Hp) as [N1 N2].
      rewrite !lookup_insert_ne by congruence. apply Hgone, Hp. }
    split.
    + unfold cell_ptrs.
    cbn [with_expression cell_type expression formula value word0 word1].
      destruct (decide _) as [_|Hne]; [|contradiction].
      apply Z.eqb_neq in Hpos, Hpos2. rewrite Hpos, Hpos2. cbn [app].
      split.
      * apply NoDup_cons. split; [|apply NoDup_singleton].
        intros Hin. apply list_elem_of_singleton in Hin. lia.
      * constructor; [|constructor; [|constructor]]; eexists; cbn [blocks].
        -- rewrite lookup_insert_ne by lia. apply lookup_insert_eq.
        -- apply lookup_insert_eq.
    + pose proof (heap_wf_alloc h2 sv (heap_wf_alloc h1 sf Hwf1)) as W.
      unfold h2 in W. cbn [blocks next] in W. rewrite Hn1 in W. exact W.
Qed.

Lemma set_expression_owns_copies_witness :
  exists (c' : libo_xl_cell) (h' : heap),
    libo_xl_cell_set_expression cell_a (mkExpression 1 2) shared_heap
    = Some (c', h') /\
    cell_type c' = libo_xl_cell_type_expression /\
    duplicate_of shared_heap h' 1 (formula (expression c')) /\
    duplicate_of shared_heap h' 2 (value (expression c')) /\
    (forall p, p ∈ expression_ptrs (mkExpression 1 2) ->
               blocks h' !! p = blocks shared_heap !! p) /\
    (forall p, p ∈ cell_ptrs cell_a -> blocks h' !! p = None) /\
    owns h' (cell_ptrs c') /\ heap_wf h'.
Proof.
  apply (set_expression_owns_copies shared_heap cell_a (mkExpression 1 2)).
  - closed_heap_wf.
  - apply owns_nil.
  - repeat constructor; eexists; vm_compute; reflexivity.
  - intros p _ Hp. inversion Hp.
Defined.

(** ** Copies of sheets without strings *)

Lemma cell_dup_no_ptrs (h : heap) (c : libo_xl_cell) :
  cell_ptrs c = [] -> Copy.libo_xl_cell_dup c h = Some ((c, c), h).
Proof.
  unfold cell_ptrs, Copy.libo_xl_cell_dup. intros Hp.
  destruct (decide _) as [He|Hne]; [|reflexivity].
  destruct (formula (expression c) =? NULL) eqn:Ef; [|discriminate Hp].
  destruct (value (expression c) =? NULL) eqn:Ev; [|discriminate Hp].
  unfold bind, ret. rewrite Ev, with_expression_id. reflexivity.
Qed.

Lemma row_dup_loop_no_ptrs (cells : list libo_xl_cell) (nrow : libo_xl_row)
    (h : heap) :
  cells_ptrs cells = [] ->
  Copy.row_dup_loop cells nrow h
  = Some ((cells, mkRow (row_cell nrow ++ cells)), h).
Proof.
  revert nrow. induction cells as [|c cs IH]; intros nrow Hp.
  - cbn. rewrite app_nil_r. destruct nrow. reflexivity.
  - unfold cells_ptrs in Hp. cbn [flat_map] in Hp.
    apply app_eq_nil in Hp as [Hc Hcs].
    cbn [Copy.row_dup_loop].
    assert (E1 : Copy.libo_xl_row_add nrow c h
                 = Some ((mkRow (row_cell nrow ++ [c]), c), h)).
    { unfold Copy.libo_xl_row_add.
      rewrite (bind_ok _ _ _ _ _ (cell_dup_no_ptrs h c Hc)). reflexivity. }
    rewrite (bind_ok _ _ _ _ _ E1). cbn [fst snd].
    rewrite (bind_ok _ _ _ _ _ (IH (mkRow (row_cell nrow ++ [c])) Hcs)).
    cbn [fst snd row_cell]. rewrite <- app_assoc. reflexivity.
Qed.

Lemma row_dup_no_ptrs (r : libo_xl_row) (h : heap) :
  cells_ptrs (row_cell r) = [] -> Copy.libo_xl_row_dup r h = Some ((r, r), h).
Proof.
  intros Hp. unfold Copy.libo_xl_row_dup.
  rewrite (bind_ok _ _ _ _ _ (row_dup_loop_no_ptrs _ _ h Hp)).
  destruct r. reflexivity.
Qed.

Lemma sheet_dup_loop_no_ptrs (rows : list libo_xl_row) (nsheet : libo_xl_sheet)
    (h : heap) :
  rows_ptrs rows = [] ->
  Copy.sheet_dup_loop rows nsheet h
  = Some ((rows, Copy.with_rows nsheet (sheet_row nsheet ++ rows)), h).
Proof.
  revert nsheet. induction rows as [|r rs IH]; intros nsheet Hp.
  - cbn. rewrite app_nil_r. destruct nsheet. reflexivity.
  - unfold rows_ptrs in Hp. cbn [flat_map] in Hp.
    apply app_eq_nil in Hp as [Hr Hrs].
    cbn [Copy.sheet_dup_loop].
    assert (E1 : Copy.libo_xl_sheet_add nsheet r h
                 = Some ((Copy.with_rows nsheet (sheet_row nsheet ++ [r]), r), h)).
    { unfold Copy.libo_xl_sheet_add.
      rewrite (bind_ok _ _ _ _ _ (row_dup_no_ptrs r h Hr)). reflexivity. }
    rewrite (bind_ok _ _ _ _ _ E1). cbn [fst snd].
    rewrite (bind_ok _ _ _ _ _ (IH _ Hrs)).
    cbn [fst snd Copy.with_rows sheet_row]. rewrite <- app_assoc. reflexivity.
Qed.

(** X7. Where no cell of the sheet owns a string (text, number and empty
    cells, and expressions without strings), [libo_xl_book_add] is a true
    deep copy: the stored sheet has the same rows, name and column count,
    and neither the argument nor the heap is changed. *)
Theorem book_add_without_strings
    (h : heap) (xlb : libo_xl_book) (xls : libo_xl_sheet) :
  sheet_ptrs xls = [] ->
  exists d : libo_xl_sheet,
    Copy.libo_xl_book_add xlb xls h
    = Some ((mkBook (book_sheet xlb ++ [d]), xls), h) /\
    sheet_row d = sheet_row xls /\
    sheet_name d = sheet_name xls /\
    n_cols d = n_cols xls.
Proof.
  intros Hp. unfold Copy.libo_xl_book_add, Copy.libo_xl_sheet_dup.
  rewrite (bind_ok _ _ _ _ _
             (bind_ok _ _ _ _ _ (sheet_dup_loop_no_ptrs _ _ h Hp))).
  unfold ret. cbn [fst snd Copy.with_rows sheet_row libo_xl_sheet_new app
                   n_cols sheet_name default_row_height sheet_freeze
                   sheet_column sheet_filter ID rID].
  destruct xls. eexists. split; [|split; [|split]]; reflexivity.
Qed.

Lemma book_add_without_strings_witness :
  exists d : libo_xl_sheet,
    Copy.libo_xl_book_add libo_xl_book_new
      (mkSheet 1 (Some "S"%string) 9 None double_14_4
               (mkFreeze libo_xl_freeze_type_none 0)
               [mkRow [mkCell libo_xl_cell_type_reference 0 0;
                       mkCell libo_xl_cell_type_expression 0 0]] None None)
      empty_heap
    = Some ((mkBook (book_sheet libo_xl_book_new ++ [d]),
             mkSheet 1 (Some "S"%string) 9 None double_14_4
               (mkFreeze libo_xl_freeze_type_none 0)
               [mkRow [mkCell libo_xl_cell_type_reference 0 0;
                       mkCell libo_xl_cell_type_expression 0 0]] None None),
            empty_heap) /\
    sheet_row d = [mkRow [mkCell libo_xl_cell_type_reference 0 0;
                          mkCell libo_xl_cell_type_expression 0 0]] /\
    sheet_name d = Some "S"%string /\
    n_cols d = 1.
Proof.
  apply (book_add_without_strings empty_heap libo_xl_book_new
           (mkSheet 1 (Some "S"%string) 9 None double_14_4
               (mkFreeze libo_xl_freeze_type_none 0)
               [mkRow [mkCell libo_xl_cell_type_reference 0 0;
                       mkCell libo_xl_cell_type_expression 0 0]] None None)).
  reflexivity.
Defined.

(** ** Addresses are never handed out twice *)

Lemma monotone_ret {A : Type} (a : A) : monotone (ret a).
Proof. intros h a' h' E. injection E as _ <-. split; [lia | auto]. Qed.

Lemma monotone_bind {A B : Type} (m : M A) (k : A -> M B) :
  monotone m -> (forall a, monotone (k a)) -> monotone (bind m k).
Proof.
  intros Hm Hk h b h' E. unfold bind in E.
  destruct (m h) as [[a h1]|] eqn:E1; [|discriminate E].
  destruct (Hm _ _ _ E1) as [N1 D1]. destruct (Hk a _ _ _ E) as [N2 D2].
  split; [lia|]. intros p Hp Hnone. apply D2; [lia | apply D1; assumption].
Qed.

Lemma monotone_load (p : ptr) : monotone (load p).
Proof.
  intros h a h' E. unfold load in E.
  destruct (blocks h !! p); [|discriminate E].
  injection E as _ <-. split; [lia | auto].
Qed.

Lemma monotone_alloc (s : string) : monotone (alloc s).
Proof.
  intros h a h' E. unfold alloc in E. injection E as _ <-.
  cbn [next blocks]. split; [lia|]. intros p Hp Hnone.
  rewrite lookup_insert_ne by lia. exact Hnone.
Qed.

Lemma monotone_free (p : ptr) : monotone (free p).
Proof.
  intros h a h' E. unfold free in E.
  destruct (blocks h !! p); [|discriminate E].
  injection E as _ <-. cbn [next blocks]. split; [lia|]. intros q Hq Hnone.
  destruct (decide (p = q)) as [->|Hne]; [apply lookup_delete_eq|].
  rewrite lookup_delete_ne by exact Hne. exact Hnone.
Qed.

Lemma monotone_free_if (p : ptr) : monotone (free_if p).
Proof.
  unfold free_if. destruct (p =? NULL);
    [apply monotone_ret | apply monotone_free].
Qed.

Lemma monotone_strdup (p : ptr) : monotone (strdup p).
Proof.
  apply monotone_bind; [apply monotone_load | intros s; apply monotone_alloc].
Qed.

Create HintDb monotone.
#[local] Hint Resolve monotone_ret monotone_load monotone_alloc monotone_free
  monotone_free_if monotone_strdup : monotone.

Ltac monotone_step :=
  repeat first
    [ apply monotone_bind; [|intros ?]
    | match goal with
      | |- monotone (if ?b then _ else _) => destruct b
      | |- monotone (match ?x with _ => _ end) => destruct x
      end
    | solve [auto with monotone] ].

Lemma monotone_set_formula (e : libo_xl_cell_expression) (p : ptr) :
  monotone (libo_xl_cell_expression_set_formula e p).
Proof. unfold libo_xl_cell_expression_set_formula. monotone_step. Qed.

Lemma monotone_set_value (e : libo_xl_cell_expression) (p : ptr) :
  monotone (libo_xl_cell_expression_set_value e p).
Proof. unfold libo_xl_cell_expression_set_value. monotone_step. Qed.

#[local] Hint Resolve monotone_set_formula monotone_set_value : monotone.

Lemma monotone_cell_dup (c : libo_xl_cell) : monotone (Copy.libo_xl_cell_dup c).
Proof. unfold Copy.libo_xl_cell_dup. monotone_step. Qed.

#[local] Hint Resolve monotone_cell_dup : monotone.

Lemma monotone_row_add (r : libo_xl_row) (c : libo_xl_cell) :
  monotone (Copy.libo_xl_row_add r c).
Proof. unfold Copy.libo_xl_row_add. monotone_step. Qed.

#[local] Hint Resolve monotone_row_add : monotone.

Lemma monotone_row_dup_loop (cells : list libo_xl_cell) (nrow : libo_xl_row) :
  monotone (Copy.row_dup_loop cells nrow).
Proof.
  revert nrow. induction cells as [|c cs IH]; intros nrow;
    cbn [Copy.row_dup_loop]; monotone_step; apply IH.
Qed.

#[local] Hint Resolve monotone_row_dup_loop : monotone.

Lemma monotone_row_dup (r : libo_xl_row) : monotone (Copy.libo_xl_row_dup r).
Proof. unfold Copy.libo_xl_row_dup. monotone_step. Qed.

#[local] Hint Resolve monotone_row_dup : monotone.

Lemma monotone_sheet_add (s : libo_xl_sheet) (r : libo_xl_row) :
  monotone (Copy.libo_xl_sheet_add s r).
Proof. unfold Copy.libo_xl_sheet_add. monotone_step. Qed.

#[local] Hint Resolve monotone_sheet_add : monotone.

Lemma monotone_sheet_dup_loop (rows : list libo_xl_row) (ns : libo_xl_sheet) :
  monotone (Copy.sheet_dup_loop rows ns).
Proof.
  revert ns. induction rows as [|r rs IH]; intros ns;
    cbn [Copy.sheet_dup_loop]; monotone_step; apply IH.
Qed.

#[local] Hint Resolve monotone_sheet_dup_loop : monotone.

(** ** The strings of a copy *)

Lemma owns_below (h : heap) (ps : list ptr) (p : ptr) :
  heap_wf h -> owns h ps -> p ∈ ps -> p < next h.
Proof.
  intros [_ Hb] [_ Hl] Hp. rewrite Forall_forall in Hl.
  specialize (Hb p (Hl p Hp)). lia.
Qed.

Lemma row_dup_loop_dead (cells : list libo_xl_cell) :
  forall (h : heap) (nrow : libo_xl_row),
    heap_wf h -> owns h (cells_ptrs cells) ->
    exists (cells' : list libo_xl_cell) (h' : heap),
      Copy.row_dup_loop cells nrow h
      = Some ((cells', mkRow (row_cell nrow ++ cells)), h') /\
      heap_wf h' /\ preserves (cells_ptrs cells) h h' /\
      (forall p, p ∈ cells_ptrs cells -> blocks h' !! p = None).
Proof.
  induction cells as [|c cs IH]; intros h nrow Hwf Hown.
  - exists [], h. cbn. rewrite app_nil_r. destruct nrow.
    split; [reflexivity|]. split; [exact Hwf|].
    split; [apply preserves_refl|]. intros p Hp. inversion Hp.
  - unfold cells_ptrs in Hown. cbn [flat_map] in Hown.
    pose proof Hown as Hall.
    apply owns_app in Hown as (Hc & Hcs & Hdisj).
    destruct (cell_dup_spec h c Hwf Hc) as (c' & h1 & E0 & Hwf1 & Hp1 & Hd1).
    assert (E1 : Copy.libo_xl_row_add nrow c h
                 = Some ((mkRow (row_cell nrow ++ [c]), c'), h1)).
    { unfold Copy.libo_xl_row_add. rewrite (bind_ok _ _ _ _ _ E0). reflexivity. }
    pose proof (owns_preserved _ _ _ _ Hp1 Hcs Hdisj) as Hcs1.
    destruct (IH h1 (mkRow (row_cell nrow ++ [c])) Hwf1 Hcs1)
      as (cs' & h2 & E2 & Hwf2 & Hp2 & Hd2).
    exists (c' :: cs'), h2. cbn [Copy.row_dup_loop].
    rewrite (bind_ok _ _ _ _ _ E1). cbn [fst snd].
    rewrite (bind_ok _ _ _ _ _ E2). cbn [fst snd row_cell].
    rewrite <- app_assoc. split; [reflexivity|]. split; [exact Hwf2|].
    split; [exact (preserves_trans _ _ h h1 h2 Hp1 Hp2)|].
    intros p Hp. unfold cells_ptrs in Hp. cbn [flat_map] in Hp.
    apply elem_of_app in Hp as [Hp|Hp]; [|apply Hd2, Hp].
    destruct (monotone_row_add nrow c _ _ _ E1) as [N1 _].
    destruct (monotone_row_dup_loop cs _ _ _ _ E2) as [_ D2].
    apply D2; [|apply Hd1, Hp].
    pose proof (owns_below h _ p Hwf Hc Hp). lia.
Qed.

Lemma sheet_dup_loop_dead (rows : list libo_xl_row) :
  forall (h : heap) (nsheet : libo_xl_sheet),
    heap_wf h -> owns h (rows_ptrs rows) ->
    exists (rows' : list libo_xl_row) (h' : heap),
      Copy.sheet_dup_loop rows nsheet h
      = Some ((rows', Copy.with_rows nsheet (sheet_row nsheet ++ rows)), h') /\
      heap_wf h' /\ preserves (rows_ptrs rows) h h' /\
      (forall p, p ∈ rows_ptrs rows -> blocks h' !! p = None).
Proof.
  induction rows as [|r rs IH]; intros h nsheet Hwf Hown.
  - exists [], h. cbn. rewrite app_nil_r. destruct nsheet.
    split; [reflexivity|]. split; [exact Hwf|].
    split; [apply preserves_refl|]. intros p Hp. inversion Hp.
  - unfold rows_ptrs in Hown. cbn [flat_map] in Hown.
    apply owns_app in Hown as (Hr & Hrs & Hdisj).
    destruct (row_dup_loop_dead (row_cell r) h libo_xl_row_new Hwf Hr)
      as (cells' & h1 & E0 & Hwf1 & Hp1 & Hd1).
    assert (E1 : Copy.libo_xl_sheet_add nsheet r h
                 = Some ((Copy.with_rows nsheet (sheet_row nsheet ++ [r]),
                          mkRow cells'), h1)).
    { unfold Copy.libo_xl_sheet_add, Copy.libo_xl_row_dup.
      rewrite (bind_ok _ _ _ _ _ (bind_ok _ _ _ _ _ E0)).
      cbn [fst snd libo_xl_row_new row_cell app]. destruct r. reflexivity. }
    pose proof (owns_preserved _ _ _ _ Hp1 Hrs Hdisj) as Hrs1.
    destruct (IH h1 (Copy.with_rows nsheet (sheet_row nsheet ++ [r])) Hwf1 Hrs1)
      as (rs' & h2 & E2 & Hwf2 & Hp2 & Hd2).
    exists (mkRow cells' :: rs'), h2. cbn [Copy.sheet_dup_loop].
    rewrite (bind_ok _ _ _ _ _ E1). cbn [fst snd].
    rewrite (bind_ok _ _ _ _ _ E2). cbn [fst snd Copy.with_rows sheet_row].
    rewrite <- app_assoc. split; [reflexivity|]. split; [exact Hwf2|].
    split; [exact (preserves_trans _ _ h h1 h2 Hp1 Hp2)|].
    intros p Hp. unfold rows_ptrs in Hp. cbn [flat_map] in Hp.
    apply elem_of_app in Hp as [Hp|Hp]; [|apply Hd2, Hp].
    destruct (monotone_sheet_add nsheet r _ _ _ E1) as [N1 _].
    destruct (monotone_sheet_dup_loop rs _ _ _ _ E2) as [_ D2].
    apply D2; [|apply Hd1, Hp].
    pose proof (owns_below h _ p Hwf Hr Hp). lia.
Qed.

(** X8. For any sheet that owns its strings, the sheet [libo_xl_book_add]
    stores has the same rows word for word, and every formula and value
    string those rows point to has been freed by the time the call returns:
    the duplicates were made for the argument, not for the copy. Buffers of
    other owners are untouched. *)
Theorem book_add_copy_dangles
    (h : heap) (xlb : libo_xl_book) (xls : libo_xl_sheet) :
  heap_wf h -> owns h (sheet_ptrs xls) ->
  exists (xls' d : libo_xl_sheet) (h' : heap),
    Copy.libo_xl_book_add xlb xls h
    = Some ((mkBook (book_sheet xlb ++ [d]), xls'), h') /\
    sheet_row d = sheet_row xls /\
    (forall p, p ∈ sheet_ptrs d -> blocks h' !! p = None) /\
    (forall p, p ∉ sheet_ptrs xls -> live h p -> blocks h' !! p = blocks h !! p).
Proof.
  intros Hwf Hown. unfold Copy.libo_xl_book_add, Copy.libo_xl_sheet_dup.
  match goal with
  | |- context [Copy.sheet_dup_loop _ ?ns] =>
      destruct (sheet_dup_loop_dead (sheet_row xls) h ns Hwf Hown)
        as (rows' & h' & E & _ & Hp & Hd)
  end.
  rewrite (bind_ok _ _ _ _ _ (bind_ok _ _ _ _ _ E)).
  eexists _, _, h'. split; [reflexivity|].
  cbn [fst snd Copy.with_rows sheet_row libo_xl_sheet_new app].
  split; [reflexivity|]. split; [exact Hd | exact Hp].
Qed.

Lemma book_add_copy_dangles_witness :
  exists (xls' d : libo_xl_sheet) (h' : heap),
    Copy.libo_xl_book_add libo_xl_book_new sample_sheet shared_heap
    = Some ((mkBook (book_sheet libo_xl_book_new ++ [d]), xls'), h') /\
    sheet_row d = sheet_row sample_sheet /\
    (forall p, p ∈ sheet_ptrs d -> blocks h' !! p = None) /\
    (forall p, p ∉ sheet_ptrs sample_sheet -> live shared_heap p ->
               blocks h' !! p = blocks shared_heap !! p).
Proof.
  apply (book_add_copy_dangles shared_heap libo_xl_book_new sample_sheet).
  - closed_heap_wf.
  - closed_owns [1; 2].
Defined.

(** ** The column count of a sheet *)

Lemma count_loop_spec (rows : list libo_xl_row) (n : Z) :
  exists m : Z,
    count_loop (pointers rows) n = Some m /\
    n <= m /\
    (forall r, r ∈ rows -> n_cells r <= m) /\
    (m = n \/ exists r, r ∈ rows /\ n_cells r = m).
Proof.
  unfold pointers. revert n. induction rows as [|row rest IH]; intros n.
  - exists n. split; [reflexivity|]. split; [lia|].
    split; [intros r Hr; inversion Hr | left; reflexivity].
  - cbn [map count_loop].
    destruct (IH (if n_cells row >? n then n_cells row else n))
      as (m & E & Hle & Hall & Hmax).
    exists m. split; [exact E|].
    destruct (n_cells row >? n) eqn:Egt.
    + apply Z.gtb_lt in Egt. split; [lia|]. split.
      * intros r Hr. apply elem_of_cons in Hr as [->|Hr]; [lia | apply Hall, Hr].
      * right. destruct Hmax as [Hm | (r & Hr & Hm)].
        -- exists row. split; [left | lia].
        -- exists r. split; [right; exact Hr | exact Hm].
    + assert (n_cells row <= n)
        by (destruct (Z.gtb_spec (n_cells row) n); [discriminate | lia]).
      split; [lia|]. split.
      * intros r Hr. apply elem_of_cons in Hr as [->|Hr]; [lia | apply Hall, Hr].
      * destruct Hmax as [Hm | (r & Hr & Hm)]; [left; exact Hm|].
        right. exists r. split; [right; exact Hr | exact Hm].
Qed.

Lemma count_loop_null (before : list libo_xl_row)
    (after : list (option libo_xl_row)) (n : Z) :
  count_loop (pointers before ++ None :: after) n = None.
Proof.
  unfold pointers. revert n.
  induction before as [|row rest IH]; intros n; [reflexivity|].
  cbn [map app count_loop]. apply IH.
Qed.

(** X9. For a sheet whose row pointers are all non-null
    [libo_xl_sheet_count_columns] sets the column count to the cell count of
    the widest row, whatever the field held before: no row has more cells,
    some row has exactly that many, and a sheet without rows gets 0; the
    rows are left as they are. The loop reads [row->n_cells] without a test
    of [row]: with a null element anywhere in the array it dereferences a
    null pointer. *)
Theorem count_columns_widest_row (xls : libo_xl_sheet) :
  (exists xls' : libo_xl_sheet,
      libo_xl_sheet_count_columns xls = Some xls' /\
      sheet_row xls' = sheet_row xls /\
      (forall r, r ∈ sheet_row xls ->
                 libo_xl_row_get_cell_count (Some r) <= n_cols xls') /\
      ((sheet_row xls = [] /\ n_cols xls' = 0) \/
       exists r, r ∈ sheet_row xls /\
                 libo_xl_row_get_cell_count (Some r) = n_cols xls')) /\
  (forall (before : list libo_xl_row) (after : list (option libo_xl_row)),
      count_loop (pointers before ++ None :: after) 0 = None).
Proof.
  split; [|intros before after; apply count_loop_null].
  unfold libo_xl_sheet_count_columns.
  destruct (count_loop_spec (sheet_row xls) 0) as (m & E & Hle & Hall & Hmax).
  rewrite E. cbn [mbind option_bind]. eexists. split; [reflexivity|].
  unfold with_n_cols. cbn [sheet_row n_cols libo_xl_row_get_cell_count].
  split; [reflexivity|]. split; [exact Hall|].
  destruct Hmax as [Hm | Hm]; [|right; exact Hm].
  destruct (sheet_row xls) as [|r rs] eqn:Er;
    [left; split; [reflexivity | exact Hm]|].
  right. exists r. split; [left|].
  pose proof (Hall r ltac:(left)) as Hr. unfold n_cells in *. lia.
Qed.

(** ** Creating a cell *)

Lemma get_row_lookup (s : libo_xl_sheet) (row : Z) (r : libo_xl_row) :
  libo_xl_sheet_get_row (Some s) row = Some r ->
  0 <= row < n_rows s /\ sheet_row s !! Z.to_nat row = Some r.
Proof.
  cbn [libo_xl_sheet_get_row]. intros H.
  destruct (row <? 0) eqn:E1; [discriminate H|].
  destruct (row >=? n_rows s) eqn:E2; [discriminate H|].
  apply Z.ltb_ge in E1. rewrite Z.geb_leb in E2. apply Z.leb_gt in E2.
  split; [lia | exact H].
Qed.

Lemma get_row_none (s : libo_xl_sheet) (row : Z) :
  0 <= row -> libo_xl_sheet_get_row (Some s) row = None -> n_rows s <= row.
Proof.
  cbn [libo_xl_sheet_get_row]. intros H0 H.
  destruct (row <? 0) eqn:E1; [apply Z.ltb_lt in E1; lia|].
  destruct (row >=? n_rows s) eqn:E2; [apply Z.geb_le in E2; lia|].
  rewrite Z.geb_leb in E2. apply Z.leb_gt in E2.
  apply lookup_ge_None in H. unfold n_rows in *. lia.
Qed.

Lemma get_cell_lookup (r : libo_xl_row) (col : Z) (c : libo_xl_cell) :
  libo_xl_row_get_cell (Some r) col = Some c ->
  0 <= col < n_cells r /\ row_cell r !! Z.to_nat col = Some c.
Proof.
  cbn [libo_xl_row_get_cell]. intros H.
  destruct (col <? 0) eqn:E1; [discriminate H|].
  destruct (col >=? n_cells r) eqn:E2; [discriminate H|].
  apply Z.ltb_ge in E1. rewrite Z.geb_leb in E2. apply Z.leb_gt in E2.
  split; [lia | exact H].
Qed.

Lemma get_cell_none (r : libo_xl_row) (col : Z) :
  0 <= col -> libo_xl_row_get_cell (Some r) col = None -> n_cells r <= col.
Proof.
  cbn [libo_xl_row_get_cell]. intros H0 H.
  destruct (col <? 0) eqn:E1; [apply Z.ltb_lt in E1; lia|].
  destruct (col >=? n_cells r) eqn:E2; [apply Z.geb_le in E2; lia|].
  rewrite Z.geb_leb in E2. apply Z.leb_gt in E2.
  apply lookup_ge_None in H. unfold n_cells in *. lia.
Qed.

(** X10. [libo_xl_cell_create] never creates the cell it is asked for. It
    returns the cell when the cell exists. On an existing row that is too
    short it pads the row with new cells up to, but not including, the
    column asked for and returns [NULL]; the cell still does not exist
    afterwards and a second call changes nothing. On a row index at or past
    the row count it indexes the row array one past its end. *)
Theorem cell_create_outcomes (sheet : libo_xl_sheet) (row col : Z) :
  0 <= row -> 0 <= col ->
  match libo_xl_sheet_get_row (Some sheet) row with
  | None => libo_xl_cell_create sheet row col = None
  | Some r =>
      match libo_xl_row_get_cell (Some r) col with
      | Some c => libo_xl_cell_create sheet row col = Some (Some c, sheet)
      | None =>
          exists sheet' : libo_xl_sheet,
            libo_xl_cell_create sheet row col = Some (None, sheet') /\
            sheet_row sheet'
            = <[Z.to_nat row :=
                  mkRow (row_cell r
                         ++ replicate (Z.to_nat (col - n_cells r))
                                      libo_xl_cell_new)]> (sheet_row sheet) /\
            libo_xl_row_get_cell (libo_xl_sheet_get_row (Some sheet') row) col
            = None /\
            libo_xl_cell_create sheet' row col = Some (None, sheet')
      end
  end.
Proof.
  intros Hrow Hcol.
  assert (Hr0 : (row <? 0) = false) by (apply Z.ltb_ge; lia).
  assert (Hc0 : (col <? 0) = false) by (apply Z.ltb_ge; lia).
  destruct (libo_xl_sheet_get_row (Some sheet) row) as [r|] eqn:Er.
  - apply get_row_lookup in Er as [Hrange Hr].
    assert (Hlt : (row <? n_rows sheet) = true) by (apply Z.ltb_lt; lia).
    assert (Hge : (row >=? n_rows sheet) = false)
      by (rewrite Z.geb_leb; apply Z.leb_gt; lia).
    destruct (libo_xl_row_get_cell (Some r) col) as [c|] eqn:Ec.
    + apply get_cell_lookup in Ec as [Hcr Hc].
      unfold libo_xl_cell_create. rewrite Hr0, Hc0, Hlt, Hr. cbn.
      assert (Hcl : (col <? n_cells r) = true) by (apply Z.ltb_lt; lia).
      rewrite Hcl, Hc. reflexivity.
    + apply get_cell_none in Ec; [|exact Hcol].
      assert (Hcl : (col <? n_cells r) = false) by (apply Z.ltb_ge; lia).
      assert (Htake : take (Z.to_nat col) (row_cell r) = row_cell r)
        by (apply take_ge; unfold n_cells in Ec; lia).
      set (r' := mkRow (row_cell r
                        ++ replicate (Z.to_nat (col - n_cells r))
                                     libo_xl_cell_new)).
      set (sheet' := with_rows sheet (<[Z.to_nat row := r']> (sheet_row sheet))).
      assert (E : libo_xl_cell_create sheet row col = Some (None, sheet')).
      { unfold libo_xl_cell_create. rewrite Hr0, Hc0, Hlt, Hr. cbn.
        rewrite Hcl. unfold libo_xl_col_fill. rewrite Hge, Hr. cbn.
        rewrite Htake. reflexivity. }
      assert (Hlen : n_cells r' = col).
      { unfold n_cells, r' in *. cbn [row_cell].
        rewrite length_app, length_replicate. unfold n_cells. lia. }
      assert (Hr' : sheet_row sheet' !! Z.to_nat row = Some r').
      { unfold sheet'. cbn [with_rows sheet_row].
        apply list_lookup_insert_eq. apply (lookup_lt_Some _ _ _ Hr). }
      assert (Hn' : n_rows sheet' = n_rows sheet).
      { unfold sheet', n_rows. cbn [with_rows sheet_row].
        rewrite length_insert. reflexivity. }
      exists sheet'. split; [exact E|]. split; [reflexivity|].
      assert (Hge' : (row >=? n_rows sheet') = false) by (rewrite Hn'; exact Hge).
      assert (Hlt' : (row <? n_rows sheet') = true) by (rewrite Hn'; exact Hlt).
      split.
      * cbn [libo_xl_sheet_get_row]. rewrite Hr0, Hge', Hr'.
        cbn [libo_xl_row_get_cell]. rewrite Hc0, Hlen.
        rewrite Z.geb_leb, Z.leb_refl. reflexivity.
      * unfold libo_xl_cell_create. rewrite Hr0, Hc0, Hlt', Hr'. cbn.
        rewrite Hlen, Z.ltb_irrefl.
        unfold libo_xl_col_fill. rewrite Hge', Hr'. cbn.
        rewrite Hlen, Z.sub_diag. change (Z.to_nat 0) with 0%nat.
        cbn [replicate]. rewrite app_nil_r.
        assert (Hl2 : (length (row_cell r') <= Z.to_nat col)%nat)
          by (unfold n_cells in Hlen; lia).
        unfold r' in Hl2. cbn [row_cell] in Hl2. rewrite (take_ge _ _ Hl2).
        fold r'. rewrite list_insert_insert_eq. reflexivity.
  - apply get_row_none in Er; [|exact Hrow].
    unfold libo_xl_cell_create. rewrite Hr0, Hc0.
    assert (Hlt : (row <? n_rows sheet) = false) by (apply Z.ltb_ge; lia).
    assert (Hge : (row >=? n_rows sheet) = true)
      by (rewrite Z.geb_leb; apply Z.leb_le; lia).
    rewrite Hlt. unfold libo_xl_col_fill. rewrite Hge.
    unfold libo_xl_row_fill. cbn [with_rows sheet_row].
    rewrite take_ge by (unfold n_rows in Er; lia).
    rewrite (proj2 (lookup_ge_None _ _)); [reflexivity|].
    rewrite length_app, length_replicate. unfold n_rows in *. lia.
Qed.

Lemma cell_create_outcomes_witness :
  exists sheet' : libo_xl_sheet,
    libo_xl_cell_create written_sheet 0 4 = Some (None, sheet') /\
    sheet_row sheet'
    = <[Z.to_nat 0 :=
          mkRow (row_cell (mkRow [mkCell libo_xl_cell_type_reference 0 0;
                                  mkCell libo_xl_cell_type_expression 0 0])
                 ++ replicate
                      (Z.to_nat
                         (4 - n_cells
                                (mkRow [mkCell libo_xl_cell_type_reference 0 0;
                                        mkCell libo_xl_cell_type_expression 0 0])))
                      libo_xl_cell_new)]> (sheet_row written_sheet) /\
    libo_xl_row_get_cell (libo_xl_sheet_get_row (Some sheet') 0) 4 = None /\
    libo_xl_cell_create sheet' 0 4 = Some (None, sheet').
Proof. apply (cell_create_outcomes written_sheet 0 4); lia. Defined.

(** ** The value of a cell as a string *)

Section StringValue.

Variable sprintf_g : double -> string.

Lemma heap_wf_null (h : heap) : heap_wf h -> blocks h !! NULL = None.
Proof.
  intros [_ Hwf]. destruct (blocks h !! NULL) as [s|] eqn:E; [|reflexivity].
  assert (Hl : live h NULL) by (exists s; exact E).
  specialize (Hwf _ Hl). unfold NULL in Hwf. lia.
Qed.

(** X11. On an Expression cell [libo_xl_cell_get_string_value] passes the
    formula to [strdup] without a test: a cell with no formula, such as
    every gap cell the reader makes, is a null dereference, so the fall-back
    to the value and to the empty string is never reached; a cell with a
    formula yields a fresh copy of it. *)
Theorem string_value_of_expression
    (h : heap) (xl : option strings) (c : libo_xl_cell) :
  heap_wf h -> cell_type c = libo_xl_cell_type_expression ->
  (formula (expression c) = NULL ->
   libo_xl_cell_get_string_value sprintf_g xl (Some c) h = None) /\
  (is_gap h c ->
   libo_xl_cell_get_string_value sprintf_g xl (Some c) h = None) /\
  (forall s : string,
      blocks h !! formula (expression c) = Some s ->
      libo_xl_cell_get_string_value sprintf_g xl (Some c) h
      = Some (next h, mkHeap (<[next h := s]> (blocks h)) (next h + 1))).
Proof.
  intros Hwf Ht.
  assert (Hnull : formula (expression c) = NULL ->
                  libo_xl_cell_get_string_value sprintf_g xl (Some c) h = None).
  { intros Hf. unfold libo_xl_cell_get_string_value. rewrite Ht, Hf.
    unfold bind, strdup, load. cbv beta. unfold bind.
    rewrite (heap_wf_null h Hwf). reflexivity. }
  split; [exact Hnull|]. split; [intros (_ & Hf & _); exact (Hnull Hf)|].
  intros s Hs. unfold libo_xl_cell_get_string_value. rewrite Ht.
  rewrite (bind_ok _ _ _ _ _ (strdup_spec h _ s Hs)).
  destruct Hwf as [Hpos _].
  assert (Hn : (next h =? NULL) = false) by (apply Z.eqb_neq; unfold NULL; lia).
  rewrite Hn.
  match goal with
  | |- context [bind (ret ?e) _ ?g] =>
      rewrite (bind_ok (ret e) _ g g e) by reflexivity
  end.
  rewrite Hn. reflexivity.
Qed.


End StringValue.

Lemma string_value_of_expression_witness :
  (formula (expression shared_cell) = NULL ->
   libo_xl_cell_get_string_value sprintf_g_zero None (Some shared_cell)
     shared_heap = None) /\
  (is_gap shared_heap shared_cell ->
   libo_xl_cell_get_string_value sprintf_g_zero None (Some shared_cell)
     shared_heap = None) /\
  (forall s : string,
      blocks shared_heap !! formula (expression shared_cell) = Some s ->
      libo_xl_cell_get_string_value sprintf_g_zero None (Some shared_cell)
        shared_heap
      = Some (next shared_heap,
              mkHeap (<[next shared_heap := s]> (blocks shared_heap))
                     (next shared_heap + 1))).
Proof.
  apply (string_value_of_expression sprintf_g_zero shared_heap None shared_cell).
  - closed_heap_wf.
  - reflexivity.
Defined.


(** ** The reader on worksheets it does not expect *)

Lemma fill_loop_length (count : nat) :
  forall (j : Z) (cells cells' : list libo_xl_cell) (h h' : heap),
    fill_loop count j cells h = Some (cells', h') ->
    length cells' = length cells.
Proof.
  induction count as [|k IH]; intros j cells cells' h h' E.
  - injection E as <- _. reflexivity.
  - cbn [fill_loop] in E. unfold bind at 1 in E.
    destruct (cell_at cells j h) as [[c h1]|]; [|discriminate E].
    unfold bind at 1 in E. cbn [alloc] in E.
    apply IH in E. rewrite E. unfold store_cell. apply length_insert.
Qed.

Lemma filter_length_lt {A : Type} (f : A -> bool) (l : list A) (x : A) :
  x ∈ l -> f x = false -> (length (List.filter f l) < length l)%nat.
Proof.
  intros Hin Hx. induction l as [|a l IH]; [inversion Hin|].
  cbn [List.filter length].
  pose proof (List.filter_length_le f l) as Hle.
  apply elem_of_cons in Hin as [<-|Hin].
  - rewrite Hx. lia.
  - specialize (IH Hin). destruct (f a); cbn [length]; lia.
Qed.

Section ReaderEdges.

Variable atof : string -> double.

(** X12. On a worksheet with a positive column count, one child element of
    [sheetData] that is no [row] makes the row counts differ, and then
    nothing is read: the sheet gets one row per child element, every cell a
    new Empty cell, and the heap is untouched. *)
Theorem foreign_element_blanks_sheet
    (h : heap) (sheet : libo_xl_sheet) (els : list xml_row) (e : xml_row) :
  e ∈ els -> element_name e <> "row"%string ->
  0 < count_sheet_columns_in_xml (Some els) ->
  exists s : libo_xl_sheet,
    libo_xl_sheet_read atof sheet (Some els) h = Some (s, h) /\
    n_rows s = Z.of_nat (length els) /\
    Forall (fun r => Forall (fun c => c = libo_xl_cell_new) (row_cell r))
           (sheet_row s).
Proof.
  intros Hin Hname _.
  assert (Hf : String.eqb (element_name e) "row" = false)
    by (apply String.eqb_neq, Hname).
  pose proof (filter_length_lt
                (fun e => String.eqb (element_name e) "row") els e Hin Hf) as Hlt.
  unfold libo_xl_sheet_read, libo_xl_sheet_rows_read.
  cbn [count_sheet_rows_in_xml row_nodes].
  destruct (Z.of_nat (length (List.filter _ els)) =? Z.of_nat (length els)) eqn:E;
    [apply Z.eqb_eq in E; lia|].
  rewrite (bind_ok _ _ h h _ eq_refl).
  eexists. split; [reflexivity|]. cbn [sheet_row n_rows]. unfold n_rows.
  cbn [sheet_row]. unfold new_grid. rewrite length_replicate, Nat2Z.id.
  split; [reflexivity|].
  apply Forall_forall. intros r Hr. apply elem_of_replicate in Hr as [-> _].
  cbn [row_cell]. apply Forall_forall. intros c Hc.
  apply elem_of_replicate in Hc as [-> _]. reflexivity.
Qed.

Lemma read_row_overrun (n : nat) (node : xml_row) (row : libo_xl_row)
    (nd : xml_cell) (more : list xml_cell) (h : heap) :
  (0 < n)%nat -> length (row_cell row) = n ->
  row_children node = nd :: more -> node_name nd = "c"%string ->
  Z.of_nat n <= col_of nd ->
  read_row atof (Z.of_nat n) node row h = None.
Proof.
  intros Hn Hlen Hch Hname Hcol. unfold read_row. rewrite Hch.
  cbn [row_loop].
  assert (H0 : (0 <? Z.of_nat n) = true) by (apply Z.ltb_lt; lia).
  rewrite H0, Hname. cbn [String.eqb Ascii.eqb Bool.eqb].
  fold (col_of nd).
  unfold bind at 1. unfold bind at 1. unfold bind at 1.
  destruct (fill_loop (Z.to_nat (col_of nd - 0)) 0 (row_cell row) h)
    as [[cells1 h1]|] eqn:E; [|reflexivity].
  apply fill_loop_length in E.
  unfold bind at 1. unfold cell_at.
  destruct (Z.max 0 (col_of nd) <? 0) eqn:E0; [reflexivity|].
  rewrite (proj2 (lookup_ge_None cells1 _)); [reflexivity|]. lia.
Qed.

(** X13. The grid is as wide as the span of the first row. A later row (or
    the first) that starts with a [c] element whose column is at or past
    that width makes the reader index a row's cell array past its end,
    whatever rows come after. *)
Theorem reader_overruns_narrow_grid
    (h : heap) (n : nat) (good rest : list xml_row) (bad : xml_row)
    (nd : xml_cell) (more : list xml_cell) :
  heap_wf h -> (0 < n)%nat -> Forall (sparse_row (Z.of_nat n)) good ->
  row_children bad = nd :: more -> node_name nd = "c"%string ->
  Z.of_nat n <= col_of nd ->
  libo_xl_sheet_rows_read atof
    (Z.of_nat (length (good ++ bad :: rest))) (Z.of_nat n)
    (good ++ bad :: rest) h = None.
Proof.
  intros Hwf Hn Hgood Hch Hname Hcol. unfold libo_xl_sheet_rows_read.
  rewrite Z.eqb_refl. unfold new_grid. rewrite !Nat2Z.id.
  set (fresh_row := mkRow (replicate n libo_xl_cell_new)).
  rewrite length_app. cbn [length]. rewrite replicate_add.
  cbn [replicate]. generalize (replicate (length rest) fresh_row) as tail.
  intros tail. revert h Hwf.
  induction Hgood as [|node good Hnode _ IH]; intros h Hwf.
  - cbn [app length replicate rows_loop]. unfold bind at 1.
    rewrite (read_row_overrun n bad fresh_row nd more h Hn);
      [reflexivity | apply length_replicate | assumption..].
  - cbn [app length replicate rows_loop].
    destruct (read_row_spec atof n node fresh_row h Hwf eq_refl Hnode)
      as (r & h1 & E1 & Hwf1 & _).
    rewrite (bind_ok _ _ _ _ _ E1).
    unfold bind at 1. rewrite (IH h1 Hwf1). reflexivity.
Qed.

End ReaderEdges.

Lemma foreign_element_blanks_sheet_witness :
  exists s : libo_xl_sheet,
    libo_xl_sheet_read atof_zero libo_xl_sheet_new (Some foreign_rows) empty_heap
    = Some (s, empty_heap) /\
    n_rows s = Z.of_nat (length foreign_rows) /\
    Forall (fun r => Forall (fun c => c = libo_xl_cell_new) (row_cell r))
           (sheet_row s).
Proof.
  apply (foreign_element_blanks_sheet atof_zero empty_heap libo_xl_sheet_new
           foreign_rows (mkXmlRow "extLst" None [])).
  - right. left.
  - cbn. intros H. discriminate H.
  - reflexivity.
Defined.

Lemma reader_overruns_narrow_grid_witness :
  libo_xl_sheet_rows_read atof_zero
    (Z.of_nat (length widening_rows)) (Z.of_nat 2) widening_rows empty_heap
  = None.
Proof.
  apply (reader_overruns_narrow_grid atof_zero empty_heap 2
           [mkXmlRow "row" (Some "1:2"%string) [number_cell "A1" "1"]] []
           (mkXmlRow "row" (Some "1:3"%string) [number_cell "C2" "3"])
           (number_cell "C2" "3") []).
  - closed_heap_wf.
  - lia.
  - repeat constructor; vm_compute; intros H; discriminate H.
  - reflexivity.
  - reflexivity.
  - vm_compute. intros H. discriminate H.
Defined.


(** ** What the writer emits is what the reader expects *)

Lemma strapp_Some (s t : string) : strapp (Some s) t = Some (s ++ t)%string.
Proof. reflexivity. Qed.

Lemma append_nil_r (s : string) : (s ++ EmptyString)%string = s.
Proof.
  induction s as [|ch s IH]; [reflexivity|].
  change (String ch (s ++ EmptyString)%string = String ch s). now rewrite IH.
Qed.

Lemma sprintf_d_neg (p : positive) :
  sprintf_d (Z.neg p) = String "-"%char (sprintf_d (Z.pos p)).
Proof.
  unfold sprintf_d. cbn [Z.to_int NilZero.string_of_int].
  unfold NilZero.string_of_uint.
  pose proof (Unsigned.to_uint_nonnil p) as Hnn.
  destruct (Pos.to_uint p); [congruence | reflexivity..].
Qed.

(** [atoi] reads back what [sprintf] writes with [%d]. *)
Lemma atoi_sprintf_d_int (v : Z) : in_int v -> atoi (sprintf_d v) = v.
Proof.
  intros Hv. unfold in_int, two31 in Hv. destruct v as [|p|p].
  - reflexivity.
  - apply atoi_sprintf_d. unfold two31. lia.
  - rewrite sprintf_d_neg. unfold atoi, strtol.
    cbn [skip_space isspace code N_of_ascii]. 
    change (isspace "-"%char) with false. cbv iota.
    destruct (sprintf_d_pos (Z.pos p)) as (d & ds & E & Hd & Hds & Hval); [lia|].
    rewrite Hval. unfold two63. rewrite Z.min_r, Z.max_r by lia.
    apply sint32_id. unfold in_int, two31. lia.
Qed.

Lemma after_colon_spans (t : string) :
  after_colon ("1:" ++ t)%string = Some t.
Proof. reflexivity. Qed.

Section Worksheet.

Variable sprintf_g : double -> string.

(** A spreadsheet document [d] with the sheet [sht] at the index [sheet]. *)
Variables (d : libo) (x : libo_xl) (b : libo_xl_book) (sht : libo_xl_sheet).
Variable sheet : Z.
Hypothesis Htype : type d = libo_type_xl.
Hypothesis Hxl : xl d = Some x.
Hypothesis Hbook : book x = Some b.
Hypothesis Hsheet0 : 0 <= sheet.
Hypothesis Hsht : book_sheet b !! Z.to_nat sheet = Some sht.

Lemma sheet_in_range :
  (sheet >=? n_sheets b) = false /\ (sheet <? 0) = false.
Proof.
  pose proof (lookup_lt_Some _ _ _ Hsht) as Hlt. split.
  - rewrite Z.geb_leb. apply Z.leb_gt. unfold n_sheets. lia.
  - apply Z.ltb_ge. exact Hsheet0.
Qed.

Lemma dimension_add_spec (buf : option string) :
  0 < n_cols sht < two31 -> 0 < n_rows sht < two31 ->
  exists addr : string,
    libo_xl_sheet_dimension_add (Some d) sheet buf
    = Some (strapp buf ("<dimension ref=" ++ dq ++ "A1:" ++ addr
                        ++ dq ++ "/>" ++ nl)%string) /\
    cell_ref_to_row_col (Some addr) = (n_rows sht - 1, n_cols sht - 1).
Proof.
  intros Hc Hr. destruct sheet_in_range as [Hge Hlt].
  destruct (format_then_parse (n_rows sht - 1) (n_cols sht - 1))
    as (s & Hs & Hparse); [lia | lia |].
  replace (n_rows sht - 1 + 1) with (n_rows sht) in Hparse by lia.
  exists (s ++ sprintf_d (n_rows sht))%string. split; [|exact Hparse].
  unfold libo_xl_sheet_dimension_add.
  destruct (decide _) as [_|Hne]; [|contradiction].
  rewrite Hxl. cbn [mbind option_bind]. rewrite Hbook. cbn [mbind option_bind].
  rewrite Hge, Hlt, Hsht. cbn [mbind option_bind].
  assert (Hz : (n_cols sht =? 0) = false) by (apply Z.eqb_neq; lia).
  rewrite Hz. rewrite sint32_id by (unfold in_int, two31 in *; lia).
  rewrite Hs. cbn [mbind option_bind].
  rewrite !strapp_strapp, !append_assoc. reflexivity.
Qed.


Lemma row_col_add_unfold (row col : Z) (r : libo_xl_row) (cell : libo_xl_cell)
    (ref : string) (buf : option string) :
  0 <= row -> 0 <= col < n_cols sht ->
  sheet_row sht !! Z.to_nat row = Some r ->
  row_cell r !! Z.to_nat col = Some cell ->
  column_number_to_reference col = Some ref ->
    libo_xl_sheet_sheetdata_row_col_add sprintf_g (Some d) sheet row col buf
    = Some
        (strapp
           (strapp
              (strapp
                 (match cell_type cell with
                  | libo_xl_cell_type_none =>
                      strapp (strapp (strapp buf ("<c r=" ++ dq)) ref)
                             (sprintf_d (sint32 (row + 1)))
                  | libo_xl_cell_type_reference =>
                      strapp (strapp (strapp (strapp buf ("<c r=" ++ dq)) ref)
                                     (sprintf_d (sint32 (row + 1))))
                             (dq ++ " s=" ++ dq ++ "1" ++ dq
                              ++ " t=" ++ dq ++ "s" ++ dq ++ ">" ++ nl)
                  | libo_xl_cell_type_expression =>
                      strapp (strapp (strapp (strapp buf ("<c r=" ++ dq)) ref)
                                     (sprintf_d (sint32 (row + 1))))
                             (">" ++ nl)
                  | libo_xl_cell_type_number =>
                      strapp (strapp (strapp (strapp buf ("<c r=" ++ dq)) ref)
                                     (sprintf_d (sint32 (row + 1))))
                             (dq ++ " s=" ++ dq ++ "2" ++ dq ++ ">" ++ nl)
                  end)
                 "<v>")
              (match cell_type cell with
               | libo_xl_cell_type_none => EmptyString
               | libo_xl_cell_type_reference => sprintf_d (reference cell)
               | libo_xl_cell_type_expression => EmptyString
               | libo_xl_cell_type_number => sprintf_g (number cell)
               end))
           ("</v>" ++ nl ++ "</c>" ++ nl))%string.
Proof.
  intros Hrow Hcol Hr Hcell Href. destruct sheet_in_range as [Hge Hlt].
  pose proof (lookup_lt_Some _ _ _ Hr) as Hrl.
  unfold libo_xl_sheet_sheetdata_row_col_add.
  destruct (decide _) as [_|Hne]; [|contradiction].
  rewrite Hxl. cbn [mbind option_bind]. rewrite Hbook.
  rewrite Hge, Hlt, Hsht. cbn [mbind option_bind].
  assert (G1 : (row >=? n_rows sht) = false)
    by (rewrite Z.geb_leb; apply Z.leb_gt; unfold n_rows; lia).
  assert (G2 : (col >=? n_cols sht) = false)
    by (rewrite Z.geb_leb; apply Z.leb_gt; lia).
  assert (G3 : (row <? 0) = false) by (apply Z.ltb_ge; lia).
  assert (G4 : (col <? 0) = false) by (apply Z.ltb_ge; lia).
  rewrite G1, G2, G3, G4, Hr. cbn [mbind option_bind].
  rewrite Hcell. cbn [mbind option_bind]. rewrite Href. cbn [mbind option_bind].
  destruct (cell_type cell); cbn [strapp];
    rewrite ?strapp_strapp, ?append_assoc, ?append_nil_r, ?strapp_strapp;
    try reflexivity.
Qed.


(** Each writer only appends, and what it appends does not depend on what
    the buffer holds. *)
Lemma row_col_add_appends (row col : Z) (r : libo_xl_row) :
  0 <= row -> sheet_row sht !! Z.to_nat row = Some r ->
  0 <= col < n_cells r ->
  exists t : string,
    forall s : string,
      libo_xl_sheet_sheetdata_row_col_add sprintf_g (Some d) sheet row col
        (Some s)
      = Some (Some (s ++ t)%string).
Proof.
  intros Hrow Hr Hcol. destruct sheet_in_range as [Hge Hlt].
  destruct (col >=? n_cols sht) eqn:G2.
  - exists EmptyString. intros s. rewrite append_nil_r.
    pose proof (lookup_lt_Some _ _ _ Hr) as Hrl.
    unfold libo_xl_sheet_sheetdata_row_col_add.
    destruct (decide _) as [_|Hne]; [|contradiction].
    rewrite Hxl. cbn [mbind option_bind]. rewrite Hbook.
    rewrite Hge, Hlt, Hsht. cbn [mbind option_bind].
    assert (G1 : (row >=? n_rows sht) = false)
      by (rewrite Z.geb_leb; apply Z.leb_gt; unfold n_rows; lia).
    rewrite G1, G2. reflexivity.
  - rewrite Z.geb_leb in G2. apply Z.leb_gt in G2.
    destruct (row_cell r !! Z.to_nat col) as [cell|] eqn:Hcell.
    2:{ apply lookup_ge_None in Hcell. unfold n_cells in Hcol. lia. }
    destruct (column_reference_shape col) as (ls & Href & _).
    destruct (cell_type cell) eqn:Et; eexists; intros s;
      rewrite (row_col_add_unfold row col r cell _ (Some s) Hrow ltac:(lia)
                 Hr Hcell Href), Et;
      cbn [strapp]; rewrite ?append_assoc; reflexivity.
Qed.

Lemma data_cols_loop_appends (row : Z) (r : libo_xl_row) (count : nat) :
  forall i : Z,
    0 <= row -> sheet_row sht !! Z.to_nat row = Some r ->
    0 <= i -> i + Z.of_nat count <= n_cells r ->
    exists t : string,
      forall s : string,
        data_cols_loop sprintf_g (Some d) sheet row count i (Some s)
        = Some (Some (s ++ t)%string).
Proof.
  induction count as [|k IH]; intros i Hrow Hr Hi Hic.
  - exists EmptyString. intros s. rewrite append_nil_r. reflexivity.
  - destruct (row_col_add_appends row i r Hrow Hr ltac:(lia)) as [t1 E1].
    destruct (IH (i + 1) Hrow Hr ltac:(lia) ltac:(lia)) as [t2 E2].
    exists (t1 ++ t2)%string. intros s. cbn [data_cols_loop].
    rewrite E1. cbn [mbind option_bind]. rewrite E2, append_assoc.
    reflexivity.
Qed.

Lemma row_element_spec (row : Z) (r : libo_xl_row) :
  0 <= row -> sheet_row sht !! Z.to_nat row = Some r ->
  exists cells : string,
    forall buf : option string,
      libo_xl_sheet_sheetdata_row_add sprintf_g (Some d) sheet row buf
      = Some (strapp buf
                ("<row r=" ++ dq ++ sprintf_d (sint32 (row + 1))
                 ++ dq ++ " spans=" ++ dq ++ "1:" ++ sprintf_d (n_cols sht)
                 ++ dq ++ " customFormat=" ++ dq ++ "1" ++ dq ++ " ht=" ++ dq
                 ++ sprintf_g (default_row_height sht)
                 ++ dq ++ " customHeight=" ++ dq ++ "1" ++ dq
                 ++ " x14ac:dyDescent=" ++ dq ++ "0.3" ++ dq ++ ">" ++ nl
                 ++ cells ++ "</row>" ++ nl)%string).
Proof.
  intros Hrow Hr. destruct sheet_in_range as [Hge Hlt].
  destruct (data_cols_loop_appends row r (Z.to_nat (n_cells r)) 0
              Hrow Hr ltac:(lia) ltac:(unfold n_cells; lia)) as [t E].
  exists t. intros buf.
  unfold libo_xl_sheet_sheetdata_row_add.
  destruct (decide _) as [_|Hne]; [|contradiction].
  rewrite Hxl. cbn [mbind option_bind]. rewrite Hbook.
  rewrite Hge, Hlt, Hsht. cbn [mbind option_bind].
  assert (G3 : (row <? 0) = false) by (apply Z.ltb_ge; lia).
  rewrite G3, Hr. cbn [mbind option_bind].
  rewrite !strapp_strapp.
  destruct buf as [s|]; cbn [strapp]; rewrite E; cbn [mbind option_bind];
    rewrite ?strapp_Some, ?append_assoc; reflexivity.
Qed.

(** The texts of the row elements from the row [i] on, each as
    [libo_xl_sheet_sheetdata_row_add] writes it into an empty buffer. *)
Lemma data_rows_loop_appends (count : nat) :
  forall i : Z,
    0 <= i -> i + Z.of_nat count <= n_rows sht ->
    exists parts : list string,
      Forall2
        (fun (k : nat) (part : string) =>
           libo_xl_sheet_sheetdata_row_add sprintf_g (Some d) sheet
             (i + Z.of_nat k) None
           = Some (Some part))
        (seq 0 count) parts /\
      forall s : string,
        data_rows_loop sprintf_g (Some d) sheet count i (Some s)
        = Some (Some (s ++ String.concat EmptyString parts)%string).
Proof.
  induction count as [|k IH]; intros i Hi Hic.
  - exists []. split; [constructor|]. intros s. cbn [String.concat].
    rewrite append_nil_r. reflexivity.
  - destruct (sheet_row sht !! Z.to_nat i) as [r|] eqn:Hr.
    2:{ apply lookup_ge_None in Hr. unfold n_rows in Hic. lia. }
    destruct (row_element_spec i r Hi Hr) as [cells E1].
    destruct (IH (i + 1) ltac:(lia) ltac:(lia)) as (parts & Hparts & E2).
    eexists (_ :: parts). split.
    + cbn [seq]. constructor.
      * rewrite Z.add_0_r, E1. cbn [strapp]. reflexivity.
      * rewrite <- seq_shift. apply Forall2_fmap_l.
        eapply Forall2_impl; [exact Hparts|].
        intros j part Hj. cbn beta in Hj. unfold compose. cbn beta.
        replace (i + Z.of_nat (S j)) with (i + 1 + Z.of_nat j) by lia.
        exact Hj.
    + intros s. cbn [data_rows_loop]. rewrite E1, strapp_Some.
      cbn [mbind option_bind]. rewrite E2.
      destruct parts as [|p ps].
      * cbn [String.concat]. rewrite !append_nil_r. reflexivity.
      * cbn [String.concat]. rewrite !append_assoc. reflexivity.
Qed.

Lemma sheetdata_add_spec :
  exists parts : list string,
    Forall2
      (fun (k : nat) (part : string) =>
         libo_xl_sheet_sheetdata_row_add sprintf_g (Some d) sheet
           (Z.of_nat k) None
         = Some (Some part))
      (seq 0 (length (sheet_row sht))) parts /\
    forall buf : option string,
      libo_xl_sheet_sheetdata_add sprintf_g (Some d) sheet buf
      = Some (Some (contents buf ++ "<sheetData>" ++ nl
                    ++ String.concat EmptyString parts
                    ++ "</sheetData>" ++ nl)%string).
Proof.
  destruct sheet_in_range as [Hge Hlt].
  destruct (data_rows_loop_appends (length (sheet_row sht)) 0 ltac:(lia)
              ltac:(unfold n_rows; lia)) as (parts & Hparts & E).
  exists parts. split; [exact Hparts|]. intros buf.
  unfold libo_xl_sheet_sheetdata_add.
  destruct (decide _) as [_|Hne]; [|contradiction].
  rewrite Hxl. cbn [mbind option_bind]. rewrite Hbook. cbn [mbind option_bind].
  rewrite Hge, Hlt, Hsht. cbn [mbind option_bind].
  unfold n_rows. rewrite Nat2Z.id, strapp_contents, E.
  cbn [mbind option_bind]. rewrite strapp_Some, !append_assoc. reflexivity.
Qed.

End Worksheet.

Lemma get_sheet_lookup (xlb : option libo_xl_book) (sheet : Z)
    (sht : libo_xl_sheet) :
  libo_xl_book_get_sheet xlb sheet = Some sht ->
  exists b, xlb = Some b /\ 0 <= sheet /\
            book_sheet b !! Z.to_nat sheet = Some sht.
Proof.
  destruct xlb as [b|]; [|discriminate]. cbn [libo_xl_book_get_sheet].
  intros H. destruct (sheet <? 0) eqn:E1; [discriminate H|].
  destruct (sheet >=? n_sheets b); [discriminate H|].
  apply Z.ltb_ge in E1. exists b. auto.
Qed.

Lemma get_cell_at (sht : libo_xl_sheet) (row col : Z) (cell : libo_xl_cell) :
  libo_xl_row_get_cell (libo_xl_sheet_get_row (Some sht) row) col = Some cell ->
  exists r, 0 <= row /\ sheet_row sht !! Z.to_nat row = Some r /\
            0 <= col < n_cells r /\ row_cell r !! Z.to_nat col = Some cell.
Proof.
  intros H. destruct (libo_xl_sheet_get_row (Some sht) row) as [r|] eqn:Er;
    [|discriminate H].
  apply get_row_lookup in Er as [Hrow Hr].
  apply get_cell_lookup in H as [Hcol Hc].
  exists r. split; [lia|]. auto.
Qed.

(** X15. After [libo_xl_sheet_dimension_add] the buffer holds the text it
    held before followed by the dimension element, and the end of the range
    written is the address of the last cell: parsed with
    [cell_ref_to_row_col] it gives the row [n_rows - 1] and the column
    [n_cols - 1]. *)
Theorem dimension_names_last_cell
    (d : libo) (x : libo_xl) (sht : libo_xl_sheet) (sheet : Z)
    (buf : option string) :
  type d = libo_type_xl -> xl d = Some x ->
  libo_xl_book_get_sheet (book x) sheet = Some sht ->
  0 < n_cols sht < two31 -> 0 < n_rows sht < two31 ->
  exists addr : string,
    libo_xl_sheet_dimension_add (Some d) sheet buf
    = Some (Some (contents buf ++ "<dimension ref=" ++ dq ++ "A1:" ++ addr
                  ++ dq ++ "/>" ++ nl)%string) /\
    cell_ref_to_row_col (Some addr) = (n_rows sht - 1, n_cols sht - 1).
Proof.
  intros Ht Hx Hs Hc Hr.
  apply get_sheet_lookup in Hs as (b & Hb & H0 & Hl).
  destruct (dimension_add_spec d x b sht sheet Ht Hx Hb H0 Hl buf Hc Hr)
    as (addr & E & Hparse).
  exists addr. split; [|exact Hparse].
  rewrite E, strapp_contents. reflexivity.
Qed.

Lemma dimension_names_last_cell_witness :
  exists addr : string,
    libo_xl_sheet_dimension_add (Some written_doc) 0 None
    = Some (Some ("<dimension ref=" ++ dq ++ "A1:" ++ addr
                  ++ dq ++ "/>" ++ nl)%string) /\
    cell_ref_to_row_col (Some addr)
    = (n_rows written_sheet - 1, n_cols written_sheet - 1).
Proof.
  apply (dimension_names_last_cell written_doc written_xl written_sheet 0 None);
    try reflexivity; vm_compute; split; reflexivity.
Defined.



(** X17. For an Expression cell the writer leaves the quote of the address
    attribute open and writes an empty value element: after the call the
    buffer holds the text it held before followed by that element, and
    neither the formula nor the value of the cell reaches the file. The
    address itself is that of the cell. *)
Theorem expression_cell_element
    (sprintf_g : double -> string)
    (d : libo) (x : libo_xl) (sht : libo_xl_sheet) (sheet row col : Z)
    (cell : libo_xl_cell) (buf : option string) :
  type d = libo_type_xl -> xl d = Some x ->
  libo_xl_book_get_sheet (book x) sheet = Some sht ->
  libo_xl_row_get_cell (libo_xl_sheet_get_row (Some sht) row) col = Some cell ->
  cell_type cell = libo_xl_cell_type_expression ->
  row < two31 - 1 -> col < n_cols sht -> col < two31 ->
  exists addr : string,
    libo_xl_sheet_sheetdata_row_col_add sprintf_g (Some d) sheet row col buf
    = Some (Some
              (contents buf
               ++ "<c r=" ++ dq ++ addr ++ ">" ++ nl
               ++ "<v>" ++ "</v>" ++ nl ++ "</c>" ++ nl)%string) /\
    cell_ref_to_row_col (Some addr) = (row, col).
Proof.
  intros Ht Hx Hs Hcell Hty Hrow Hcn Hc31.
  apply get_sheet_lookup in Hs as (b & Hb & H0 & Hl).
  apply get_cell_at in Hcell as (r & Hr0 & Hr & Hcol & Hc).
  destruct (format_then_parse row col ltac:(lia) ltac:(lia))
    as (ref & Href & Hparse).
  pose proof (row_col_add_unfold sprintf_g d x b sht sheet Ht Hx Hb H0 Hl
                row col r cell ref buf Hr0 ltac:(lia) Hr Hc Href) as E.
  rewrite sint32_id in E by (unfold in_int, two31 in *; lia).
  exists (ref ++ sprintf_d (row + 1))%string.
  split; [|exact Hparse].
  rewrite E, Hty. rewrite !strapp_strapp, strapp_contents, !append_assoc.
  reflexivity.
Qed.

Lemma expression_cell_element_witness :
  exists addr : string,
    libo_xl_sheet_sheetdata_row_col_add sprintf_g_zero (Some written_doc)
      0 0 1 None
    = Some (Some
              ("<c r=" ++ dq ++ addr ++ ">" ++ nl
               ++ "<v>" ++ "</v>" ++ nl ++ "</c>" ++ nl)%string) /\
    cell_ref_to_row_col (Some addr) = (0, 1).
Proof.
  apply (expression_cell_element sprintf_g_zero written_doc written_xl
           written_sheet 0 0 1 (mkCell libo_xl_cell_type_expression 0 0) None);
    reflexivity.
Defined.

(** X18. The sheet data is the row elements in order, between the opening
    and the closing tag. For a sheet whose row and cell pointers are
    non-null, whatever the lengths of its rows and its column count,
    [libo_xl_sheet_sheetdata_row_add] writes an element for each row into an
    empty buffer, and after [libo_xl_sheet_sheetdata_add] the buffer holds
    the text it held before, the opening tag, these elements one after the
    other, and the closing tag: what each call appends does not depend on
    what the buffer holds, and no index leaves a row or a cell array. *)
Theorem sheet_data_always_written
    (sprintf_g : double -> string)
    (d : libo) (x : libo_xl) (sht : libo_xl_sheet) (sheet : Z) :
  type d = libo_type_xl -> xl d = Some x ->
  libo_xl_book_get_sheet (book x) sheet = Some sht ->
  exists parts : list string,
    Forall2
      (fun (k : nat) (part : string) =>
         libo_xl_sheet_sheetdata_row_add sprintf_g (Some d) sheet
           (Z.of_nat k) None
         = Some (Some part))
      (seq 0 (length (sheet_row sht))) parts /\
    forall buf : option string,
      libo_xl_sheet_sheetdata_add sprintf_g (Some d) sheet buf
      = Some (Some (contents buf ++ "<sheetData>" ++ nl
                    ++ String.concat EmptyString parts
                    ++ "</sheetData>" ++ nl)%string).
Proof.
  intros Ht Hx Hs.
  apply get_sheet_lookup in Hs as (b & Hb & H0 & Hl).
  exact (sheetdata_add_spec sprintf_g d x b sht sheet Ht Hx Hb H0 Hl).
Qed.

Lemma sheet_data_always_written_witness :
  exists parts : list string,
    Forall2
      (fun (k : nat) (part : string) =>
         libo_xl_sheet_sheetdata_row_add sprintf_g_zero (Some written_doc) 0
           (Z.of_nat k) None
         = Some (Some part))
      (seq 0 (length (sheet_row written_sheet))) parts /\
    forall buf : option string,
      libo_xl_sheet_sheetdata_add sprintf_g_zero (Some written_doc) 0 buf
      = Some (Some (contents buf ++ "<sheetData>" ++ nl
                    ++ String.concat EmptyString parts
                    ++ "</sheetData>" ++ nl)%string).
Proof.
  apply (sheet_data_always_written sprintf_g_zero written_doc written_xl
           written_sheet 0); reflexivity.
Defined.

(** X19. The row element carries what the reader needs: after
    [libo_xl_sheet_sheetdata_row_add] the buffer holds the text it held
    before followed by a row element such that [atoi] of its attribute [r]
    is the row number [row + 1], and [count_sheet_columns_in_xml] reads the
    column count of the sheet from its attribute [spans]. *)
Theorem row_element_read_back
    (sprintf_g : double -> string)
    (d : libo) (x : libo_xl) (sht : libo_xl_sheet) (sheet row : Z)
    (r : libo_xl_row) (buf : option string) (children : list xml_cell) :
  type d = libo_type_xl -> xl d = Some x ->
  libo_xl_book_get_sheet (book x) sheet = Some sht ->
  libo_xl_sheet_get_row (Some sht) row = Some r ->
  row < two31 - 1 -> 0 <= n_cols sht < two31 ->
  exists number spans rest : string,
    libo_xl_sheet_sheetdata_row_add sprintf_g (Some d) sheet row buf
    = Some (Some
              (contents buf
               ++ "<row r=" ++ dq ++ number ++ dq
               ++ " spans=" ++ dq ++ spans ++ dq ++ rest)%string) /\
    atoi number = row + 1 /\
    count_sheet_columns_in_xml (Some [mkXmlRow "row" (Some spans) children])
    = n_cols sht.
Proof.
  intros Ht Hx Hs Hr Hrow Hcols.
  apply get_sheet_lookup in Hs as (b & Hb & H0 & Hl).
  apply get_row_lookup in Hr as [Hr0 Hr].
  destruct (row_element_spec sprintf_g d x b sht sheet Ht Hx Hb H0 Hl
              row r ltac:(lia) Hr) as [cells E].
  specialize (E buf).
  rewrite sint32_id in E by (unfold in_int, two31 in *; lia).
  eexists (sprintf_d (row + 1)), ("1:" ++ sprintf_d (n_cols sht))%string, _.
  split; [rewrite E, strapp_contents, !append_assoc; reflexivity|].
  split; [apply atoi_sprintf_d_int; unfold in_int, two31 in *; lia|].
  unfold count_sheet_columns_in_xml. cbn [row_nodes List.filter element_name].
  cbn [String.eqb Ascii.eqb Bool.eqb andb]. cbn [attr_spans].
  rewrite after_colon_spans.
  apply atoi_sprintf_d_int; unfold in_int, two31 in *; lia.
Qed.

Lemma row_element_read_back_witness :
  exists number spans rest : string,
    libo_xl_sheet_sheetdata_row_add sprintf_g_zero (Some written_doc) 0 0 None
    = Some (Some
              ("<row r=" ++ dq ++ number ++ dq
               ++ " spans=" ++ dq ++ spans ++ dq ++ rest)%string) /\
    atoi number = 0 + 1 /\
    count_sheet_columns_in_xml (Some [mkXmlRow "row" (Some spans) []])
    = n_cols written_sheet.
Proof.
  apply (row_element_read_back sprintf_g_zero written_doc written_xl
           written_sheet 0 0
           (mkRow [mkCell libo_xl_cell_type_reference 0 0;
                   mkCell libo_xl_cell_type_expression 0 0]) None []);
    try reflexivity; vm_compute; split; congruence.
Defined.

(** ** Frozen panes *)

Lemma sheetviews_add_unfold
    (d : libo) (x : libo_xl) (sht : libo_xl_sheet) (sheet : Z)
    (buf : option string) :
  type d = libo_type_xl -> xl d = Some x ->
  libo_xl_book_get_sheet (book x) sheet = Some sht ->
  libo_xl_sheet_sheetviews_add (Some d) sheet buf
  = match freeze_type (sheet_freeze sht) with
    | libo_xl_freeze_type_none => Some buf
    | libo_xl_freeze_type_top =>
        Some (strapp buf
                (freeze_views "ySplit"
                   ("A" ++ sprintf_d (sint32 (freeze_n (sheet_freeze sht) + 1)))
                   "bottomLeft"))
    | libo_xl_freeze_type_left =>
        Some (strapp buf (freeze_views EmptyString EmptyString EmptyString))
    end.
Proof.
  intros Ht Hx Hs. apply get_sheet_lookup in Hs as (b & Hb & H0 & Hl).
  pose proof (lookup_lt_Some _ _ _ Hl) as Hlt.
  unfold libo_xl_sheet_sheetviews_add.
  destruct (decide _) as [_|Hne]; [|contradiction].
  rewrite Hx. cbn [mbind option_bind]. rewrite Hb. cbn [mbind option_bind].
  assert (G1 : (sheet >=? n_sheets b) = false)
    by (rewrite Z.geb_leb; apply Z.leb_gt; unfold n_sheets; lia).
  assert (G2 : (sheet <? 0) = false) by (apply Z.ltb_ge; lia).
  rewrite G1, G2, Hl. cbn [mbind option_bind].
  destruct (freeze_type (sheet_freeze sht)) eqn:Ef;
    (destruct (decide _) as [Hd|Hd]; [try discriminate Hd | try contradiction]);
    try reflexivity;
    unfold freeze_views;
    rewrite !strapp_strapp, ?append_assoc; cbn [String.append]; reflexivity.
Qed.

(** X20. A top freeze of [n] rows: after [libo_xl_sheet_sheetviews_add] the
    buffer holds the text it held before followed by the block of the sheet
    views, in which the anchor cell is column A of the row [n] and the split
    is always 1, whatever [n] is. *)
Theorem top_freeze_any_count
    (d : libo) (x : libo_xl) (sht : libo_xl_sheet) (sheet n : Z)
    (buf : option string) :
  type d = libo_type_xl -> xl d = Some x ->
  libo_xl_book_get_sheet (book x) sheet = Some sht ->
  sheet_freeze sht = mkFreeze libo_xl_freeze_type_top n ->
  0 <= n < two31 - 1 ->
  exists anchor : string,
    libo_xl_sheet_sheetviews_add (Some d) sheet buf
    = Some (Some (contents buf
                  ++ freeze_views "ySplit" anchor "bottomLeft")%string) /\
    cell_ref_to_row_col (Some anchor) = (n, 0).
Proof.
  intros Ht Hx Hs Hf Hn.
  rewrite (sheetviews_add_unfold d x sht sheet buf Ht Hx Hs), Hf.
  cbn [freeze_type freeze_n].
  rewrite sint32_id by (unfold in_int, two31 in *; lia).
  eexists. split; [rewrite strapp_contents; reflexivity|].
  destruct (atoi_sprintf_d (n + 1)) as [Ha Hrun]; [lia|].
  pose proof (parse_letters ["A"%char] (sprintf_d (n + 1)) eq_refl Hrun) as P.
  cbn [rev app string_of_list_ascii] in P.
  change (String "A" EmptyString ++ sprintf_d (n + 1))%string
    with ("A" ++ sprintf_d (n + 1))%string in P.
  rewrite P, Ha. replace (n + 1 - 1) with n by lia.
  rewrite sint32_id by (unfold in_int, two31 in *; lia). reflexivity.
Qed.

Lemma top_freeze_any_count_witness :
  exists anchor : string,
    libo_xl_sheet_sheetviews_add (Some top_frozen_doc) 0 None
    = Some (Some (freeze_views "ySplit" anchor "bottomLeft")) /\
    cell_ref_to_row_col (Some anchor) = (3, 0).
Proof.
  apply (top_freeze_any_count top_frozen_doc top_frozen_xl top_frozen_sheet
           0 3 None); try reflexivity.
  vm_compute. split; [intros H; discriminate H | reflexivity].
Defined.

(** X21. A left freeze writes no split: in each [switch] the case for the
    left freeze starts with [break], so after the call the buffer holds the
    text it held before followed by a block whose pane element has no
    attribute name before its split value, an empty anchor and an empty
    active pane, whatever the count. *)
Theorem left_freeze_writes_no_split
    (d : libo) (x : libo_xl) (sht : libo_xl_sheet) (sheet n : Z)
    (buf : option string) :
  type d = libo_type_xl -> xl d = Some x ->
  libo_xl_book_get_sheet (book x) sheet = Some sht ->
  sheet_freeze sht = mkFreeze libo_xl_freeze_type_left n ->
  libo_xl_sheet_sheetviews_add (Some d) sheet buf
  = Some (Some (contents buf
                ++ freeze_views EmptyString EmptyString EmptyString)%string).
Proof.
  intros Ht Hx Hs Hf.
  rewrite (sheetviews_add_unfold d x sht sheet buf Ht Hx Hs), Hf.
  cbn [freeze_type]. rewrite strapp_contents. reflexivity.
Qed.

Lemma left_freeze_writes_no_split_witness :
  libo_xl_sheet_sheetviews_add (Some left_frozen_doc) 0 None
  = Some (Some (freeze_views EmptyString EmptyString EmptyString)).
Proof.
  apply (left_freeze_writes_no_split left_frozen_doc left_frozen_xl
           left_frozen_sheet 0 2 None); reflexivity.
Defined.

(** ** The renumbering pass changes ids only, and only once *)

Lemma renumber_cell_id_changed (old : strings) (st st' : pass)
    (c c' : libo_xl_cell) :
  renumber_cell old st c = (st', c') -> id_changed c c'.
Proof.
  unfold renumber_cell, id_changed. intros E.
  destruct (cell_type c) eqn:Et;
    try (injection E as _ <-; left; reflexivity).
  right. split; [reflexivity|].
  destruct (match strings_find_by_id old (reference c) with
            | Some f => strings_find_by_text (fresh st) (text f)
            | None => None
            end); injection E as _ <-; eexists; reflexivity.
Qed.

Lemma renumber_cells_id_changed (old : strings) (cells : list libo_xl_cell) :
  forall (st st' : pass) (cells' : list libo_xl_cell),
    renumber_cells old st cells = (st', cells') ->
    Forall2 id_changed cells cells'.
Proof.
  induction cells as [|c cs IH]; intros st st' cells' E.
  - injection E as _ <-. constructor.
  - cbn [renumber_cells] in E.
    destruct (renumber_cell old st c) as [st1 c1] eqn:E1.
    destruct (renumber_cells old st1 cs) as [st2 cs2] eqn:E2.
    injection E as _ <-. constructor.
    + exact (renumber_cell_id_changed _ _ _ _ _ E1).
    + exact (IH _ _ _ E2).
Qed.

Lemma renumber_rows_id_changed (old : strings) (rows : list libo_xl_row) :
  forall (st st' : pass) (rows' : list libo_xl_row),
    renumber_rows old st (pointers rows) = (true, st', pointers rows') ->
    Forall2 (fun r r' => Forall2 id_changed (row_cell r) (row_cell r'))
            rows rows'.
Proof.
  unfold pointers. induction rows as [|r rs IH]; intros st st' rows' E.
  - destruct rows'; [constructor | discriminate E].
  - cbn [map renumber_rows] in E.
    destruct (renumber_cells old st (row_cell r)) as [st1 cells] eqn:E1.
    destruct (renumber_rows old st1 (map Some rs)) as [[fin st2] rs2] eqn:E2.
    destruct rows' as [|r' rows']; [discriminate E|].
    cbn [map] in E. injection E as -> -> <- ->. constructor.
    + exact (renumber_cells_id_changed _ _ _ _ _ E1).
    + exact (IH _ _ _ E2).
Qed.

Lemma pointers_inj {A : Type} (l l' : list A) : pointers l = pointers l' -> l = l'.
Proof.
  intros H. apply (f_equal pointees) in H.
  rewrite !pointees_pointers in H. exact H.
Qed.

Lemma renumber_sheets_same_but_ids (old : strings) (sheets : list libo_xl_sheet) :
  forall (st st' : pass) (sheets' : list libo_xl_sheet),
    renumber_sheets old st (arrays_of (mkBook sheets))
    = (true, st', arrays_of (mkBook sheets')) ->
    with_arrays (mkBook sheets) (arrays_of (mkBook sheets')) = mkBook sheets' ->
    Forall2 same_but_ids sheets sheets'.
Proof.
  induction sheets as [|s ss IH]; intros st st' sheets' E Hz.
  - destruct sheets'; [constructor | discriminate E].
  - change (arrays_of (mkBook (s :: ss)))
      with (Some (pointers (sheet_row s)) :: arrays_of (mkBook ss)) in E.
    cbn [renumber_sheets] in E.
    destruct (renumber_rows_flat old (sheet_row s) st) as (st1 & rows & E1 & _).
    rewrite E1 in E.
    destruct (renumber_sheets old st1 (arrays_of (mkBook ss)))
      as [[fin st2] ss2] eqn:E2.
    destruct sheets' as [|s' sheets']; [discriminate E|].
    change (arrays_of (mkBook (s' :: sheets')))
      with (Some (pointers (sheet_row s')) :: arrays_of (mkBook sheets')) in E.
    injection E as -> -> Hrows ->. apply pointers_inj in Hrows. subst rows.
    unfold with_arrays, arrays_of in Hz. cbn [book_sheet] in Hz.
    rewrite pointees_pointers in Hz. cbn [map zip_with] in Hz.
    rewrite pointees_pointers in Hz. injection Hz as Hs Hz.
    constructor.
    + split; [symmetry; exact Hs|].
      exact (renumber_rows_id_changed _ _ _ _ _ E1).
    + apply (IH _ _ _ E2). unfold with_arrays, arrays_of. cbn [book_sheet].
      rewrite pointees_pointers, Hz. reflexivity.
Qed.

(** X22. Whatever the document, [libo_xl_renumber_strings] leaves its path
    and kind, the number and order of sheets, rows and cells, every field of
    a sheet other than its rows, and every cell that is no Reference as they
    are; in a Reference cell it changes at most the id. *)
Theorem renumber_changes_ids_only (l : libo) :
  path (libo_xl_renumber_strings l) = path l /\
  type (libo_xl_renumber_strings l) = type l /\
  Forall2 same_but_ids
    (from_option book_sheet [] (xl l ≫= book))
    (from_option book_sheet [] (xl (libo_xl_renumber_strings l) ≫= book)).
Proof.
  assert (Hrefl : forall ss, Forall2 same_but_ids ss ss).
  { intros ss. apply Forall_Forall2_diag, Forall_forall. intros s _.
    split; [destruct s; reflexivity|].
    apply Forall_Forall2_diag, Forall_forall. intros r _.
    apply Forall_Forall2_diag, Forall_forall. intros c _. left. reflexivity. }
  unfold libo_xl_renumber_strings.
  destruct (type l) eqn:Et; try (rewrite Et; auto).
  destruct (xl l) as [x|] eqn:Ex; [|rewrite Et, Ex; auto].
  destruct (xl_strings x) as [old|] eqn:Es; [|rewrite Et, Ex; auto].
  destruct (book x) as [b|] eqn:Eb; [|rewrite Et, Ex; auto].
  destruct b as [bs].
  destruct (renumber_sheets_flat old bs (mkPass 0 strings_new))
    as (st & sheets & E & _ & Hz).
  unfold renumber_arrays. rewrite E, Hz.
  cbn [path type xl mbind option_bind book from_option]. rewrite Eb.
  cbn [from_option book_sheet]. split; [reflexivity|]. split; [reflexivity|].
  exact (renumber_sheets_same_but_ids _ _ _ _ _ E Hz).
Qed.

Lemma with_reference_same (c : libo_xl_cell) (v : Z) :
  reference (with_reference c v) = reference c -> with_reference c v = c.
Proof.
  unfold reference, with_reference, sint32, uint32. cbn [word0]. intros H.
  assert (E : word0 c - word0 c mod two32 + v mod two32 = word0 c).
  { pose proof (Z.div_mod (word0 c) two32 ltac:(discriminate)) as D1.
    pose proof (Z.mod_pos_bound (word0 c) two32 ltac:(reflexivity)) as B1.
    pose proof (Z.mod_pos_bound v two32 ltac:(reflexivity)) as B2.
    set (w' := word0 c - word0 c mod two32 + v mod two32) in *.
    pose proof (Z.div_mod (w' + two31) two32 ltac:(discriminate)) as D3.
    pose proof (Z.mod_pos_bound (w' + two31) two32 ltac:(reflexivity)) as B3.
    pose proof (Z.div_mod (word0 c + two31) two32 ltac:(discriminate)) as D4.
    pose proof (Z.mod_pos_bound (word0 c + two31) two32 ltac:(reflexivity)) as B4.
    unfold w' in *. unfold two31, two32 in *. lia. }
  rewrite E. destruct c. reflexivity.
Qed.

Lemma table_ok_texts_eq (A B : strings) :
  table_ok A -> table_ok B ->
  map text (entries A) = map text (entries B) -> A = B.
Proof.
  intros (LA & IA & _) (LB & IB & _) Ht.
  assert (Hlen : length (entries A) = length (entries B)).
  { rewrite <- (length_map text (entries A)), Ht. apply length_map. }
  assert (He : entries A = entries B).
  { apply list_eq. intros i.
    destruct (entries A !! i) as [a|] eqn:Ea.
    - destruct (entries B !! i) as [b|] eqn:Eb.
      + f_equal. pose proof (IA i a Ea) as Ha. pose proof (IB i b Eb) as Hb.
        assert (Hta : map text (entries A) !! i = Some (text a))
          by (rewrite list_lookup_fmap, Ea; reflexivity).
        assert (Htb : map text (entries B) !! i = Some (text b))
          by (rewrite list_lookup_fmap, Eb; reflexivity).
        rewrite Ht in Hta. rewrite Hta in Htb. injection Htb as Htb.
        destruct a, b. cbn in *. congruence.
      + apply lookup_lt_Some in Ea. apply lookup_ge_None in Eb. lia.
    - destruct (entries B !! i) as [b|] eqn:Eb; [|reflexivity].
      apply lookup_lt_Some in Eb. apply lookup_ge_None in Ea. lia. }
  destruct A, B; cbn in *; subst; reflexivity.
Qed.

Lemma encounter_texts_renumbered (old T : strings)
    (cells cells' : list libo_xl_cell) :
  Forall2 (renumbered old T) cells cells' ->
  encounter_texts T cells' = encounter_texts old cells.
Proof.
  induction 1 as [|c c' cs cs' (_ & _ & Htext) _ IH]; [reflexivity|].
  unfold encounter_texts in *. cbn [flat_map]. rewrite IH.
  unfold encounter_text. rewrite Htext. reflexivity.
Qed.

(** A cell that a pass over an unchanged table maps to a cell of the same
    text is left as it is. *)
Lemma renumbered_fixed (T : strings) (c c' : libo_xl_cell) :
  table_ok T -> resolves T c -> renumbered T T c c' -> id_changed c c' ->
  c' = c.
Proof.
  intros Hok Hres (Hty & Hplain & Htext) [Heq | (Hr & v & Hv)]; [exact Heq|].
  destruct (get_text_resolved T c Hr Hres) as (f & _ & Hold).
  rewrite Hold in Htext.
  pose proof (same_text_same_id T c' c (text f) Hok Htext Hold) as Href.
  subst c'. apply with_reference_same, Href.
Qed.

Lemma rows_fixed (T : strings) (rows rows' : list libo_xl_row) :
  table_ok T ->
  Forall (resolves T) (flat_map row_cell rows) ->
  Forall2 (renumbered T T) (flat_map row_cell rows) (flat_map row_cell rows') ->
  Forall2 (fun r r' => Forall2 id_changed (row_cell r) (row_cell r')) rows rows' ->
  rows' = rows.
Proof.
  intros Hok Hres Hren Hshape. revert Hres Hren.
  induction Hshape as [|r r' rs rs' Hr _ IH]; intros Hres Hren; [reflexivity|].
  cbn [flat_map] in Hres, Hren.
  apply Forall_app in Hres as [Hres1 Hres2].
  apply Forall2_app_inv in Hren as [Hren1 Hren2];
    [|exact (Forall2_length _ _ _ Hr)].
  rewrite (IH Hres2 Hren2). f_equal.
  assert (E : row_cell r' = row_cell r).
  { clear -Hok Hr Hres1 Hren1.
    induction Hr as [|c c' cs cs' Hc _ IHc]; [reflexivity|].
    apply Forall_cons in Hres1 as [Hc1 Hcs1].
    apply Forall2_cons in Hren1 as [Hrc Hrcs].
    rewrite (IHc Hcs1 Hrcs), (renumbered_fixed T c c' Hok Hc1 Hrc Hc).
    reflexivity. }
  destruct r, r'. cbn in E. subst. reflexivity.
Qed.

Lemma flat_cells_length (rows rows' : list libo_xl_row) :
  Forall2 (fun r r' => Forall2 id_changed (row_cell r) (row_cell r')) rows rows' ->
  length (flat_map row_cell rows) = length (flat_map row_cell rows').
Proof.
  induction 1 as [|r r' rs rs' Hr _ IH]; [reflexivity|].
  cbn [flat_map]. rewrite !length_app, IH, (Forall2_length _ _ _ Hr).
  reflexivity.
Qed.

Lemma sheets_fixed (T : strings) (sheets sheets' : list libo_xl_sheet) :
  table_ok T ->
  Forall (resolves T) (doc_cells sheets) ->
  Forall2 (renumbered T T) (doc_cells sheets) (doc_cells sheets') ->
  Forall2 same_but_ids sheets sheets' ->
  sheets' = sheets.
Proof.
  intros Hok Hres Hren Hshape. revert Hres Hren.
  induction Hshape as [|s s' ss ss' [Hs Hrows] _ IH]; intros Hres Hren;
    [reflexivity|].
  unfold doc_cells in *. cbn [flat_map] in Hres, Hren.
  apply Forall_app in Hres as [Hres1 Hres2].
  apply Forall2_app_inv in Hren as [Hren1 Hren2];
    [|exact (flat_cells_length _ _ Hrows)].
  rewrite (IH Hres2 Hren2). f_equal.
  rewrite Hs, (rows_fixed T _ _ Hok Hres1 Hren1 Hrows).
  destruct s. reflexivity.
Qed.

(** X23. The pass is idempotent: on a document whose Reference cells all
    resolve, renumbering a second time changes nothing, neither a cell nor
    the table. *)
Theorem renumber_twice (l : libo) (b : libo_xl_book) (old : strings) :
  type l = libo_type_xl -> xl l = Some (mkXl (Some b) (Some old)) ->
  Forall (resolves old) (doc_cells (book_sheet b)) ->
  Z.of_nat (length (doc_cells (book_sheet b))) < two31 ->
  libo_xl_renumber_strings (libo_xl_renumber_strings l)
  = libo_xl_renumber_strings l.
Proof.
  intros Ht Hx Hres Hlen.
  unfold libo_xl_renumber_strings at 2 3. rewrite Ht, Hx. cbn [xl_strings book].
  destruct b as [bs]. cbn [book_sheet] in *.
  destruct (renumber_sheets_flat old bs (mkPass 0 strings_new))
    as (st1 & sheets1 & E1 & Hflat1 & Hz1).
  unfold renumber_arrays. rewrite E1, Hz1.
  destruct (renumber_cells_spec old (doc_cells bs)
              (mkPass 0 strings_new) table_ok_new eq_refl
              ltac:(cbn [fresh last_id strings_new]; lia) Hres
              st1 (doc_cells sheets1) Hflat1)
    as (Hok1 & _ & _ & _ & Htexts1 & Hren1).
  assert (Hres1 : Forall (resolves (fresh st1)) (doc_cells sheets1)).
  { clear -Hres Hren1.
    induction Hren1 as [|c c' cs cs' Hc Hcs IH]; [constructor|].
    apply Forall_cons in Hres as [Hrc Hrcs].
    constructor; [exact (renumbered_resolves old _ c c' Hrc Hc) | apply IH, Hrcs]. }
  unfold libo_xl_renumber_strings. cbn [type xl xl_strings book book_sheet].
  destruct (renumber_sheets_flat (fresh st1) sheets1 (mkPass 0 strings_new))
    as (st2 & sheets2 & E2 & Hflat2 & Hz2).
  pose proof (renumber_sheets_same_but_ids (fresh st1) sheets1
                (mkPass 0 strings_new) st2 sheets2 E2 Hz2) as Hshape.
  unfold renumber_arrays. rewrite E2, Hz2.
  destruct (renumber_cells_spec (fresh st1) (doc_cells sheets1)
              (mkPass 0 strings_new) table_ok_new eq_refl
              ltac:(cbn [fresh last_id strings_new];
                    rewrite <- (Forall2_length _ _ _ Hren1); lia) Hres1
              st2 (doc_cells sheets2) Hflat2)
    as (Hok2 & _ & _ & _ & Htexts2 & Hren2).
  rewrite (encounter_texts_renumbered old (fresh st1) _ _ Hren1) in Htexts2.
  rewrite <- Htexts1 in Htexts2.
  pose proof (table_ok_texts_eq _ _ Hok2 Hok1 Htexts2) as HT.
  rewrite HT in Hren2 |- *.
  rewrite (sheets_fixed (fresh st1) sheets1 sheets2 Hok1 Hres1 Hren2 Hshape).
  reflexivity.
Qed.

Lemma renumber_twice_witness :
  libo_xl_renumber_strings (libo_xl_renumber_strings two_sheet_doc)
  = libo_xl_renumber_strings two_sheet_doc.
Proof.
  apply (renumber_twice two_sheet_doc
           (mkBook
              [Copy.with_rows libo_xl_sheet_new
                 [mkRow [mkCell libo_xl_cell_type_reference 1 0;
                         mkCell libo_xl_cell_type_number 4631107791820423168 0]];
               Copy.with_rows libo_xl_sheet_new
                 [mkRow [mkCell libo_xl_cell_type_reference 0 0];
                  mkRow [mkCell libo_xl_cell_type_reference 1 0]]])
           (mkStrings 2 [mkString "a" 0; mkString "b" 1])).
  - reflexivity.
  - reflexivity.
  - repeat constructor; intros _; eexists; vm_compute; reflexivity.
  - vm_compute. reflexivity.
Defined.

(** ** The pass at a null pointer *)

Lemma renumber_sheets_null_row (old : strings) (before : list (list libo_xl_row))
    (rows : list libo_xl_row) (rest : row_array) (after : sheet_array) :
  forall st : pass,
  exists (st' : pass) (before' : list (list libo_xl_row))
         (rows' : list libo_xl_row),
    renumber_sheets old st
      (pointers (map pointers before)
       ++ Some (pointers rows ++ None :: rest) :: after)
    = (false, st',
       pointers (map pointers before')
       ++ Some (pointers rows' ++ None :: rest) :: after) /\
    renumber_cells old st
      (flat_map (flat_map row_cell) before ++ flat_map row_cell rows)
    = (st', flat_map (flat_map row_cell) before' ++ flat_map row_cell rows').
Proof.
  induction before as [|rs before IH]; intros st.
  - destruct (renumber_rows_null old rows rest st) as (st' & rows' & E & F).
    exists st', [], rows'. split; [|exact F].
    cbn [map pointers app renumber_sheets]. rewrite E. reflexivity.
  - destruct (renumber_rows_flat old rs st) as (st1 & rs' & E1 & F1).
    destruct (IH st1) as (st' & before' & rows' & E & F).
    exists st', (rs' :: before'), rows'. split.
    + change (pointers (map pointers (rs :: before)))
        with (Some (pointers rs) :: pointers (map pointers before)).
      cbn [app renumber_sheets]. rewrite E1, E. reflexivity.
    + cbn [flat_map]. rewrite <- !app_assoc, renumber_cells_app, F1, F.
      reflexivity.
Qed.

Lemma renumber_sheets_null_sheet (old : strings)
    (before : list (list libo_xl_row)) (after : sheet_array) :
  forall st : pass,
  exists (st' : pass) (before' : list (list libo_xl_row)),
    renumber_sheets old st (pointers (map pointers before) ++ None :: after)
    = (false, st', pointers (map pointers before') ++ None :: after) /\
    renumber_cells old st (flat_map (flat_map row_cell) before)
    = (st', flat_map (flat_map row_cell) before').
Proof.
  induction before as [|rs before IH]; intros st.
  - exists st, []. split; reflexivity.
  - destruct (renumber_rows_flat old rs st) as (st1 & rs' & E1 & F1).
    destruct (IH st1) as (st' & before' & E & F).
    exists st', (rs' :: before'). split.
    + change (pointers (map pointers (rs :: before)))
        with (Some (pointers rs) :: pointers (map pointers before)).
      cbn [app renumber_sheets]. rewrite E1, E. reflexivity.
    + cbn [flat_map]. rewrite renumber_cells_app, F1, F. reflexivity.
Qed.

(** X26. The pass returns at the first null pointer it loads. With a null
    element in the row array of a sheet, or in the sheet array, the cells of
    the rows before it are rewritten as the pass rewrites them, the null
    element and all that follows it are left as they are, and the table of
    the document stays: the table under construction is not installed. *)
Theorem renumber_returns_at_null
    (old : strings) (before : list (list libo_xl_row))
    (rows : list libo_xl_row) (rest : row_array) (after : sheet_array) :
  (exists (st' : pass) (before' : list (list libo_xl_row))
          (rows' : list libo_xl_row),
      renumber_arrays old
        (pointers (map pointers before)
         ++ Some (pointers rows ++ None :: rest) :: after)
      = (pointers (map pointers before')
         ++ Some (pointers rows' ++ None :: rest) :: after, old) /\
      renumber_cells old (mkPass 0 strings_new)
        (flat_map (flat_map row_cell) before ++ flat_map row_cell rows)
      = (st', flat_map (flat_map row_cell) before'
              ++ flat_map row_cell rows')) /\
  (exists (st' : pass) (before' : list (list libo_xl_row)),
      renumber_arrays old (pointers (map pointers before) ++ None :: after)
      = (pointers (map pointers before') ++ None :: after, old) /\
      renumber_cells old (mkPass 0 strings_new)
        (flat_map (flat_map row_cell) before)
      = (st', flat_map (flat_map row_cell) before')).
Proof.
  split.
  - destruct (renumber_sheets_null_row old before rows rest after
                (mkPass 0 strings_new)) as (st' & before' & rows' & E & F).
    exists st', before', rows'. split; [|exact F].
    unfold renumber_arrays. rewrite E. reflexivity.
  - destruct (renumber_sheets_null_sheet old before after
                (mkPass 0 strings_new)) as (st' & before' & E & F).
    exists st', before'. split; [|exact F].
    unfold renumber_arrays. rewrite E. reflexivity.
Qed.

(** ** Cells without addresses *)

Section InOrder.

Variable atof : string -> double.

Lemma row_loop_in_order (n : nat) (children : list xml_cell) :
  forall (j : nat) (cells : list libo_xl_cell) (h : heap),
    heap_wf h -> length cells = n -> (j <= n)%nat ->
    (forall (i : nat) (nd : xml_cell),
        children !! i = Some nd -> node_name nd = "c"%string ->
        col_of nd <= Z.of_nat (j + i)) ->
    (forall p, (j <= p < n)%nat -> cells !! p = Some libo_xl_cell_new) ->
    exists (j' : nat) (cells' : list libo_xl_cell) (h' : heap),
      row_loop atof (Z.of_nat n) children (Z.of_nat j) cells h
      = Some ((Z.of_nat j', cells'), h') /\
      heap_wf h' /\ blocks h ⊆ blocks h' /\ length cells' = n /\
      (j <= j' <= n)%nat /\ j' = Nat.min n (j + length children) /\
      (forall p, (j' <= p < n)%nat -> cells' !! p = Some libo_xl_cell_new) /\
      (forall (i : nat) (nd : xml_cell),
          children !! i = Some nd -> (j + i < n)%nat ->
          exists c, cells' !! (j + i)%nat = Some c /\ left_by nd c) /\
      (forall p, (p < j)%nat -> cells' !! p = cells !! p).
Proof.
  induction children as [|nd rest IH];
    intros j cells h Hwf Hlen Hjn Hcols Hnew.
  - exists j, cells, h. split; [reflexivity|]. split; [exact Hwf|].
    split; [reflexivity|]. split; [exact Hlen|]. split; [lia|].
    split; [cbn [length]; lia|]. split; [exact Hnew|].
    split; [intros i nd' Hi; inversion Hi | reflexivity].
  - cbn [row_loop].
    destruct (Z.of_nat j <? Z.of_nat n) eqn:Ejn.
    2:{ apply Z.ltb_ge in Ejn. assert (j = n) by lia. subst j.
        exists n, cells, h. split; [reflexivity|]. split; [exact Hwf|].
        split; [reflexivity|]. split; [exact Hlen|]. split; [lia|].
        split; [lia|]. split; [exact Hnew|].
        split; [intros i nd' _ Hi; lia | reflexivity]. }
    apply Z.ltb_lt in Ejn.
    assert (Hrest : forall (i : nat) (nd' : xml_cell),
               rest !! i = Some nd' -> node_name nd' = "c"%string ->
               col_of nd' <= Z.of_nat (S j + i)).
    { intros i nd' Hi Hn'. specialize (Hcols (S i) nd' Hi Hn').
      replace (S j + i)%nat with (j + S i)%nat by lia. exact Hcols. }
    destruct (String.eqb (node_name nd) "c") eqn:Ename.
    + (* a [c] element: it is stored at the cursor *)
      apply String.eqb_eq in Ename.
      pose proof (Hcols 0%nat nd eq_refl Ename) as Hc0.
      rewrite Nat.add_0_r in Hc0.
      destruct (read_cell_spec atof nd libo_xl_cell_new h Hwf)
        as (cell' & h1 & E1 & Hwf1 & Hsub1 & Htype).
      set (cells1 := store_cell cells (Z.of_nat j) cell').
      assert (Hlen1 : length cells1 = n).
      { unfold cells1, store_cell. rewrite length_insert. exact Hlen. }
      assert (Hget1 : forall p, p <> j -> cells1 !! p = cells !! p).
      { intros p Hp. unfold cells1, store_cell. rewrite Nat2Z.id.
        apply list_lookup_insert_ne. lia. }
      assert (Hown1 : cells1 !! j = Some cell').
      { unfold cells1, store_cell. rewrite Nat2Z.id.
        apply list_lookup_insert_eq. lia. }
      destruct (IH (S j) cells1 h1 Hwf1 Hlen1 ltac:(lia) Hrest)
        as (j' & cells' & h' & E2 & Hwf' & Hsub2 & Hlen' & Hj' & Hj'' & Hhigh
            & Hdecl & Hlow).
      { intros p Hp. rewrite Hget1 by lia. apply Hnew. lia. }
      exists j', cells', h'. split.
      { fold (col_of nd).
        replace (Z.to_nat (col_of nd - Z.of_nat j)) with 0%nat by lia.
        lazymatch goal with
        | |- bind ?m ?k h = _ =>
            assert (Einner : m h = Some ((Z.of_nat j, cells1), h1))
        end.
        { cbn [fill_loop]. rewrite (bind_ok _ _ h h cells eq_refl). cbv zeta.
          rewrite Z.max_l by lia.
          rewrite (bind_ok _ _ _ _ _
                     (cell_at_spec cells j _ h (Hnew j ltac:(lia)))).
          rewrite (bind_ok _ _ _ _ _ E1). reflexivity. }
        rewrite (bind_ok _ _ _ _ _ Einner). cbn [fst snd].
        replace (Z.of_nat j + 1) with (Z.of_nat (S j)) by lia. exact E2. }
      split; [exact Hwf'|]. split; [etransitivity; eassumption|].
      split; [exact Hlen'|]. split; [lia|]. split; [cbn [length]; lia|].
      split; [exact Hhigh|]. split.
      * intros i nd' Hi Hin. destruct i as [|i].
        -- injection Hi as <-. rewrite Nat.add_0_r. exists cell'.
           split; [rewrite Hlow by lia; exact Hown1|].
           unfold left_by. rewrite Ename, String.eqb_refl. exact Htype.
        -- replace (j + S i)%nat with (S j + i)%nat by lia.
           apply Hdecl; [exact Hi | lia].
      * intros p Hp. rewrite Hlow by lia. apply Hget1. lia.
    + (* any other node: the cursor moves on, the cell stays *)
      destruct (IH (S j) cells h Hwf Hlen ltac:(lia) Hrest)
        as (j' & cells' & h' & E2 & Hwf' & Hsub2 & Hlen' & Hj' & Hj'' & Hhigh
            & Hdecl & Hlow).
      { intros p Hp. apply Hnew. lia. }
      exists j', cells', h'. split.
      { rewrite (bind_ok _ _ h h (Z.of_nat j, cells) eq_refl). cbn [fst snd].
        replace (Z.of_nat j + 1) with (Z.of_nat (S j)) by lia. exact E2. }
      split; [exact Hwf'|]. split; [exact Hsub2|].
      split; [exact Hlen'|]. split; [lia|]. split; [cbn [length]; lia|].
      split; [exact Hhigh|]. split.
      * intros i nd' Hi Hin. destruct i as [|i].
        -- injection Hi as <-. rewrite Nat.add_0_r. exists libo_xl_cell_new.
           split; [rewrite Hlow by lia; apply Hnew; lia|].
           unfold left_by. rewrite Ename. reflexivity.
        -- replace (j + S i)%nat with (S j + i)%nat by lia.
           apply Hdecl; [exact Hi | lia].
      * intros p Hp. apply Hlow. lia.
Qed.

Lemma read_row_in_order (n : nat) (node : xml_row) (row : libo_xl_row)
    (h : heap) :
  heap_wf h -> row_cell row = replicate n libo_xl_cell_new ->
  in_order_row node ->
  exists (r : libo_xl_row) (h' : heap),
    read_row atof (Z.of_nat n) node row h = Some (r, h') /\
    heap_wf h' /\ blocks h ⊆ blocks h' /\ placed_in_order n h' node r.
Proof.
  intros Hwf Hrow Hcols.
  destruct (row_loop_in_order n (row_children node) 0 (row_cell row) h Hwf)
    as (j' & cells1 & h1 & E1 & Hwf1 & Hsub1 & Hlen1 & Hj' & Hj'' & Hhigh
        & Hdecl & _);
    [rewrite Hrow; apply length_replicate | lia | exact Hcols | |].
  { intros p Hp. rewrite Hrow. apply lookup_replicate_2. lia. }
  destruct (fill_loop_spec (n - j') j' cells1 h1 Hwf1)
    as (cells2 & h2 & E2 & Hwf2 & Hsub2 & Hlen2 & Hout2 & Hin2).
  { intros p Hp. apply Hhigh. lia. }
  exists (mkRow cells2), h2. split.
  { unfold read_row. change 0 with (Z.of_nat 0).
    rewrite (bind_ok _ _ _ _ _ E1). cbn [fst snd].
    replace (Z.to_nat (Z.of_nat n - Z.of_nat j')) with (n - j')%nat by lia.
    rewrite (bind_ok _ _ _ _ _ E2). reflexivity. }
  split; [exact Hwf2|]. split; [etransitivity; eassumption|].
  split; [unfold n_cells; cbn [row_cell]; lia|]. split.
  - intros i nd Hi Hin. cbn [row_cell].
    destruct (Hdecl i nd Hi Hin) as (c & Hc & Ht). cbn [Nat.add] in Hc.
    assert (Hij : (i < j')%nat)
      by (pose proof (lookup_lt_Some _ _ _ Hi) as Hil; lia).
    exists c. split; [rewrite Hout2 by lia; exact Hc | exact Ht].
  - intros p Hp. cbn [row_cell]. apply Hin2. lia.
Qed.


Lemma placed_in_order_mono (n : nat) (h h' : heap) (node : xml_row)
    (r : libo_xl_row) :
  blocks h ⊆ blocks h' -> placed_in_order n h node r ->
  placed_in_order n h' node r.
Proof.
  intros Hsub (Hn & Hdecl & Hgap). split; [exact Hn|]. split; [exact Hdecl|].
  intros p Hp. destruct (Hgap p Hp) as (c & Hc & Hg).
  exists c. split; [exact Hc | exact (is_gap_mono h h' c Hsub Hg)].
Qed.

Lemma rows_loop_in_order (n : nat) (nodes : list xml_row) :
  forall (rows : list libo_xl_row) (h : heap),
    heap_wf h -> length rows = length nodes ->
    Forall (fun r => row_cell r = replicate n libo_xl_cell_new) rows ->
    Forall in_order_row nodes ->
    exists (rows' : list libo_xl_row) (h' : heap),
      Reader.rows_loop atof (Z.of_nat n) rows nodes h = Some (rows', h') /\
      heap_wf h' /\ blocks h ⊆ blocks h' /\
      Forall2 (placed_in_order n h') nodes rows'.
Proof.
  induction nodes as [|node nodes IH]; intros rows h Hwf Hlen Hnew Hord.
  - destruct rows; [|discriminate Hlen].
    exists [], h. split; [reflexivity|]. split; [exact Hwf|].
    split; [reflexivity | constructor].
  - destruct rows as [|row rows]; [discriminate Hlen|].
    apply Forall_cons in Hnew as [Hrow Hnew].
    apply Forall_cons in Hord as [Hnode Hord].
    destruct (read_row_in_order n node row h Hwf Hrow Hnode)
      as (r & h1 & E1 & Hwf1 & Hsub1 & Hmat1).
    destruct (IH rows h1 Hwf1 ltac:(cbn in Hlen; lia) Hnew Hord)
      as (rs & h2 & E2 & Hwf2 & Hsub2 & Hmat2).
    exists (r :: rs), h2. split.
    { cbn [Reader.rows_loop]. rewrite (bind_ok _ _ _ _ _ E1).
      rewrite (bind_ok _ _ _ _ _ E2). reflexivity. }
    split; [exact Hwf2|]. split; [etransitivity; eassumption|].
    constructor; [exact (placed_in_order_mono n h1 h2 node r Hsub2 Hmat1)|].
    exact Hmat2.
Qed.

(** X14. Cells are read by their position among the child nodes of the row.
    The sheet has at least one column and as many rows as there are [row]
    elements; in each row no [c] element names a column ahead of its
    position among the child nodes (a [c] element without the attribute [r]
    reads as column 0, and the nodes that are no [c] elements, such as the
    text between the elements of an indented file, count as positions). Then
    the [i]-th child node decides column [i]: a [c] element is stored there
    with its declared kind, any other node leaves the new Empty cell; nodes
    at positions past the width of the sheet are dropped, and the columns
    after the last child node hold gap cells. *)
Theorem reader_places_cells_in_order
    (h : heap) (n_cols : nat) (nodes : list xml_row) :
  heap_wf h -> (0 < n_cols)%nat -> Forall in_order_row nodes ->
  exists (rows : list libo_xl_row) (h' : heap),
    libo_xl_sheet_rows_read atof (Z.of_nat (length nodes)) (Z.of_nat n_cols)
      nodes h = Some (rows, h') /\
    Forall2 (placed_in_order n_cols h') nodes rows.
Proof.
  intros Hwf _ Hord. unfold libo_xl_sheet_rows_read.
  rewrite Z.eqb_refl. unfold new_grid. rewrite !Nat2Z.id.
  destruct (rows_loop_in_order n_cols nodes
              (replicate (length nodes)
                 (mkRow (replicate n_cols libo_xl_cell_new))) h Hwf)
    as (rows & h' & E & _ & _ & Hmat);
    [apply length_replicate | | exact Hord |].
  { apply Forall_forall. intros r Hr.
    apply elem_of_replicate in Hr as [-> _]. reflexivity. }
  exists rows, h'. split; [exact E | exact Hmat].
Qed.

End InOrder.

Lemma reader_places_cells_in_order_witness :
  exists (rows : list libo_xl_row) (h' : heap),
    libo_xl_sheet_rows_read atof_zero (Z.of_nat (length unaddressed_rows))
      (Z.of_nat 3) unaddressed_rows empty_heap = Some (rows, h') /\
    Forall2 (placed_in_order 3 h') unaddressed_rows rows.
Proof.
  apply (reader_places_cells_in_order atof_zero empty_heap 3 unaddressed_rows).
  - closed_heap_wf.
  - lia.
  - repeat constructor; intros i nd Hi Hname; cbn [row_children] in Hi;
      repeat (destruct i as [|i];
              [injection Hi as <-;
               first [discriminate Hname | vm_compute; intros H; discriminate H]
              | cbn in Hi]);
      discriminate Hi.
Defined.

(** ** The reader's sheet owns its strings *)

Lemma cells_ptrs_app (a b : list libo_xl_cell) :
  cells_ptrs (a ++ b) = cells_ptrs a ++ cells_ptrs b.
Proof. unfold cells_ptrs. apply flat_map_app. Qed.

Lemma cells_ptrs_new (k : nat) : cells_ptrs (replicate k libo_xl_cell_new) = [].
Proof. induction k as [|k IH]; [reflexivity|]. cbn. exact IH. Qed.

Lemma live_weaken (h h' : heap) (p : ptr) :
  blocks h ⊆ blocks h' -> live h p -> live h' p.
Proof.
  intros Hsub [s Hs]. exists s. exact (lookup_weaken _ _ _ _ Hs Hsub).
Qed.

Lemma live_below (h : heap) (p : ptr) : heap_wf h -> live h p -> 0 < p < next h.
Proof. intros [_ Hb] Hp. exact (Hb p Hp). Qed.

(** Strings allocated from [next h] on join the strings owned in [h]. *)
Lemma cells_fresh_app (h h' : heap) (n0 : Z) (a b : list libo_xl_cell) :
  heap_wf h -> blocks h ⊆ blocks h' ->
  cells_fresh h n0 a -> cells_fresh h' (next h) b -> n0 <= next h ->
  cells_fresh h' n0 (a ++ b).
Proof.
  intros Hwf Hsub [[Hnd Hl] Hf] [[Hnd' Hl'] Hf'] Hn0.
  rewrite Forall_forall in Hl, Hf, Hl', Hf'.
  unfold cells_fresh. rewrite cells_ptrs_app. split; [split|].
  - apply NoDup_app. split; [exact Hnd|]. split; [|exact Hnd'].
    intros p Hp Hp'. pose proof (live_below h p Hwf (Hl p Hp)).
    specialize (Hf' p Hp'). lia.
  - apply Forall_app. split; apply Forall_forall; intros p Hp.
    + apply (live_weaken h h' p Hsub), Hl, Hp.
    + apply Hl', Hp.
  - apply Forall_app. split; apply Forall_forall; intros p Hp.
    + apply Hf, Hp.
    + specialize (Hf' p Hp). lia.
Qed.

Lemma cells_fresh_nil (h : heap) (n0 : Z) : cells_fresh h n0 [].
Proof. split; [split|]; constructor. Qed.

Lemma cells_fresh_weaken (h h' : heap) (n0 : Z) (a : list libo_xl_cell) :
  blocks h ⊆ blocks h' -> cells_fresh h n0 a -> cells_fresh h' n0 a.
Proof.
  intros Hsub [[Hnd Hl] Hf]. split; [split|]; [exact Hnd | | exact Hf].
  rewrite Forall_forall in Hl |- *. intros p Hp.
  apply (live_weaken h h' p Hsub), Hl, Hp.
Qed.

(** The gap cell the filling loops make. *)
Lemma gap_cell_fresh (h : heap) (s : string) :
  heap_wf h ->
  cells_fresh (mkHeap (<[next h := s]> (blocks h)) (next h + 1)) (next h)
    [mkCell libo_xl_cell_type_expression 0 (next h)].
Proof.
  intros [Hpos _]. unfold cells_fresh, cells_ptrs, cell_ptrs.
  cbn [flat_map cell_type expression formula value word0 word1].
  destruct (decide _) as [_|Hne]; [|contradiction].
  assert (Hn : (next h =? NULL) = false) by (apply Z.eqb_neq; unfold NULL; lia).
  rewrite Hn. cbn [Z.eqb NULL app]. split; [split|].
  - apply NoDup_singleton.
  - constructor; [|constructor]. eexists. cbn [blocks]. apply lookup_insert_eq.
  - constructor; [lia | constructor].
Qed.

Lemma fill_loop_fresh (count : nat) :
  forall (j : nat) (done : list libo_xl_cell) (k : nat) (n0 : Z)
         (h h' : heap) (cells' : list libo_xl_cell),
    heap_wf h -> length done = j -> cells_fresh h n0 done -> n0 <= next h ->
    fill_loop count (Z.of_nat j) (done ++ replicate k libo_xl_cell_new) h
    = Some (cells', h') ->
    exists done' : list libo_xl_cell,
      cells' = done' ++ replicate (k - count) libo_xl_cell_new /\
      length done' = (j + count)%nat /\ (count <= k)%nat /\
      heap_wf h' /\ blocks h ⊆ blocks h' /\ cells_fresh h' n0 done' /\
      n0 <= next h'.
Proof.
  induction count as [|c IH]; intros j done k n0 h h' cells' Hwf Hlen Hfr Hn0 E.
  - injection E as <- <-. exists done. rewrite Nat.sub_0_r, Nat.add_0_r.
    split; [reflexivity|]. split; [exact Hlen|]. split; [lia|].
    split; [exact Hwf|]. split; [reflexivity|]. split; assumption.
  - cbn [fill_loop] in E. unfold bind at 1 in E. unfold cell_at in E.
    destruct (Z.of_nat j <? 0) eqn:Ej; [discriminate E|]. rewrite Nat2Z.id in E.
    destruct k as [|k].
    { cbn [replicate] in E. rewrite app_nil_r in E.
      rewrite (proj2 (lookup_ge_None done j)) in E by lia. discriminate E. }
    rewrite lookup_app_r in E by lia.
    rewrite Hlen, Nat.sub_diag in E. cbn [replicate lookup list_lookup] in E.
    unfold ret in E. unfold bind at 1 in E. unfold alloc at 1 in E.
    set (gap := with_expression _ _) in E.
    set (h1 := mkHeap _ _) in E.
    assert (Hgap : gap = mkCell libo_xl_cell_type_expression 0 (next h))
      by reflexivity.
    assert (Hstore : store_cell (done ++ libo_xl_cell_new :: replicate k libo_xl_cell_new)
                       (Z.of_nat j) gap
                     = (done ++ [gap]) ++ replicate k libo_xl_cell_new).
    { unfold store_cell. rewrite Nat2Z.id.
      rewrite insert_app_r_alt by lia. rewrite Hlen, Nat.sub_diag.
      cbn [list_insert insert]. rewrite <- app_assoc. reflexivity. }
    rewrite Hstore in E.
    replace (Z.of_nat j + 1) with (Z.of_nat (S j)) in E by lia.
    assert (Hwf1 : heap_wf h1) by (apply heap_wf_alloc, Hwf).
    assert (Hsub1 : blocks h ⊆ blocks h1).
    { unfold h1. cbn [blocks]. apply insert_subseteq, heap_wf_next, Hwf. }
    assert (Hfr1 : cells_fresh h1 n0 (done ++ [gap])).
    { apply (cells_fresh_app h h1 n0 done [gap] Hwf Hsub1 Hfr); [|exact Hn0].
      rewrite Hgap. apply gap_cell_fresh, Hwf. }
    destruct (IH (S j) (done ++ [gap]) k n0 h1 h' cells' Hwf1
                ltac:(rewrite length_app; cbn [length]; lia) Hfr1
                ltac:(unfold h1; cbn [next]; lia) E)
      as (done' & Hc & Hl' & Hck & Hwf' & Hsub' & Hfr' & Hn').
    exists done'. split; [exact Hc|]. split; [lia|]. split; [lia|].
    split; [exact Hwf'|]. split; [etransitivity; eassumption|].
    split; assumption.
Qed.

Lemma members_fresh_cell (h : heap) (n0 : Z) (c : libo_xl_cell) :
  cell_type c = libo_xl_cell_type_expression ->
  members_fresh h n0 (expression c) -> cells_fresh h n0 [c].
Proof.
  intros Ht (Hf & Hv & Hne). unfold cells_fresh, cells_ptrs, cell_ptrs.
  cbn [flat_map]. rewrite app_nil_r.
  destruct (decide _) as [_|Hn]; [|contradiction].
  destruct (formula (expression c) =? NULL) eqn:Ef,
           (value (expression c) =? NULL) eqn:Ev; cbn [app].
  - split; [split|]; constructor.
  - apply Z.eqb_neq in Ev. destruct Hv as [Hv|[Hl Hn]]; [contradiction|].
    split; [split|]; [apply NoDup_singleton | |]; repeat constructor; assumption.
  - apply Z.eqb_neq in Ef. destruct Hf as [Hf|[Hl Hn]]; [contradiction|].
    split; [split|]; [apply NoDup_singleton | |]; repeat constructor; assumption.
  - apply Z.eqb_neq in Ef, Ev.
    destruct Hf as [Hf|[Hlf Hnf]]; [contradiction|].
    destruct Hv as [Hv|[Hlv Hnv]]; [contradiction|].
    split; [split|].
    + apply NoDup_cons. split; [|apply NoDup_singleton].
      intros Hin. apply list_elem_of_singleton in Hin. exact (Hne Ef Hin).
    + repeat constructor; assumption.
    + repeat constructor; assumption.
Qed.

Section Ownership.

Variable atof : string -> double.

Lemma read_expression_fresh (ns : list xml_child) :
  forall (cell cell' : libo_xl_cell) (n0 : Z) (h h' : heap),
    heap_wf h -> n0 <= next h ->
    cell_type cell = libo_xl_cell_type_expression ->
    members_fresh h n0 (expression cell) ->
    read_expression cell ns h = Some (cell', h') ->
    heap_wf h' /\ blocks h ⊆ blocks h' /\ n0 <= next h' /\
    cell_type cell' = libo_xl_cell_type_expression /\
    members_fresh h' n0 (expression cell').
Proof.
  induction ns as [|n rest IH]; intros cell cell' n0 h h' Hwf Hn0 Ht Hm E.
  - injection E as <- <-. split; [exact Hwf|]. split; [reflexivity|].
    split; [exact Hn0|]. split; assumption.
  - cbn [read_expression] in E.
    assert (Hskip : read_expression cell rest h = Some (cell', h') ->
                    heap_wf h' /\ blocks h ⊆ blocks h' /\ n0 <= next h' /\
                    cell_type cell' = libo_xl_cell_type_expression /\
                    members_fresh h' n0 (expression cell'))
      by (apply IH; assumption).
    destruct (child_is_element n); [|exact (Hskip E)].
    set (h1 := mkHeap (<[next h := child_content n]> (blocks h)) (next h + 1)).
    assert (Hwf1 : heap_wf h1) by (apply heap_wf_alloc, Hwf).
    assert (Hsub1 : blocks h ⊆ blocks h1).
    { unfold h1. cbn [blocks]. apply insert_subseteq, heap_wf_next, Hwf. }
    assert (Hp : live h1 (next h) /\ n0 <= next h).
    { split; [|exact Hn0]. eexists. unfold h1. cbn [blocks].
      apply lookup_insert_eq. }
    assert (Hpos : next h <> NULL)
      by (destruct Hwf as [Hp0 _]; unfold NULL; lia).
    destruct Hm as (Hf & Hv & Hne).
    cbn [expression formula value] in Hf, Hv, Hne.
    assert (Hold : forall q, live h q -> live h1 q /\ q <> next h).
    { intros q Hq. split; [exact (live_weaken h h1 q Hsub1 Hq)|].
      pose proof (live_below h q Hwf Hq). lia. }
    destruct (String.eqb (child_name n) "f").
    + unfold bind at 1 in E. cbn [alloc] in E. fold h1 in E.
      apply (IH _ _ n0 h1 h' Hwf1 ltac:(unfold h1; cbn [next]; lia)) in E.
      * destruct E as (Hwf' & Hsub' & Hn' & Ht' & Hm').
        split; [exact Hwf'|]. split; [etransitivity; eassumption|].
        split; [exact Hn'|]. split; assumption.
      * cbn [with_expression cell_type]. exact Ht.
      * cbn [with_expression expression formula value word0 word1].
        split; [right; exact Hp|]. split.
        -- destruct Hv as [Hv|[Hlv Hnv]]; [left; exact Hv|].
           right. split; [apply Hold, Hlv | exact Hnv].
        -- intros _ Heq. destruct Hv as [Hv|[Hlv Hnv]].
           ++ rewrite Hv in Heq. exact (Hpos Heq).
           ++ destruct (Hold _ Hlv) as [_ Hq]. exact (Hq (eq_sym Heq)).
    + destruct (String.eqb (child_name n) "v"); [|exact (Hskip E)].
      unfold bind at 1 in E. cbn [alloc] in E. fold h1 in E.
      apply (IH _ _ n0 h1 h' Hwf1 ltac:(unfold h1; cbn [next]; lia)) in E.
      * destruct E as (Hwf' & Hsub' & Hn' & Ht' & Hm').
        split; [exact Hwf'|]. split; [etransitivity; eassumption|].
        split; [exact Hn'|]. split; assumption.
      * cbn [with_expression cell_type]. exact Ht.
      * cbn [with_expression expression formula value word0 word1].
        split.
        -- destruct Hf as [Hf|[Hlf Hnf]]; [left; exact Hf|].
           right. split; [apply Hold, Hlf | exact Hnf].
        -- split; [right; exact Hp|].
           intros Hfn Heq. destruct Hf as [Hf|[Hlf Hnf]]; [exact (Hfn Hf)|].
           destruct (Hold _ Hlf) as [_ Hq]. exact (Hq Heq).
Qed.

Lemma plain_cell_fresh (h : heap) (n0 : Z) (c : libo_xl_cell) :
  cell_type c <> libo_xl_cell_type_expression -> cells_fresh h n0 [c].
Proof.
  intros Hne. unfold cells_fresh, cells_ptrs, cell_ptrs. cbn [flat_map].
  destruct (decide _) as [He|_]; [contradiction|].
  split; [split|]; constructor.
Qed.

Lemma read_cell_fresh (nd : xml_cell) (cell' : libo_xl_cell) (h h' : heap) :
  heap_wf h ->
  read_cell atof nd libo_xl_cell_new h = Some (cell', h') ->
  heap_wf h' /\ blocks h ⊆ blocks h' /\ next h <= next h' /\
  cells_fresh h' (next h) [cell'].
Proof.
  intros Hwf E. unfold read_cell in E. fold (declared_type nd) in E.
  destruct (declared_type nd) eqn:Et.
  - injection E as <- <-. split; [exact Hwf|]. split; [reflexivity|].
    split; [lia|]. apply plain_cell_fresh. discriminate.
  - injection E as <- <-. split; [exact Hwf|]. split; [reflexivity|].
    split; [lia|]. apply plain_cell_fresh.
    rewrite fold_read_reference_type. discriminate.
  - apply (read_expression_fresh _ _ _ (next h) h h' Hwf ltac:(lia)) in E.
    + destruct E as (Hwf' & Hsub' & Hn' & Ht' & Hm').
      split; [exact Hwf'|]. split; [exact Hsub'|]. split; [exact Hn'|].
      apply members_fresh_cell; assumption.
    + reflexivity.
    + split; [left; reflexivity|]. split; [left; reflexivity|].
      intros H. exfalso. apply H. reflexivity.
  - injection E as <- <-. split; [exact Hwf|]. split; [reflexivity|].
    split; [lia|]. apply plain_cell_fresh.
    rewrite fold_read_number_type. discriminate.
Qed.


Lemma row_loop_fresh (children : list xml_cell) :
  forall (j k : nat) (done : list libo_xl_cell) (n0 : Z) (h h' : heap)
         (j' : Z) (cells' : list libo_xl_cell),
    heap_wf h -> length done = j -> cells_fresh h n0 done -> n0 <= next h ->
    row_loop atof (Z.of_nat (j + k)) children (Z.of_nat j)
      (done ++ replicate k libo_xl_cell_new) h = Some ((j', cells'), h') ->
    exists (done' : list libo_xl_cell) (k' : nat),
      cells' = done' ++ replicate k' libo_xl_cell_new /\
      j' = Z.of_nat (length done') /\ (length done' + k' = j + k)%nat /\
      heap_wf h' /\ blocks h ⊆ blocks h' /\ cells_fresh h' n0 done' /\
      n0 <= next h'.
Proof.
  induction children as [|nd rest IH];
    intros j k done n0 h h' j' cells' Hwf Hlen Hfr Hn0 E.
  - injection E as <- <- <-. exists done, k.
    split; [reflexivity|]. split; [rewrite Hlen; reflexivity|].
    split; [lia|]. split; [exact Hwf|]. split; [reflexivity|].
    split; assumption.
  - cbn [row_loop] in E.
    destruct (Z.of_nat j <? Z.of_nat (j + k)) eqn:Ejn.
    2:{ injection E as <- <- <-. exists done, k.
        split; [reflexivity|]. split; [rewrite Hlen; reflexivity|].
        split; [lia|]. split; [exact Hwf|]. split; [reflexivity|].
        split; assumption. }
    apply Z.ltb_lt in Ejn.
    destruct (String.eqb (node_name nd) "c").
    + fold (col_of nd) in E. unfold bind at 1 in E. unfold bind at 1 in E.
      destruct (fill_loop (Z.to_nat (col_of nd - Z.of_nat j)) (Z.of_nat j)
                  (done ++ replicate k libo_xl_cell_new) h)
        as [[cells1 h1]|] eqn:E1; [|discriminate E].
      destruct (fill_loop_fresh _ j done k n0 h h1 cells1 Hwf Hlen Hfr Hn0 E1)
        as (done1 & Hc1 & Hl1 & Hck & Hwf1 & Hsub1 & Hfr1 & Hn1).
      set (cnt := Z.to_nat (col_of nd - Z.of_nat j)) in *.
      assert (Hj1 : Z.max (Z.of_nat j) (col_of nd) = Z.of_nat (length done1))
        by (unfold cnt in Hl1; lia).
      cbv zeta in E. rewrite Hj1 in E.
      unfold bind at 1 in E. unfold cell_at in E.
      destruct (Z.of_nat (length done1) <? 0); [discriminate E|].
      rewrite Nat2Z.id, Hc1 in E.
      destruct (k - cnt)%nat as [|k1] eqn:Ek.
      { cbn [replicate] in E. rewrite app_nil_r in E.
        rewrite (proj2 (lookup_ge_None done1 (length done1))) in E by lia.
        discriminate E. }
      rewrite lookup_app_r in E by lia. rewrite Nat.sub_diag in E.
      cbn [replicate lookup list_lookup] in E. unfold ret at 1 in E.
      unfold bind at 1 in E.
      destruct (read_cell atof nd libo_xl_cell_new h1)
        as [[cell2 h2]|] eqn:E2; [|discriminate E].
      destruct (read_cell_fresh nd cell2 h1 h2 Hwf1 E2)
        as (Hwf2 & Hsub2 & Hn2 & Hfr2).
      unfold ret at 1 in E. cbn [fst snd] in E.
      assert (Hstore : store_cell
                         (done1 ++ libo_xl_cell_new :: replicate k1 libo_xl_cell_new)
                         (Z.of_nat (length done1)) cell2
                       = (done1 ++ [cell2]) ++ replicate k1 libo_xl_cell_new).
      { unfold store_cell. rewrite Nat2Z.id.
        rewrite insert_app_r_alt by lia. rewrite Nat.sub_diag.
        cbn [list_insert insert]. rewrite <- app_assoc. reflexivity. }
      rewrite Hstore in E.
      replace (Z.of_nat (length done1) + 1)
        with (Z.of_nat (S (length done1))) in E by lia.
      replace (j + k)%nat with (S (length done1) + k1)%nat in E by lia.
      assert (Hfr12 : cells_fresh h2 n0 (done1 ++ [cell2]))
        by (apply (cells_fresh_app h1 h2 n0 done1 [cell2] Hwf1 Hsub2 Hfr1 Hfr2);
            exact Hn1).
      destruct (IH (S (length done1)) k1 (done1 ++ [cell2]) n0 h2 h' j' cells'
                  Hwf2 ltac:(rewrite length_app; cbn [length]; lia) Hfr12
                  ltac:(lia) E)
        as (done' & k' & Hc & Hj' & Hl' & Hwf' & Hsub' & Hfr' & Hn').
      exists done', k'. split; [exact Hc|]. split; [exact Hj'|].
      split; [lia|]. split; [exact Hwf'|].
      split; [etransitivity; [exact Hsub1|]; etransitivity; eassumption|].
      split; assumption.
    + rewrite (bind_ok _ _ h h (Z.of_nat j, done ++ replicate k libo_xl_cell_new)
                 eq_refl) in E.
      cbn [fst snd] in E.
      destruct k as [|k1]; [lia|].
      assert (Hsplit : done ++ replicate (S k1) libo_xl_cell_new
                       = (done ++ [libo_xl_cell_new])
                         ++ replicate k1 libo_xl_cell_new)
        by (cbn [replicate]; rewrite <- app_assoc; reflexivity).
      rewrite Hsplit in E.
      replace (Z.of_nat j + 1) with (Z.of_nat (S j)) in E by lia.
      replace (j + S k1)%nat with (S j + k1)%nat in E by lia.
      assert (Hfr1 : cells_fresh h n0 (done ++ [libo_xl_cell_new])).
      { destruct Hfr as [Ho Hf]. unfold cells_fresh.
        rewrite cells_ptrs_app. change (cells_ptrs [libo_xl_cell_new]) with (@nil ptr).
        rewrite app_nil_r. split; assumption. }
      destruct (IH (S j) k1 (done ++ [libo_xl_cell_new]) n0 h h' j' cells'
                  Hwf ltac:(rewrite length_app; cbn [length]; lia) Hfr1 Hn0 E)
        as (done' & k' & Hc & Hj' & Hl' & Hwf' & Hsub' & Hfr' & Hn').
      exists done', k'. split; [exact Hc|]. split; [exact Hj'|].
      split; [lia|]. split; [exact Hwf'|]. split; [exact Hsub'|].
      split; assumption.
Qed.

Lemma read_row_fresh (n : nat) (node : xml_row) (row r : libo_xl_row)
    (h h' : heap) :
  heap_wf h -> row_cell row = replicate n libo_xl_cell_new ->
  read_row atof (Z.of_nat n) node row h = Some (r, h') ->
  heap_wf h' /\ blocks h ⊆ blocks h' /\ next h <= next h' /\
  cells_fresh h' (next h) (row_cell r).
Proof.
  intros Hwf Hrow E. unfold read_row in E. rewrite Hrow in E.
  unfold bind at 1 in E.
  destruct (row_loop atof (Z.of_nat n) (row_children node) 0
              (replicate n libo_xl_cell_new) h)
    as [[[j1 cells1] h1]|] eqn:E1; [|discriminate E].
  destruct (row_loop_fresh (row_children node) 0 n [] (next h) h h1 j1 cells1
              Hwf eq_refl (cells_fresh_nil h (next h)) ltac:(lia) E1)
    as (done1 & k1 & Hc1 & Hj1 & Hl1 & Hwf1 & Hsub1 & Hfr1 & Hn1).
  cbn [fst snd] in E. unfold bind at 1 in E.
  destruct (fill_loop (Z.to_nat (Z.of_nat n - j1)) j1 cells1 h1)
    as [[cells2 h2]|] eqn:E2; [|discriminate E].
  injection E as <- <-. rewrite Hj1, Hc1 in E2.
  destruct (fill_loop_fresh _ (length done1) done1 k1 (next h) h1 h2 cells2
              Hwf1 eq_refl Hfr1 Hn1 E2)
    as (done2 & Hc2 & Hl2 & Hck & Hwf2 & Hsub2 & Hfr2 & Hn2).
  split; [exact Hwf2|]. split; [etransitivity; eassumption|].
  split; [exact Hn2|]. cbn [row_cell]. rewrite Hc2.
  replace (k1 - Z.to_nat (Z.of_nat n - Z.of_nat (length done1)))%nat
    with 0%nat by lia.
  cbn [replicate]. rewrite app_nil_r. exact Hfr2.
Qed.

Lemma new_rows_no_ptrs (n : nat) (rows : list libo_xl_row) :
  Forall (fun r => row_cell r = replicate n libo_xl_cell_new) rows ->
  cells_ptrs (flat_map row_cell rows) = [].
Proof.
  induction 1 as [|r rows Hr _ IH]; [reflexivity|].
  cbn [flat_map]. rewrite cells_ptrs_app, Hr, cells_ptrs_new, IH. reflexivity.
Qed.

Lemma rows_loop_fresh (n : nat) (nodes : list xml_row) :
  forall (rows rows' : list libo_xl_row) (h h' : heap),
    heap_wf h ->
    Forall (fun r => row_cell r = replicate n libo_xl_cell_new) rows ->
    Reader.rows_loop atof (Z.of_nat n) rows nodes h = Some (rows', h') ->
    heap_wf h' /\ blocks h ⊆ blocks h' /\ next h <= next h' /\
    cells_fresh h' (next h) (flat_map row_cell rows').
Proof.
  induction nodes as [|node nodes IH]; intros rows rows' h h' Hwf Hnew E.
  - assert (E' : rows' = rows /\ h' = h).
    { destruct rows; cbn in E; injection E as <- <-; auto. }
    destruct E' as [-> ->]. split; [exact Hwf|]. split; [reflexivity|].
    split; [lia|]. unfold cells_fresh.
    rewrite (new_rows_no_ptrs n rows Hnew). split; [split|]; constructor.
  - destruct rows as [|row rows].
    { injection E as <- <-. split; [exact Hwf|]. split; [reflexivity|].
      split; [lia|]. apply cells_fresh_nil. }
    apply Forall_cons in Hnew as [Hrow Hnew].
    cbn [Reader.rows_loop] in E. unfold bind at 1 in E.
    destruct (read_row atof (Z.of_nat n) node row h) as [[r h1]|] eqn:E1;
      [|discriminate E].
    unfold bind at 1 in E.
    destruct (Reader.rows_loop atof (Z.of_nat n) rows nodes h1)
      as [[rs h2]|] eqn:E2; [|discriminate E].
    injection E as <- <-.
    destruct (read_row_fresh n node row r h h1 Hwf Hrow E1)
      as (Hwf1 & Hsub1 & Hn1 & Hfr1).
    destruct (IH rows rs h1 h2 Hwf1 Hnew E2) as (Hwf2 & Hsub2 & Hn2 & Hfr2).
    split; [exact Hwf2|]. split; [etransitivity; eassumption|].
    split; [lia|]. cbn [flat_map].
    exact (cells_fresh_app h1 h2 (next h) _ _ Hwf1 Hsub2 Hfr1 Hfr2 Hn1).
Qed.

Lemma rows_ptrs_flat (rows : list libo_xl_row) :
  rows_ptrs rows = cells_ptrs (flat_map row_cell rows).
Proof.
  induction rows as [|r rows IH]; [reflexivity|].
  unfold rows_ptrs in *. cbn [flat_map]. rewrite cells_ptrs_app, IH.
  reflexivity.
Qed.

Lemma rows_read_fresh (n_rows n_cols : nat) (nodes : list xml_row)
    (rows : list libo_xl_row) (h h' : heap) :
  heap_wf h ->
  libo_xl_sheet_rows_read atof (Z.of_nat n_rows) (Z.of_nat n_cols) nodes h
  = Some (rows, h') ->
  heap_wf h' /\ blocks h ⊆ blocks h' /\ owns h' (rows_ptrs rows) /\
  Forall (fun p => next h <= p) (rows_ptrs rows).
Proof.
  intros Hwf E. unfold libo_xl_sheet_rows_read, new_grid in E.
  rewrite !Nat2Z.id in E.
  assert (Hnew : Forall (fun r => row_cell r = replicate n_cols libo_xl_cell_new)
                        (replicate n_rows
                           (mkRow (replicate n_cols libo_xl_cell_new)))).
  { apply Forall_forall. intros r Hr.
    apply elem_of_replicate in Hr as [-> _]. reflexivity. }
  rewrite rows_ptrs_flat.
  destruct (Z.of_nat (length nodes) =? Z.of_nat n_rows).
  - destruct (rows_loop_fresh n_cols nodes _ rows h h' Hwf Hnew E)
      as (Hwf' & Hsub' & _ & [Ho Hf]).
    split; [exact Hwf'|]. split; [exact Hsub'|]. split; assumption.
  - injection E as <- <-. rewrite (new_rows_no_ptrs n_cols _ Hnew).
    split; [exact Hwf|]. split; [reflexivity|]. split; [split|]; constructor.
Qed.

Lemma rows_read_sparse_owns
    (h : heap) (n_cols : nat) (nodes : list xml_row) :
  heap_wf h -> (0 < n_cols)%nat -> Forall (sparse_row (Z.of_nat n_cols)) nodes ->
  exists (rows : list libo_xl_row) (h' : heap),
    libo_xl_sheet_rows_read atof (Z.of_nat (length nodes)) (Z.of_nat n_cols)
      nodes h = Some (rows, h') /\
    heap_wf h' /\ owns h' (rows_ptrs rows) /\
    (forall p, p ∈ rows_ptrs rows -> blocks h !! p = None) /\
    (forall p, live h p -> blocks h' !! p = blocks h !! p).
Proof.
  intros Hwf _ Hsparse.
  assert (Hex : exists rows h',
             libo_xl_sheet_rows_read atof (Z.of_nat (length nodes))
               (Z.of_nat n_cols) nodes h = Some (rows, h')).
  { unfold libo_xl_sheet_rows_read. rewrite Z.eqb_refl. unfold new_grid.
    rewrite !Nat2Z.id.
    destruct (rows_loop_spec atof n_cols nodes
                (replicate (length nodes)
                   (mkRow (replicate n_cols libo_xl_cell_new))) h Hwf)
      as (rows & h' & E & _); [apply length_replicate | | exact Hsparse |].
    { apply Forall_forall. intros r Hr.
      apply elem_of_replicate in Hr as [-> _]. reflexivity. }
    exists rows, h'. exact E. }
  destruct Hex as (rows & h' & E).
  destruct (rows_read_fresh (length nodes) n_cols nodes rows h h' Hwf E)
    as (Hwf' & Hsub & Hown & Hfresh).
  exists rows, h'. split; [exact E|]. split; [exact Hwf'|].
  split; [exact Hown|]. split.
  - intros p Hp. rewrite Forall_forall in Hfresh. specialize (Hfresh p Hp).
    destruct (blocks h !! p) as [s|] eqn:Es; [|reflexivity].
    pose proof (live_below h p Hwf (ex_intro _ s Es)). lia.
  - intros p [s Hs]. rewrite Hs. exact (lookup_weaken _ _ _ _ Hs Hsub).
Qed.

(** X24. The rows the reader makes of a worksheet of sparse rows own their
    strings: every formula and value a cell points to is a live buffer, no
    two cells share one, each was allocated by the reader, and no buffer
    that existed before is changed. This is what the copying and retyping
    operations ask of a sheet. *)
Theorem reader_sheet_owns_its_strings
    (h : heap) (n_cols : nat) (nodes : list xml_row) :
  heap_wf h -> (0 < n_cols)%nat -> Forall (sparse_row (Z.of_nat n_cols)) nodes ->
  exists (rows : list libo_xl_row) (h' : heap),
    libo_xl_sheet_rows_read atof (Z.of_nat (length nodes)) (Z.of_nat n_cols)
      nodes h = Some (rows, h') /\
    heap_wf h' /\ owns h' (rows_ptrs rows) /\
    (forall p, p ∈ rows_ptrs rows -> blocks h !! p = None) /\
    (forall p, live h p -> blocks h' !! p = blocks h !! p).
Proof. apply rows_read_sparse_owns. Qed.

End Ownership.

Lemma reader_sheet_owns_its_strings_witness :
  exists (rows : list libo_xl_row) (h' : heap),
    libo_xl_sheet_rows_read atof_zero
      (Z.of_nat (length (row_nodes jagged))) (Z.of_nat 3)
      (row_nodes jagged) empty_heap = Some (rows, h') /\
    heap_wf h' /\ owns h' (rows_ptrs rows) /\
    (forall p, p ∈ rows_ptrs rows -> blocks empty_heap !! p = None) /\
    (forall p, live empty_heap p -> blocks h' !! p = blocks empty_heap !! p).
Proof.
  apply (reader_sheet_owns_its_strings atof_zero empty_heap 3 (row_nodes jagged)).
  - closed_heap_wf.
  - lia.
  - repeat constructor; vm_compute; intros H; discriminate H.
Defined.

(** ** Copies of a sheet that was read *)

Lemma free_dead (h : heap) (p : ptr) : blocks h !! p = None -> free p h = None.
Proof. intros E. unfold free. rewrite E. reflexivity. Qed.

Lemma free_if_dead (h : heap) (p : ptr) :
  p <> NULL -> blocks h !! p = None -> free_if p h = None.
Proof.
  intros Hp E. unfold free_if. apply Z.eqb_neq in Hp. rewrite Hp.
  apply free_dead, E.
Qed.

Lemma free_if_keeps_dead (h h' : heap) (p q : ptr) (u : unit) :
  free_if p h = Some (u, h') -> blocks h !! q = None -> blocks h' !! q = None.
Proof.
  intros E Hq. destruct (monotone_free_if p h u h' E) as [_ D].
  unfold free_if, free in E. destruct (p =? NULL).
  - injection E as _ <-. exact Hq.
  - destruct (blocks h !! p); [|discriminate E]. injection E as _ <-.
    cbn [blocks]. destruct (decide (p = q)) as [->|Hne];
      [apply lookup_delete_eq|].
    rewrite lookup_delete_ne by exact Hne. exact Hq.
Qed.

(** Two [free_if] in a row, one of them on a buffer that is gone. *)
Lemma free_pair_dead (h : heap) (a b p : ptr) :
  p <> NULL -> (p = a \/ p = b) -> blocks h !! p = None ->
  (free_if a ;;; free_if b) h = None.
Proof.
  intros Hp Hab Hdead. unfold bind.
  destruct (free_if a h) as [[u h1]|] eqn:E1; [|reflexivity].
  destruct Hab as [->| ->].
  - rewrite (free_if_dead h a Hp Hdead) in E1. discriminate E1.
  - apply free_if_dead; [exact Hp|].
    exact (free_if_keeps_dead h h1 a b u E1 Hdead).
Qed.

Lemma cell_ptrs_member (c : libo_xl_cell) (p : ptr) :
  p ∈ cell_ptrs c ->
  cell_type c = libo_xl_cell_type_expression /\ p <> NULL /\
  (p = formula (expression c) \/ p = value (expression c)).
Proof.
  unfold cell_ptrs. destruct (decide _) as [Ht|_]; [|intros H; inversion H].
  intros Hp. split; [exact Ht|].
  apply elem_of_app in Hp as [Hp|Hp].
  - destruct (formula (expression c) =? NULL) eqn:E; [inversion Hp|].
    apply list_elem_of_singleton in Hp as ->. apply Z.eqb_neq in E. auto.
  - destruct (value (expression c) =? NULL) eqn:E; [inversion Hp|].
    apply list_elem_of_singleton in Hp as ->. apply Z.eqb_neq in E. auto.
Qed.

(** Clearing or retyping a cell one of whose strings is gone frees that
    string a second time. *)
Lemma stale_cell_faults (h : heap) (c : libo_xl_cell) (p : ptr)
    (t : libo_xl_cell_type) :
  p ∈ cell_ptrs c -> blocks h !! p = None ->
  libo_xl_cell_clear c h = None /\ libo_xl_cell_set_type c t h = None.
Proof.
  intros Hp Hdead. apply cell_ptrs_member in Hp as (Ht & Hnull & Hfv). split.
  - unfold libo_xl_cell_clear. rewrite Ht. unfold bind at 1.
    pose proof (free_pair_dead h (value (expression c)) (formula (expression c))
                  p Hnull ltac:(tauto) Hdead) as E.
    unfold bind in E |- *.
    destruct (free_if (value (expression c)) h) as [[u h1]|]; [|reflexivity].
    rewrite E. reflexivity.
  - unfold libo_xl_cell_set_type.
    destruct (decide _) as [_|Hne]; [|contradiction].
    unfold bind at 1.
    rewrite (free_pair_dead h (formula (expression c)) (value (expression c))
               p Hnull Hfv Hdead).
    reflexivity.
Qed.

Lemma gap_value_owned (h : heap) (c : libo_xl_cell) :
  heap_wf h -> is_gap h c -> value (expression c) ∈ cell_ptrs c.
Proof.
  intros Hwf (Ht & Hf & Hv). unfold cell_ptrs.
  destruct (decide _) as [_|Hne]; [|contradiction].
  rewrite Hf. cbn [Z.eqb NULL app].
  assert (Hn : value (expression c) <> NULL).
  { apply (heap_wf_not_null h _ Hwf). eexists. exact Hv. }
  apply Z.eqb_neq in Hn. rewrite Hn. left.
Qed.

Lemma rows_ptrs_member (rows : list libo_xl_row) (r : libo_xl_row)
    (c : libo_xl_cell) (p : ptr) :
  r ∈ rows -> c ∈ row_cell r -> p ∈ cell_ptrs c -> p ∈ rows_ptrs rows.
Proof.
  intros Hr Hc Hp. unfold rows_ptrs, cells_ptrs.
  apply list_elem_of_In, in_flat_map. exists r. split; [apply list_elem_of_In, Hr|].
  apply in_flat_map. exists c.
  split; [apply list_elem_of_In, Hc | apply list_elem_of_In, Hp].
Qed.

Section ReadThenCopy.

Variable atof : string -> double.

(** X25. Reading and then copying: when the rows read from a worksheet of
    sparse rows are added to a workbook with [libo_xl_book_add], the value
    string of every gap cell of the stored sheet has been freed, so that
    [libo_xl_cell_clear] and [libo_xl_cell_set_type] on such a cell free it
    a second time. *)
Theorem copy_of_read_sheet_dangles
    (h : heap) (n_cols : nat) (nodes : list xml_row)
    (xlb : libo_xl_book) (sheet : libo_xl_sheet) :
  heap_wf h -> (0 < n_cols)%nat -> Forall (sparse_row (Z.of_nat n_cols)) nodes ->
  exists (rows : list libo_xl_row) (h1 : heap)
         (d xls' : libo_xl_sheet) (h2 : heap),
    libo_xl_sheet_rows_read atof (Z.of_nat (length nodes)) (Z.of_nat n_cols)
      nodes h = Some (rows, h1) /\
    Copy.libo_xl_book_add xlb (Copy.with_rows sheet rows) h1
    = Some ((mkBook (book_sheet xlb ++ [d]), xls'), h2) /\
    sheet_row d = rows /\
    forall (r : libo_xl_row) (c : libo_xl_cell) (t : libo_xl_cell_type),
      r ∈ sheet_row d -> c ∈ row_cell r -> is_gap h1 c ->
      blocks h2 !! value (expression c) = None /\
      libo_xl_cell_clear c h2 = None /\
      libo_xl_cell_set_type c t h2 = None.
Proof.
  intros Hwf Hpos Hsparse.
  destruct (rows_read_sparse_owns atof h n_cols nodes Hwf Hpos Hsparse)
    as (rows & h1 & E1 & Hwf1 & Hown1 & _ & _).
  exists rows, h1.
  destruct (sheet_dup_loop_dead rows h1
              (mkSheet (Model.n_cols sheet) (sheet_name sheet)
                 (ID libo_xl_sheet_new) (rID libo_xl_sheet_new)
                 (default_row_height sheet)
                 (sheet_freeze libo_xl_sheet_new) (sheet_row libo_xl_sheet_new)
                 (sheet_column libo_xl_sheet_new)
                 (sheet_filter libo_xl_sheet_new)) Hwf1 Hown1)
    as (rows' & h2 & E2 & _ & _ & Hd).
  eexists _, _, h2. split; [exact E1|].
  unfold Copy.libo_xl_book_add, Copy.libo_xl_sheet_dup.
  cbn [Copy.with_rows sheet_row Model.n_cols sheet_name default_row_height].
  rewrite (bind_ok _ _ _ _ _ (bind_ok _ _ _ _ _ E2)).
  split; [reflexivity|].
  cbn [fst snd Copy.with_rows sheet_row libo_xl_sheet_new app].
  split; [reflexivity|].
  intros r c t Hr Hc Hgap.
  pose proof (gap_value_owned h1 c Hwf1 Hgap) as Hv.
  pose proof (Hd _ (rows_ptrs_member rows r c _ Hr Hc Hv)) as Hdead.
  split; [exact Hdead|].
  exact (stale_cell_faults h2 c _ t Hv Hdead).
Qed.

End ReadThenCopy.

Lemma copy_of_read_sheet_dangles_witness :
  exists (rows : list libo_xl_row) (h1 : heap)
         (d xls' : libo_xl_sheet) (h2 : heap),
    libo_xl_sheet_rows_read atof_zero
      (Z.of_nat (length (row_nodes jagged))) (Z.of_nat 3)
      (row_nodes jagged) empty_heap = Some (rows, h1) /\
    Copy.libo_xl_book_add libo_xl_book_new
      (Copy.with_rows libo_xl_sheet_new rows) h1
    = Some ((mkBook (book_sheet libo_xl_book_new ++ [d]), xls'), h2) /\
    sheet_row d = rows /\
    forall (r : libo_xl_row) (c : libo_xl_cell) (t : libo_xl_cell_type),
      r ∈ sheet_row d -> c ∈ row_cell r -> is_gap h1 c ->
      blocks h2 !! value (expression c) = None /\
      libo_xl_cell_clear c h2 = None /\
      libo_xl_cell_set_type c t h2 = None.
Proof.
  apply (copy_of_read_sheet_dangles atof_zero empty_heap 3 (row_nodes jagged)
           libo_xl_book_new libo_xl_sheet_new).
  - closed_heap_wf.
  - lia.
  - repeat constructor; vm_compute; intros H; discriminate H.
Defined.
